(** * claim-migrator: moving a Crossplane claim between namespaces

    A shallow embedding of the [migrate] and [resource] packages.  Remote
    calls of the dynamic client are the nodes of a small program tree, so
    that a statement can range over every answer the API server may give;
    documents are JSON trees, as [unstructured.Unstructured] holds them. *)

From stdpp Require Import gmap strings list fin_maps pretty.
From Stdlib Require Import Ascii.

#[local] Set Warnings "-register-all".
#[local] Open Scope string_scope.
#[local] Open Scope list_scope.

(** ** Go strings *)

Module strings.

(** [strings.Split(s, sep)] for a one-byte separator: the pieces between
    the occurrences of [sep], one more than there are occurrences. *)
Fixpoint Split (s : string) (sep : ascii) : list string :=
  match s with
  | EmptyString => [""]
  | String c s' =>
      if decide (c = sep) then "" :: Split s' sep
      else match Split s' sep with
           | [] => [String c ""]
           | p :: ps => String c p :: ps
           end
  end.

(** [strings.Cut(s, sep)]: the text before and after the first [sep]. *)
Fixpoint Cut (s : string) (sep : ascii) : option (string * string) :=
  match s with
  | EmptyString => None
  | String c s' =>
      if decide (c = sep) then Some ("", s')
      else match Cut s' sep with
           | Some (a, b) => Some (String c a, b)
           | None => None
           end
  end.

Definition lower (c : ascii) : ascii :=
  let n := nat_of_ascii c in
  if decide (65 <= n <= 90)%nat then ascii_of_nat (n + 32) else c.

(** [strings.ToLower] on the ASCII letters, which is all a Kubernetes
    kind holds. *)
Fixpoint ToLower (s : string) : string :=
  match s with
  | EmptyString => EmptyString
  | String c s' => String (lower c) (ToLower s')
  end.

End strings.

(** [strconv.Quote], which is what the verb [%q] of [fmt] prints for a
    string: the text between double quotes, with a backslash before a
    double quote and before a backslash, the named escapes for the
    control characters that have one, and [\xNN] for the others and for
    DEL.  A byte above 127 is written as it is: it is taken to belong to
    a printable character. *)
Module strconv.

Definition doubleQuote : ascii := ascii_of_nat 34.
Definition backslash : ascii := ascii_of_nat 92.

Definition hexDigit (n : nat) : ascii :=
  if decide (n < 10)%nat then ascii_of_nat (48 + n) else ascii_of_nat (87 + n).

Definition escape (c : ascii) : string :=
  let n := nat_of_ascii c in
  if decide (n = 34 ∨ n = 92) then String backslash (String c "")
  else if decide (n = 7) then String backslash "a"
  else if decide (n = 8) then String backslash "b"
  else if decide (n = 12) then String backslash "f"
  else if decide (n = 10) then String backslash "n"
  else if decide (n = 13) then String backslash "r"
  else if decide (n = 9) then String backslash "t"
  else if decide (n = 11) then String backslash "v"
  else if decide (n < 32 ∨ n = 127)%nat
  then String backslash
         (String "x" (String (hexDigit (n / 16)) (String (hexDigit (n mod 16)) "")))
  else String c "".

Fixpoint escaped (s : string) : string :=
  match s with
  | EmptyString => EmptyString
  | String c s' => escape c +:+ escaped s'
  end.

Definition Quote (s : string) : string :=
  String doubleQuote (escaped s +:+ String doubleQuote "").

End strconv.

(** ** Go errors *)

Inductive StatusReason :=
| StatusReasonNotFound
| StatusReasonConflict
| StatusReasonAlreadyExists
| StatusReasonUnknown.

(** An error value.  [errorString] is what [errors.New], [errors.Errorf]
    and [fmt.Errorf] build, [withMessage] what [errors.Wrap] builds around a
    cause, [StatusError] an answer of the API server, [NoMatchError] the
    REST mapper's "no kind / no resource matches".  Go's [nil] error is
    [None] of [option error]. *)
Inductive error :=
| errorString (msg : string)
| withMessage (cause : error) (msg : string)
| StatusError (reason : StatusReason) (msg : string)
| NoMatchError (msg : string).

Inductive result (A : Type) :=
| Ok (a : A)
| Err (e : error).
Arguments Ok {A} a.
Arguments Err {A} e.

Module errors.

Definition New (msg : string) : error := errorString msg.

(** [errors.Wrap]: "Returns nil if the supplied error is nil." *)
Definition Wrap (err : option error) (message : string) : option error :=
  match err with
  | None => None
  | Some e => Some (withMessage e message)
  end.

Fixpoint ReasonForError (e : error) : StatusReason :=
  match e with
  | StatusError r _ => r
  | withMessage c _ => ReasonForError c
  | _ => StatusReasonUnknown
  end.

Definition IsNotFound (e : error) : bool :=
  match ReasonForError e with StatusReasonNotFound => true | _ => false end.

Definition IsConflict (e : error) : bool :=
  match ReasonForError e with StatusReasonConflict => true | _ => false end.

Definition IsNoMatchError (e : error) : bool :=
  match e with NoMatchError _ => true | _ => false end.

End errors.

(** ** Documents *)

(** A decoded JSON value, the content of [map[string]interface{}]. *)
Inductive value : Type :=
| VNull
| VBool (b : bool)
| VNum (z : Z)
| VStr (s : string)
| VArr (l : list value)
| VObj (m : gmap string value).

(** [unstructured.Unstructured]: its [Object] map.  [DeepCopy] is the
    identity on such a value. *)
Abbreviation Unstructured := (gmap string value).

Definition DeepCopy (u : Unstructured) : Unstructured := u.

Definition asString (v : value) : option string :=
  match v with VStr s => Some s | _ => None end.

(** ** schema: group, version, kind, resource *)

Module schema.

Record GroupVersionKind := mkGVK { gvkGroup : string; gvkVersion : string; gvkKind : string }.
Record GroupVersionResource := mkGVR { Group : string; Version : string; Resource : string }.
Record GroupKind := mkGK { gkGroup : string; gkKind : string }.
Record GroupResource := mkGR { grGroup : string; grResource : string }.

#[export] Instance GroupVersionResource_eq_dec : EqDecision GroupVersionResource.
Proof. solve_decision. Defined.
#[export] Instance GroupVersionKind_eq_dec : EqDecision GroupVersionKind.
Proof. solve_decision. Defined.
#[export] Instance GroupVersionResource_countable : Countable GroupVersionResource.
Proof.
  refine (inj_countable' (λ g, (Group g, Version g, Resource g))
                         (λ t, mkGVR t.1.1 t.1.2 t.2) _).
  by intros [].
Defined.

Definition Empty (gvk : GroupVersionKind) : bool :=
  bool_decide (gvkGroup gvk = "") && bool_decide (gvkVersion gvk = "")
  && bool_decide (gvkKind gvk = "").

Definition GVKGroupKind (gvk : GroupVersionKind) : GroupKind :=
  mkGK (gvkGroup gvk) (gvkKind gvk).

Definition GKWithVersion (gk : GroupKind) (version : string) : GroupVersionKind :=
  mkGVK (gkGroup gk) version (gkKind gk).

Definition GRWithVersion (gr : GroupResource) (version : string) : GroupVersionResource :=
  mkGVR (grGroup gr) version (grResource gr).

(** [GroupVersion.String]. *)
Definition GroupVersionString (group version : string) : string :=
  if decide (group = "") then version else group +:+ "/" +:+ version.

(** [ParseGroupVersion]: [None] is its error. *)
Definition ParseGroupVersion (gv : string) : option (string * string) :=
  if decide (gv = "" ∨ gv = "/") then Some ("", "")
  else match strings.Split gv "/" with
       | [v] => Some ("", v)
       | [g; v] => Some (g, v)
       | _ => None
       end.

Definition FromAPIVersionAndKind (apiVersion kind : string) : GroupVersionKind :=
  match ParseGroupVersion apiVersion with
  | Some (g, v) => mkGVK g v kind
  | None => mkGVK "" "" kind
  end.

Definition ParseGroupResource (gr : string) : GroupResource :=
  match strings.Cut gr "." with
  | Some (r, g) => mkGR g r
  | None => mkGR "" gr
  end.

Definition ParseGroupKind (gk : string) : GroupKind :=
  match strings.Cut gk "." with
  | Some (k, g) => mkGK g k
  | None => mkGK "" gk
  end.

(** [strings.SplitN(arg, ".", 3)] when [arg] holds two dots or more. *)
Definition splitN3 (arg : string) : option (string * string * string) :=
  match strings.Cut arg "." with
  | Some (a, rest) =>
      match strings.Cut rest "." with
      | Some (b, c) => Some (a, b, c)
      | None => None
      end
  | None => None
  end.

Definition ParseResourceArg (arg : string) : option GroupVersionResource * GroupResource :=
  (match splitN3 arg with
   | Some (r, v, g) => Some (mkGVR g v r)
   | None => None
   end, ParseGroupResource arg).

Definition ParseKindArg (arg : string) : option GroupVersionKind * GroupKind :=
  (match splitN3 arg with
   | Some (k, v, g) => Some (mkGVK g v k)
   | None => None
   end, ParseGroupKind arg).

End schema.
Export schema.

(** ** core/v1 ObjectReference and the claim reference *)

Module v1.

Record ObjectReference := mkRef {
  Kind : string;
  Namespace : string;
  Name : string;
  UID : string;
  APIVersion : string;
  ResourceVersion : string;
  FieldPath : string
}.

Definition GroupVersionKind (ref : ObjectReference) : schema.GroupVersionKind :=
  FromAPIVersionAndKind (APIVersion ref) (Kind ref).

End v1.

(** The literal [&v1.ObjectReference{Kind:, APIVersion:, Name:, Namespace:}]. *)
Definition objectReference (kind apiVersion name namespace : string) : v1.ObjectReference :=
  v1.mkRef kind namespace name "" apiVersion "" "".

(** ** apimachinery: unstructured accessors *)

Module unstructured.

(** [NestedFieldNoCopy]: [Some None] is "not found", [None] the error
    for a value on the way that is not a map. *)
Fixpoint NestedFieldNoCopy (obj : Unstructured) (fields : list string)
  : option (option value) :=
  match fields with
  | [] => Some (Some (VObj obj))
  | [f] => Some (obj !! f)
  | f :: rest =>
      match obj !! f with
      | None => Some None
      | Some VNull => Some None
      | Some (VObj m) => NestedFieldNoCopy m rest
      | Some _ => None
      end
  end.

(** [getNestedString]: the string at the path, or the empty string. *)
Definition getNestedString (obj : Unstructured) (fields : list string) : string :=
  match NestedFieldNoCopy obj fields with
  | Some (Some (VStr s)) => s
  | _ => ""
  end.

(** The map of strings a JSON object holds, when each of its values is
    a string. *)
Definition stringMap (m : gmap string value) : option (gmap string string) :=
  if bool_decide (map_Forall (λ _ v, is_Some (asString v)) m)
  then Some (omap asString m) else None.

(** [NestedStringMap] as [GetLabels] uses it: Go's nil map is [None]. *)
Definition NestedStringMap (obj : Unstructured) (fields : list string)
  : option (gmap string string) :=
  match NestedFieldNoCopy obj fields with
  | Some (Some (VObj m)) => stringMap m
  | _ => None
  end.

(** [setNestedFieldNoCopy]: [None] is its error, which every setter of
    [Unstructured] drops, leaving the object as it was. *)
Fixpoint SetNestedField (obj : Unstructured) (v : value) (fields : list string)
  : option Unstructured :=
  match fields with
  | [] => None
  | [f] => Some (<[f := v]> obj)
  | f :: rest =>
      match obj !! f with
      | None => (λ m', <[f := VObj m']> obj) <$> SetNestedField ∅ v rest
      | Some (VObj m) => (λ m', <[f := VObj m']> obj) <$> SetNestedField m v rest
      | Some _ => None
      end
  end.

Definition setNestedField (u : Unstructured) (v : value) (fields : list string)
  : Unstructured :=
  default u (SetNestedField u v fields).

(** [RemoveNestedField]. *)
Fixpoint RemoveNestedField (obj : Unstructured) (fields : list string) : Unstructured :=
  match fields with
  | [] => obj
  | [f] => delete f obj
  | f :: rest =>
      match obj !! f with
      | Some (VObj m) => <[f := VObj (RemoveNestedField m rest)]> obj
      | _ => obj
      end
  end.

Definition GetAPIVersion (u : Unstructured) : string := getNestedString u ["apiVersion"].
Definition GetKind (u : Unstructured) : string := getNestedString u ["kind"].
Definition GetName (u : Unstructured) : string := getNestedString u ["metadata"; "name"].
Definition GetNamespace (u : Unstructured) : string :=
  getNestedString u ["metadata"; "namespace"].
Definition GetResourceVersion (u : Unstructured) : string :=
  getNestedString u ["metadata"; "resourceVersion"].

Definition SetNamespace (u : Unstructured) (namespace : string) : Unstructured :=
  if decide (namespace = "") then RemoveNestedField u ["metadata"; "namespace"]
  else setNestedField u (VStr namespace) ["metadata"; "namespace"].

Definition GetLabels (u : Unstructured) : option (gmap string string) :=
  NestedStringMap u ["metadata"; "labels"].

(** [SetLabels] of a map that is not nil. *)
Definition SetLabels (u : Unstructured) (labels : gmap string string) : Unstructured :=
  setNestedField u (VObj (VStr <$> labels)) ["metadata"; "labels"].

(** [SetFinalizers] of a slice that is not nil. *)
Definition SetFinalizers (u : Unstructured) (finalizers : list string) : Unstructured :=
  setNestedField u (VArr (VStr <$> finalizers)) ["metadata"; "finalizers"].

(** [GetFinalizers]: [NestedStringSlice], nil on any miss. *)
Definition GetFinalizers (u : Unstructured) : option (list string) :=
  match NestedFieldNoCopy u ["metadata"; "finalizers"] with
  | Some (Some (VArr l)) => mapM asString l
  | _ => None
  end.

End unstructured.

(** ** crossplane-runtime: fieldpath *)

Module fieldpath.

(** [Paved.GetValue] along field segments; [None] is its error. *)
Fixpoint GetValue (obj : Unstructured) (path : list string) : option value :=
  match path with
  | [] => Some (VObj obj)
  | [f] => obj !! f
  | f :: rest =>
      match obj !! f with
      | Some (VObj m) => GetValue m rest
      | _ => None
      end
  end.

(** [Paved.SetValue] along field segments: a missing or null field on
    the way becomes a fresh object; [None] is the "is not an object"
    error. *)
Fixpoint SetValue (obj : Unstructured) (path : list string) (v : value)
  : option Unstructured :=
  match path with
  | [] => None
  | [f] => Some (<[f := v]> obj)
  | f :: rest =>
      match obj !! f with
      | None | Some VNull => (λ m', <[f := VObj m']> obj) <$> SetValue ∅ rest v
      | Some (VObj m) => (λ m', <[f := VObj m']> obj) <$> SetValue m rest v
      | Some _ => None
      end
  end.

(** [_ = fieldpath.Pave(obj).SetValue(path, v)]: the error is dropped. *)
Definition SetValue_ (obj : Unstructured) (path : list string) (v : value) : Unstructured :=
  default obj (SetValue obj path v).

End fieldpath.

(** ** crossplane-runtime: the unstructured claim and composite *)

Module claim.

(** [claim.Reference], and its JSON form. *)
Record Reference := mkReference {
  refAPIVersion : string; refKind : string; refName : string; refNamespace : string
}.

Definition toJSON (r : Reference) : value :=
  VObj (<["apiVersion" := VStr (refAPIVersion r)]>
        (<["kind" := VStr (refKind r)]>
         (<["name" := VStr (refName r)]>
          (<["namespace" := VStr (refNamespace r)]> ∅)))).

Definition GetReference (c : Unstructured) : Reference :=
  mkReference (unstructured.GetAPIVersion c) (unstructured.GetKind c)
              (unstructured.GetName c) (unstructured.GetNamespace c).

(** A string field of a struct decoded by [json.Unmarshal]: absent and
    null leave it empty, a value that is not a string fails. *)
Definition stringField (m : gmap string value) (f : string) : option string :=
  match m !! f with
  | None | Some VNull => Some ""
  | Some (VStr s) => Some s
  | Some _ => None
  end.

Definition decodeObjectReference (v : value) : option v1.ObjectReference :=
  match v with
  | VNull => Some (v1.mkRef "" "" "" "" "" "" "")
  | VObj m =>
      kind ← stringField m "kind";
      namespace ← stringField m "namespace";
      name ← stringField m "name";
      uid ← stringField m "uid";
      apiVersion ← stringField m "apiVersion";
      resourceVersion ← stringField m "resourceVersion";
      fieldPath ← stringField m "fieldPath";
      Some (v1.mkRef kind namespace name uid apiVersion resourceVersion fieldPath)
  | _ => None
  end.

(** [GetResourceReference]: nil when [spec.resourceRef] cannot be read
    into an [ObjectReference]. *)
Definition GetResourceReference (c : Unstructured) : option v1.ObjectReference :=
  v ← fieldpath.GetValue c ["spec"; "resourceRef"];
  decodeObjectReference v.

(** [SetResourceReference(nil)]: a nil pointer marshals to JSON null. *)
Definition SetResourceReference_nil (c : Unstructured) : Unstructured :=
  fieldpath.SetValue_ c ["spec"; "resourceRef"] VNull.

End claim.

Module composite.

Definition SetClaimReference (c : Unstructured) (ref : claim.Reference) : Unstructured :=
  fieldpath.SetValue_ c ["spec"; "claimRef"] (claim.toJSON ref).

Definition GetClaimReferenceNamespace (c : Unstructured) : option value :=
  fieldpath.GetValue c ["spec"; "claimRef"; "namespace"].

End composite.

(** ** Programs over the dynamic client *)

(** A computation that calls the API server: each node is one remote call
    of [dynamic.ResourceInterface] and continues with the answer.  A
    cluster-scoped call has the empty namespace.  [Panic] is a Go run-time
    panic (nil dereference, write to a nil map). *)
Inductive prog (A : Type) : Type :=
| Ret (a : A)
| Panic (msg : string)
| CallGet (gvr : GroupVersionResource) (ns name : string)
    (k : result Unstructured → prog A)
| CallCreate (gvr : GroupVersionResource) (ns : string) (obj : Unstructured)
    (k : result Unstructured → prog A)
| CallUpdate (gvr : GroupVersionResource) (ns : string) (obj : Unstructured)
    (k : result Unstructured → prog A)
| CallDelete (gvr : GroupVersionResource) (ns name : string)
    (k : option error → prog A).
Arguments Ret {A} a.
Arguments Panic {A} msg.
Arguments CallGet {A} gvr ns name k.
Arguments CallCreate {A} gvr ns obj k.
Arguments CallUpdate {A} gvr ns obj k.
Arguments CallDelete {A} gvr ns name k.

Fixpoint bind {A B : Type} (p : prog A) (f : A → prog B) : prog B :=
  match p with
  | Ret a => f a
  | Panic msg => Panic msg
  | CallGet gvr ns name k => CallGet gvr ns name (λ r, bind (k r) f)
  | CallCreate gvr ns obj k => CallCreate gvr ns obj (λ r, bind (k r) f)
  | CallUpdate gvr ns obj k => CallUpdate gvr ns obj (λ r, bind (k r) f)
  | CallDelete gvr ns name k => CallDelete gvr ns name (λ r, bind (k r) f)
  end.

Declare Scope prog_scope.
Delimit Scope prog_scope with prog.
Notation "'let*' x := p 'in' q" := (bind p (λ x, q))
  (at level 10, x pattern, p at level 100, q at level 200) : prog_scope.
#[local] Open Scope prog_scope.

Definition Get (gvr : GroupVersionResource) (ns name : string) : prog (result Unstructured) :=
  CallGet gvr ns name Ret.
Definition Create (gvr : GroupVersionResource) (ns : string) (obj : Unstructured)
  : prog (result Unstructured) := CallCreate gvr ns obj Ret.
Definition Update (gvr : GroupVersionResource) (ns : string) (obj : Unstructured)
  : prog (result Unstructured) := CallUpdate gvr ns obj Ret.
Definition Delete (gvr : GroupVersionResource) (ns name : string) : prog (option error) :=
  CallDelete gvr ns name Ret.

(** The error of a call's answer. *)
Definition errOf {A} (r : result A) : option error :=
  match r with Ok _ => None | Err e => Some e end.

(** ** client-go: retry *)

Module retry.

(** [retry.DefaultRetry.Steps]. *)
Definition DefaultRetrySteps : nat := 5.

(** [retry.OnError] over [wait.ExponentialBackoff] with [steps] steps
    left: [fn] runs until it returns nil or an error that is not
    retriable; when the steps are used up the last retriable error is
    returned.  The sleep between two attempts is not modelled. *)
Fixpoint OnError (steps : nat) (retriable : error → bool) (fn : prog (option error))
    (lastErr : option error) : prog (option error) :=
  match steps with
  | O => Ret lastErr
  | S steps' =>
      let* err := fn in
      match err with
      | None => Ret None
      | Some e =>
          if retriable e then OnError steps' retriable fn (Some e)
          else Ret (Some e)
      end
  end.

Definition RetryOnConflict (steps : nat) (fn : prog (option error)) : prog (option error) :=
  OnError steps errors.IsConflict fn None.

End retry.

(** ** package resource *)

Module resource.

(** The [schema.GroupVersionResource] each function builds from a
    reference: the kind in lower case with an "s". *)
Definition gvrOf (ref : v1.ObjectReference) : GroupVersionResource :=
  mkGVR (gvkGroup (v1.GroupVersionKind ref)) (gvkVersion (v1.GroupVersionKind ref))
        (strings.ToLower (v1.Kind ref) +:+ "s").

Definition GetResource (ref : v1.ObjectReference)
  : prog (option Unstructured * bool * option error) :=
  let* r := Get (gvrOf ref) (v1.Namespace ref) (v1.Name ref) in
  match r with
  | Err err =>
      if errors.IsNotFound err then Ret (None, false, None)
      else Ret (None, false, Some err)
  | Ok u => Ret (Some u, true, None)
  end.

Definition ResourceExists (ref : v1.ObjectReference) : prog (bool * option error) :=
  let* (_, re, err) := GetResource ref in
  Ret (re, err).

Definition CreateResource (ref : v1.ObjectReference) (u : Unstructured)
  : prog (option Unstructured * option error) :=
  let* r := Create (gvrOf ref) (v1.Namespace ref) u in
  match r with
  | Err err => Ret (None, errors.Wrap (Some err) "unable to create new claim")
  | Ok u => Ret (Some u, None)
  end.

(** One pass of the closure retried by [UpdateCompositeWithNewClaim]. *)
Definition updateCompositeOnce (xrRef : v1.ObjectReference) (xrcu : Unstructured)
  : prog (option error) :=
  let res := gvrOf xrRef in
  let* r := Get res "" (v1.Name xrRef) in
  match r with
  | Err getErr => Ret (Some getErr)
  | Ok xru =>
      let xr := DeepCopy xru in
      let xr := composite.SetClaimReference xr (claim.GetReference xrcu) in
      match unstructured.GetLabels xr with
      | None => Panic "assignment to entry in nil map"
      | Some labels =>
          let labels := <["crossplane.io/claim-namespace" := unstructured.GetNamespace xrcu]> labels in
          let xr := unstructured.SetLabels xr labels in
          let* r := Update res "" xr in
          Ret (errOf r)
      end
  end.

(** [xrRef] is a pointer: nil is [None], and building the resource from
    it is then a nil dereference. *)
Definition UpdateCompositeWithNewClaim (xrRef : option v1.ObjectReference)
    (xrcu : Unstructured) : prog (option error) :=
  match xrRef with
  | None => Panic "invalid memory address or nil pointer dereference"
  | Some xrRef =>
      let* retryErr := retry.RetryOnConflict retry.DefaultRetrySteps
                         (updateCompositeOnce xrRef xrcu) in
      match retryErr with
      | Some e => Ret (Some e)
      | None => Ret None
      end
  end.

(** The document [DeleteSourceClaim] sends to sever the claim. *)
Definition severed (u : Unstructured) : Unstructured :=
  let xrc := DeepCopy u in
  let xrc := claim.SetResourceReference_nil xrc in
  unstructured.SetFinalizers xrc [].

Definition clearSourceOnce (ref : v1.ObjectReference) : prog (option error) :=
  let* r := Get (gvrOf ref) (v1.Namespace ref) (v1.Name ref) in
  match r with
  | Err getErr => Ret (Some getErr)
  | Ok u =>
      let* r := Update (gvrOf ref) (v1.Namespace ref) (severed u) in
      Ret (errOf r)
  end.

Definition deleteSourceOnce (ref : v1.ObjectReference) : prog (option error) :=
  let* r := Get (gvrOf ref) (v1.Namespace ref) (v1.Name ref) in
  match r with
  | Err getErr => Ret (Some getErr)
  | Ok _ => Delete (gvrOf ref) (v1.Namespace ref) (v1.Name ref)
  end.

Definition DeleteSourceClaim (ref : v1.ObjectReference) : prog (option error) :=
  let* retryUpdateErr := retry.RetryOnConflict retry.DefaultRetrySteps (clearSourceOnce ref) in
  match retryUpdateErr with
  | Some e => Ret (Some e)
  | None =>
      let* retryDeleteErr := retry.RetryOnConflict retry.DefaultRetrySteps (deleteSourceOnce ref) in
      match retryDeleteErr with
      | Some e => Ret (Some e)
      | None => Ret None
      end
  end.

(** *** The REST mapper *)

Inductive RESTScopeName := RESTScopeNameNamespace | RESTScopeNameRoot.

#[export] Instance RESTScopeName_eq_dec : EqDecision RESTScopeName.
Proof. solve_decision. Defined.

Record RESTMapping := mkMapping {
  mappingResource : GroupVersionResource;
  mappingGroupVersionKind : schema.GroupVersionKind;
  mappingScope : RESTScopeName
}.

(** [meta.RESTMapper], as far as [MappingFor] calls it. *)
Record RESTMapper := mkMapper {
  KindFor : GroupVersionResource → schema.GroupVersionKind * option error;
  RESTMapping_ : GroupKind → string → result RESTMapping
}.

(** [fmt.Errorf(errFmtResourceTypeNotFound, resource)]: the format ends
    in the verb [%q]. *)
Definition errFmtResourceTypeNotFound (resource : string) : string :=
  "the server doesn't have a resource type " +:+ strconv.Quote resource.
Definition errGetDiscoveryClient : string := "cannot get discovery client".

Definition MappingFor (rmapper : RESTMapper) (resourceOrKindArg : string)
  : result RESTMapping :=
  let '(fullySpecifiedGVR, groupResource) := ParseResourceArg resourceOrKindArg in
  let gvk := mkGVK "" "" "" in
  let gvk := match fullySpecifiedGVR with
             | Some gvr => fst (KindFor rmapper gvr)
             | None => gvk
             end in
  let gvk := if Empty gvk then fst (KindFor rmapper (GRWithVersion groupResource ""))
             else gvk in
  if negb (Empty gvk) then RESTMapping_ rmapper (GVKGroupKind gvk) (gvkVersion gvk)
  else
    let '(fullySpecifiedGVK, groupKind) := ParseKindArg resourceOrKindArg in
    let fullySpecifiedGVK := match fullySpecifiedGVK with
                             | Some g => g
                             | None => GKWithVersion groupKind ""
                             end in
    let second :=
      match RESTMapping_ rmapper groupKind (gvkVersion gvk) with
      | Ok mapping => Ok mapping
      | Err err =>
          if errors.IsNoMatchError err
          then Err (errorString (errFmtResourceTypeNotFound (grResource groupResource)))
          else Err err
      end in
    if negb (Empty fullySpecifiedGVK) then
      match RESTMapping_ rmapper (GVKGroupKind fullySpecifiedGVK)
              (gvkVersion fullySpecifiedGVK) with
      | Ok mapping => Ok mapping
      | Err _ => second
      end
    else second.

(** [rest.Config], and what the process finds outside the API server's
    resources: the kubeconfig, the client constructors, discovery. *)
Record Config := mkConfig { Host : string }.

Record Platform := mkPlatform {
  GetConfig : result Config;
  NewForConfig : Config → option error;
  NewDiscoveryClientForConfig : Config → result RESTMapper
}.

Definition NewDynamicClient (pf : Platform) (config : Config) : option error :=
  match NewForConfig pf config with
  | Some err => Some err
  | None => None
  end.

Definition NewRestMapper (pf : Platform) (kubeconfig : Config) : result RESTMapper :=
  match NewDiscoveryClientForConfig pf kubeconfig with
  | Err err => Err (withMessage err errGetDiscoveryClient)
  | Ok rmapper => Ok rmapper
  end.

End resource.

(** ** package migrate *)

Module migrate.
Import resource.

Definition errCreateDestClaim : string := "cannot create destination claim ".
Definition errGetResource : string := "cannot get requested resource".
Definition errKubeConfig : string := "failed to get kubeconfig".
Definition errGetMapping : string := "cannot get mapping for resource".
Definition errMissingName : string :=
  "missing name, must be provided separately 'TYPE[.VERSION][.GROUP] [NAME]' or in the 'TYPE[.VERSION][.GROUP][/NAME]' format".
Definition errNameDoubled : string :=
  "name provided twice, must be provided separately 'TYPE[.VERSION][.GROUP] [NAME]' or in the 'TYPE[.VERSION][.GROUP][/NAME]' format".
Definition errNotNamespaced : string := " resource not namespaces".
Definition errInvalidResource : string :=
  "invalid resource, must be provided in the 'TYPE[.VERSION][.GROUP][/NAME]' format".
Definition errInvalidResourceAndName : string := "invalid resource and name".
Definition errRestMapper : string := "unable to create REST Mapper".

Definition errNoNamespace (destNamespace : string) : error :=
  errorString ("❌ cannot create new claim, namespace " +:+ destNamespace
               +:+ " does not exist").
Definition errDestExists (name destNamespace : string) : error :=
  errorString ("Cannot create new claim: claim " +:+ name +:+ " in namespace "
               +:+ destNamespace +:+ " already exists ").

Record Cmd := mkCmd {
  Claim : string;
  Namespace : string;
  DestNamespace : string;
  Name : string
}.

Definition getResourceAndName (c : Cmd) : string * string * option error :=
  if decide (Claim c = "") then ("", "", Some (errors.New errInvalidResource))
  else
    let splittedResource := strings.Split (Claim c) "/" in
    match splittedResource with
    | [kind] =>
        if decide (Name c = "") then ("", "", Some (errors.New errMissingName))
        else (kind, Name c, None)
    | [kind; name] =>
        if decide (Name c ≠ "") then ("", "", Some (errors.New errNameDoubled))
        else (kind, name, None)
    | _ => ("", "", Some (errors.New errInvalidResource))
    end.

Definition claimRef (mapping : RESTMapping) (name namespace : string)
  : v1.ObjectReference :=
  objectReference (gvkKind (mappingGroupVersionKind mapping))
    (GroupVersionString (gvkGroup (mappingGroupVersionKind mapping))
                        (gvkVersion (mappingGroupVersionKind mapping)))
    name namespace.

(** The document [Run] hands to [CreateResource]. *)
Definition destinationOf (srcClaim : Unstructured) (destNamespace : string) : Unstructured :=
  let dstClaim := DeepCopy srcClaim in
  let dstClaim := unstructured.SetNamespace dstClaim destNamespace in
  fieldpath.SetValue_ dstClaim ["metadata"; "resourceVersion"] (VStr "").

Definition nilDeref {A} : prog A :=
  Panic "invalid memory address or nil pointer dereference".

Definition Run (pf : Platform) (c : Cmd) : prog (option error) :=
  match GetConfig pf with
  | Err err => Ret (errors.Wrap (Some err) errKubeConfig)
  | Ok kubeconfig =>
  match NewDynamicClient pf kubeconfig with
  | Some err => Ret (Some err)
  | None =>
  (* check if destination Namespace exists *)
  let ns := objectReference "Namespace" "v1" (DestNamespace c) "" in
  let* (_, re, err) := GetResource ns in
  match err with
  | Some _ => Ret (errors.Wrap err errGetResource)
  | None =>
  if negb re then Ret (Some (errNoNamespace (DestNamespace c)))
  else
  match NewRestMapper pf kubeconfig with
  | Err err => Ret (errors.Wrap (Some err) errRestMapper)
  | Ok rmapper =>
  let '(res, name, err) := getResourceAndName c in
  match err with
  | Some _ => Ret (errors.Wrap err errInvalidResourceAndName)
  | None =>
  let mappingErr := MappingFor rmapper res in
  let err := errOf mappingErr in
  match mappingErr with
  | Err _ => Ret (errors.Wrap err errGetMapping)
  | Ok mapping =>
  if negb (bool_decide (mappingScope mapping = RESTScopeNameNamespace))
  then Ret (errors.Wrap err errNotNamespaced)
  else
  let srcClaimRef := claimRef mapping name (Namespace c) in
  let* (srcClaim, re, err) := GetResource srcClaimRef in
  match err with
  | Some _ => Ret (errors.Wrap err errGetResource)
  | None =>
  if negb re then Ret (errors.Wrap err "source Claim not found")
  else
  let dstClaimRef := claimRef mapping name (DestNamespace c) in
  (* check if destination Claim exists *)
  let* (_, re, err) := GetResource dstClaimRef in
  match err with
  | Some _ => Ret (errors.Wrap err errGetResource)
  | None =>
  if re then Ret (Some (errDestExists name (DestNamespace c)))
  else
  (* create the destination Claim *)
  match srcClaim with
  | None => nilDeref
  | Some srcClaim =>
  let dstClaim := destinationOf srcClaim (DestNamespace c) in
  let* (dstClaimUnstructured, err) := CreateResource dstClaimRef dstClaim in
  match err with
  | Some _ => Ret (errors.Wrap err errCreateDestClaim)
  | None =>
  match dstClaimUnstructured with
  | None => nilDeref
  | Some dstClaimUnstructured =>
  (* Get the XR associated with the claim *)
  let xrc := DeepCopy dstClaimUnstructured in
  let xr := claim.GetResourceReference xrc in
  (* Update the Composite *)
  let* err := UpdateCompositeWithNewClaim xr xrc in
  match err with
  | Some _ => Ret (errors.Wrap err "unable to update composite")
  | None =>
  (* Delete the Source Claim *)
  let* err := DeleteSourceClaim srcClaimRef in
  match err with
  | Some _ => Ret (errors.Wrap err "unable to delete source claim")
  | None => Ret None
  end end end end end end end end end end end end end.

End migrate.

(** ** Runs and traces *)

(** One remote call together with the answer it got. *)
Inductive event :=
| EvGet (gvr : GroupVersionResource) (ns name : string) (r : result Unstructured)
| EvCreate (gvr : GroupVersionResource) (ns : string) (obj : Unstructured)
    (r : result Unstructured)
| EvUpdate (gvr : GroupVersionResource) (ns : string) (obj : Unstructured)
    (r : result Unstructured)
| EvDelete (gvr : GroupVersionResource) (ns name : string) (r : option error).

Inductive outcome (A : Type) :=
| Returned (a : A)
| Panicked (msg : string).
Arguments Returned {A} a.
Arguments Panicked {A} msg.

(** [runs p tr o]: against some behaviour of the API server, [p] issues
    the calls of [tr], gets the answers recorded there, and ends in [o].
    The answers are not constrained: other writers, conflicts and
    transport failures are all among them. *)
Inductive runs {A : Type} : prog A → list event → outcome A → Prop :=
| runs_Ret a : runs (Ret a) [] (Returned a)
| runs_Panic msg : runs (Panic msg) [] (Panicked msg)
| runs_Get gvr ns name k r tr o :
    runs (k r) tr o → runs (CallGet gvr ns name k) (EvGet gvr ns name r :: tr) o
| runs_Create gvr ns obj k r tr o :
    runs (k r) tr o → runs (CallCreate gvr ns obj k) (EvCreate gvr ns obj r :: tr) o
| runs_Update gvr ns obj k r tr o :
    runs (k r) tr o → runs (CallUpdate gvr ns obj k) (EvUpdate gvr ns obj r :: tr) o
| runs_Delete gvr ns name k r tr o :
    runs (k r) tr o → runs (CallDelete gvr ns name k) (EvDelete gvr ns name r :: tr) o.

(** A call that writes to the store. *)
Definition mutation (e : event) : bool :=
  match e with
  | EvGet _ _ _ _ => false
  | _ => true
  end.

Definition isUpdate (e : event) : bool :=
  match e with EvUpdate _ _ _ _ => true | _ => false end.

Definition isDelete (e : event) : bool :=
  match e with EvDelete _ _ _ _ => true | _ => false end.

(** The call of an event got an answer without error. *)
Definition succeeded (e : event) : bool :=
  match e with
  | EvGet _ _ _ (Ok _) | EvCreate _ _ _ (Ok _) | EvUpdate _ _ _ (Ok _)
  | EvDelete _ _ _ None => true
  | _ => false
  end.

(** *** Running against a server given as a state machine *)

Record server (S : Type) := mkServer {
  onGet : GroupVersionResource → string → string → S → result Unstructured * S;
  onCreate : GroupVersionResource → string → Unstructured → S → result Unstructured * S;
  onUpdate : GroupVersionResource → string → Unstructured → S → result Unstructured * S;
  onDelete : GroupVersionResource → string → string → S → option error * S
}.
Arguments onGet {S} _ _ _ _ _.
Arguments onCreate {S} _ _ _ _ _.
Arguments onUpdate {S} _ _ _ _ _.
Arguments onDelete {S} _ _ _ _ _.

Fixpoint exec {A S : Type} (sv : server S) (p : prog A) (s : S)
  : outcome A * S * list event :=
  match p with
  | Ret a => (Returned a, s, [])
  | Panic msg => (Panicked msg, s, [])
  | CallGet gvr ns name k =>
      let '(r, s1) := onGet sv gvr ns name s in
      let '(o, s2, tr) := exec sv (k r) s1 in
      (o, s2, EvGet gvr ns name r :: tr)
  | CallCreate gvr ns obj k =>
      let '(r, s1) := onCreate sv gvr ns obj s in
      let '(o, s2, tr) := exec sv (k r) s1 in
      (o, s2, EvCreate gvr ns obj r :: tr)
  | CallUpdate gvr ns obj k =>
      let '(r, s1) := onUpdate sv gvr ns obj s in
      let '(o, s2, tr) := exec sv (k r) s1 in
      (o, s2, EvUpdate gvr ns obj r :: tr)
  | CallDelete gvr ns name k =>
      let '(r, s1) := onDelete sv gvr ns name s in
      let '(o, s2, tr) := exec sv (k r) s1 in
      (o, s2, EvDelete gvr ns name r :: tr)
  end.

(** ** A sequential API server *)

(** The store as one client sees it while nobody else writes: objects
    keyed by resource, namespace and name; every write stamps a new
    [metadata.resourceVersion]; an update carrying a stale version is a
    conflict; a create carrying any version is refused; deleting an
    object that has finalizers only marks it. *)
Module kube.

Abbreviation key := (GroupVersionResource * string * string)%type.

Record state := mkState {
  objects : gmap key Unstructured;
  revision : nat
}.

Definition withResourceVersion (u : Unstructured) (rev : nat) : Unstructured :=
  unstructured.setNestedField u (VStr (pretty rev)) ["metadata"; "resourceVersion"].

Definition get (gvr : GroupVersionResource) (ns name : string) (s : state)
  : result Unstructured * state :=
  if decide (name = "") then (Err (errorString "name is required"), s)
  else match objects s !! (gvr, ns, name) with
       | Some u => (Ok u, s)
       | None => (Err (StatusError StatusReasonNotFound name), s)
       end.

Definition create (gvr : GroupVersionResource) (ns : string) (obj : Unstructured)
    (s : state) : result Unstructured * state :=
  let name := unstructured.GetName obj in
  if decide (name = "") then (Err (errorString "name is required"), s)
  else if decide (unstructured.GetResourceVersion obj ≠ "")
  then (Err (StatusError StatusReasonUnknown
               "resourceVersion should not be set on objects to be created"), s)
  else match objects s !! (gvr, ns, name) with
       | Some _ => (Err (StatusError StatusReasonAlreadyExists name), s)
       | None =>
           let stored := withResourceVersion obj (S (revision s)) in
           (Ok stored, mkState (<[(gvr, ns, name) := stored]> (objects s)) (S (revision s)))
       end.

Definition update (gvr : GroupVersionResource) (ns : string) (obj : Unstructured)
    (s : state) : result Unstructured * state :=
  let name := unstructured.GetName obj in
  if decide (name = "") then (Err (errorString "name is required"), s)
  else match objects s !! (gvr, ns, name) with
       | None => (Err (StatusError StatusReasonNotFound name), s)
       | Some old =>
           if decide (unstructured.GetResourceVersion obj = ""
                      ∨ unstructured.GetResourceVersion obj
                        = unstructured.GetResourceVersion old)
           then
             let stored := withResourceVersion obj (S (revision s)) in
             (Ok stored, mkState (<[(gvr, ns, name) := stored]> (objects s)) (S (revision s)))
           else (Err (StatusError StatusReasonConflict name), s)
       end.

Definition hasFinalizers (u : Unstructured) : bool :=
  match unstructured.GetFinalizers u with
  | Some (_ :: _) => true
  | _ => false
  end.

Definition delete (gvr : GroupVersionResource) (ns name : string) (s : state)
  : option error * state :=
  if decide (name = "") then (Some (errorString "name is required"), s)
  else match objects s !! (gvr, ns, name) with
       | None => (Some (StatusError StatusReasonNotFound name), s)
       | Some old =>
           if hasFinalizers old then
             let marked := unstructured.setNestedField
                             (withResourceVersion old (S (revision s)))
                             (VStr "now") ["metadata"; "deletionTimestamp"] in
             (None, mkState (<[(gvr, ns, name) := marked]> (objects s)) (S (revision s)))
           else (None, mkState (base.delete (gvr, ns, name) (objects s)) (revision s))
       end.

Definition api : server state := mkServer state get create update delete.

(** Another writer: it rewrites the object [k], which stamps a new
    [metadata.resourceVersion] on it. *)
Definition touch (k : key) (s : state) : state :=
  match objects s !! k with
  | Some u => mkState (<[k := withResourceVersion u (S (revision s))]> (objects s))
                      (S (revision s))
  | None => s
  end.

(** The store shared with that writer.  [pending] lists the objects the
    other writer is about to touch: it touches the one at the head of the
    list right after this client has fetched it, so that the copy the
    client holds is stale by the time it sends its update. *)
Definition contended : server (state * list key) :=
  mkServer (state * list key)
    (λ gvr ns name sp,
       let '(r, s1) := get gvr ns name sp.1 in
       match sp.2 with
       | k :: pending =>
           if decide (k = (gvr, ns, name)) then (r, (touch k s1, pending))
           else (r, (s1, sp.2))
       | [] => (r, (s1, sp.2))
       end)
    (λ gvr ns obj sp, let '(r, s1) := create gvr ns obj sp.1 in (r, (s1, sp.2)))
    (λ gvr ns obj sp, let '(r, s1) := update gvr ns obj sp.1 in (r, (s1, sp.2)))
    (λ gvr ns name sp, let '(r, s1) := delete gvr ns name sp.1 in (r, (s1, sp.2))).

End kube.

(** ** Vocabulary of the statements *)

Import resource migrate.

Definition isGet (e : event) : bool :=
  match e with EvGet _ _ _ _ => true | _ => false end.

Definition isCreate (e : event) : bool :=
  match e with EvCreate _ _ _ _ => true | _ => false end.

(** No call of the trace writes to the store. *)
Definition noMutation (tr : list event) : Prop :=
  Forall (λ e, mutation e = false) tr.

(** The label the composite carries for its claim's namespace. *)
Definition claimNamespaceLabel : string := "crossplane.io/claim-namespace".

(** The document [updateCompositeOnce] makes of the composite it fetched;
    [None] when the composite has no label map to write into. *)
Definition repaired (xrcu xru : Unstructured) : option Unstructured :=
  let xr := composite.SetClaimReference (DeepCopy xru) (claim.GetReference xrcu) in
  labels ← unstructured.GetLabels xr;
  Some (unstructured.SetLabels xr
          (<[claimNamespaceLabel := unstructured.GetNamespace xrcu]> labels)).

(** What one fetch-transform-update pass on the object [name] can do:
    the fetch fails; or the transform has no result and the pass panics
    before any write; or the transform of the fetched copy is sent as an
    update, whose error, if any, is the error of the pass. *)
Definition passOf (gvr : GroupVersionResource) (ns name : string)
    (transform : Unstructured → option Unstructured)
    (tr : list event) (o : outcome (option error)) : Prop :=
  (∃ e, tr = [EvGet gvr ns name (Err e)] ∧ o = Returned (Some e))
  ∨ (∃ u msg, tr = [EvGet gvr ns name (Ok u)] ∧ transform u = None ∧ o = Panicked msg)
  ∨ (∃ u d r, tr = [EvGet gvr ns name (Ok u); EvUpdate gvr ns d r]
              ∧ transform u = Some d ∧ o = Returned (errOf r)).

(** The discipline of a conflict-safe mutation of the object [name], read
    off a trace: every update is sent right after a fetch of the object
    that succeeded and carries the transform of the copy just fetched; an
    update refused for a conflict is followed by a new fetch as long as
    fewer than [retry.DefaultRetrySteps] passes were started; and no more
    than that many passes are started. *)
Definition conflictSafe (gvr : GroupVersionResource) (ns name : string)
    (transform : Unstructured → option Unstructured) (tr : list event) : Prop :=
  (∀ pre g' ns' d r post, tr = pre ++ EvUpdate g' ns' d r :: post →
     ∃ pre' u, pre = pre' ++ [EvGet gvr ns name (Ok u)] ∧ transform u = Some d
               ∧ g' = gvr ∧ ns' = ns)
  ∧ (∀ pre d e post, tr = pre ++ EvUpdate gvr ns d (Err e) :: post →
       errors.IsConflict e = true →
       (length (filter (λ e, isGet e = true) pre) < retry.DefaultRetrySteps)%nat →
       ∃ r post', post = EvGet gvr ns name r :: post')
  ∧ (length (filter (λ e, isGet e = true) tr) ≤ retry.DefaultRetrySteps)%nat.

(** The runs of a conflict-safe mutation of the object [name] that has
    [n] passes left, spelled out.  With no pass left nothing is called and
    the last conflict seen is returned.  Otherwise one full
    fetch-transform-update pass is made.  The pass ends the mutation, with
    its own outcome, when it panics, returns nil or returns an error that
    is not a conflict.  When it returns a conflict, the mutation goes on
    with one pass less, on a copy fetched anew, and nothing else is
    called in between. *)
Inductive cycles (gvr : GroupVersionResource) (ns name : string)
    (transform : Unstructured → option Unstructured)
  : nat → option error → list event → outcome (option error) → Prop :=
| cycles_spent last : cycles gvr ns name transform 0 last [] (Returned last)
| cycles_last n last tr o :
    passOf gvr ns name transform tr o →
    (∀ e, o = Returned (Some e) → errors.IsConflict e = false) →
    cycles gvr ns name transform (S n) last tr o
| cycles_again n last t1 e t2 o :
    passOf gvr ns name transform t1 (Returned (Some e)) →
    errors.IsConflict e = true →
    cycles gvr ns name transform n (Some e) t2 o →
    cycles gvr ns name transform (S n) last (t1 ++ t2) o.

(** A document shaped as the API server serves objects: [metadata] is a
    JSON object, [spec] is a JSON object when the object has one. *)
Definition objectShaped (u : Unstructured) : bool :=
  match u !! "metadata" with
  | Some (VObj _) => match u !! "spec" with
                     | None | Some VNull | Some (VObj _) => true
                     | _ => false
                     end
  | _ => false
  end.

Definition keyOf (ref : v1.ObjectReference) : kube.key :=
  (gvrOf ref, v1.Namespace ref, v1.Name ref).

(** The composite is cluster-scoped: it is fetched with no namespace. *)
Definition compositeKey (xr : v1.ObjectReference) : kube.key :=
  (gvrOf xr, "", v1.Name xr).

(** Every stored object is shaped as an object and carries, in its
    metadata, the name it is stored under. *)
Definition wellFormed (s : kube.state) : Prop :=
  ∀ k u, kube.objects s !! k = Some u →
         objectShaped u = true ∧ unstructured.GetName u = k.2.

(** The references [Run] builds once the type is resolved. *)
Definition namespaceRef (c : Cmd) : v1.ObjectReference :=
  objectReference "Namespace" "v1" (DestNamespace c) "".

(** The byte [c] occurs in [s]. *)
Fixpoint contains (c : ascii) (s : string) : bool :=
  match s with
  | EmptyString => false
  | String c' s' => bool_decide (c' = c) || contains c s'
  end.

(** The first call of [Run]: the fetch of the destination namespace. *)
Definition namespaceGet (c : Cmd) (r : result Unstructured) : event :=
  EvGet (mkGVR "" "v1" "namespaces") "" (DestNamespace c) r.

(** ** A cluster to run against

    The claim [dev-teams] of kind [Tenant] in namespace [src-ns], bound to
    the composite [dev-teams-abcde], and the command of the README. *)
Module scenario.

Definition tenantGVK : schema.GroupVersionKind := mkGVK "k8s.example.com" "v1" "Tenant".
Definition tenants : GroupVersionResource := mkGVR "k8s.example.com" "v1" "tenants".
Definition xtenants : GroupVersionResource := mkGVR "k8s.example.com" "v1" "xtenants".
Definition namespaces : GroupVersionResource := mkGVR "" "v1" "namespaces".

Definition tenantMapping (scope : RESTScopeName) : RESTMapping :=
  mkMapping tenants tenantGVK scope.

Definition mapper (scope : RESTScopeName) : RESTMapper :=
  mkMapper
    (λ gvr, if decide (Resource gvr = "tenant") then (tenantGVK, None)
            else (mkGVK "" "" "", Some (NoMatchError "no matches for resource")))
    (λ gk _, if decide (gkKind gk = "Tenant") then Ok (tenantMapping scope)
             else Err (NoMatchError "no matches for kind")).

Definition platform (scope : RESTScopeName) : Platform :=
  mkPlatform (Ok (mkConfig "https://cluster.example.com")) (λ _, None)
             (λ _, Ok (mapper scope)).

Definition cmd : Cmd := mkCmd "tenant.k8s.example.com/dev-teams" "src-ns" "dest-ns" "".

Definition object (fields : list (string * value)) : value := VObj (list_to_map fields).

Definition nsDoc : Unstructured :=
  list_to_map [("apiVersion", VStr "v1"); ("kind", VStr "Namespace");
               ("metadata", object [("name", VStr "dest-ns")])].

Definition claimMetadata (namespace : string) : gmap string value :=
  list_to_map [("name", VStr "dev-teams"); ("namespace", VStr namespace);
               ("resourceVersion", VStr "7"); ("uid", VStr "c1a1");
               ("finalizers", VArr [VStr "finalizer.apiextensions.crossplane.io"])].

Definition claimDoc (namespace : string) : Unstructured :=
  list_to_map
    [("apiVersion", VStr "k8s.example.com/v1"); ("kind", VStr "Tenant");
     ("metadata", VObj (claimMetadata namespace));
     ("spec", object [("size", VNum 3);
                      ("resourceRef", object [("apiVersion", VStr "k8s.example.com/v1");
                                              ("kind", VStr "XTenant");
                                              ("name", VStr "dev-teams-abcde")])])].

Definition xrLabels : gmap string string :=
  list_to_map [("crossplane.io/claim-name", "dev-teams");
               ("crossplane.io/claim-namespace", "src-ns");
               ("crossplane.io/composite", "dev-teams-abcde")].

Definition xrDoc (metadata : list (string * value)) : Unstructured :=
  list_to_map
    [("apiVersion", VStr "k8s.example.com/v1"); ("kind", VStr "XTenant");
     ("metadata", object ([("name", VStr "dev-teams-abcde"); ("resourceVersion", VStr "8")]
                          ++ metadata));
     ("spec", object [("claimRef", object [("apiVersion", VStr "k8s.example.com/v1");
                                           ("kind", VStr "Tenant");
                                           ("name", VStr "dev-teams");
                                           ("namespace", VStr "src-ns")])])].

Definition labelled : list (string * value) := [("labels", VObj (VStr <$> xrLabels))].

Definition cluster (objs : list (kube.key * Unstructured)) : kube.state :=
  kube.mkState (list_to_map objs) 8.

Definition nsEntry : kube.key * Unstructured := ((namespaces, "", "dest-ns"), nsDoc).
Definition srcEntry : kube.key * Unstructured := ((tenants, "src-ns", "dev-teams"), claimDoc "src-ns").
Definition dstEntry : kube.key * Unstructured := ((tenants, "dest-ns", "dev-teams"), claimDoc "dest-ns").
Definition xrEntry : kube.key * Unstructured := ((xtenants, "", "dev-teams-abcde"), xrDoc labelled).

(** Ready to migrate; without the destination namespace; without the
    source claim; with the destination claim already there. *)
Definition ready : kube.state := cluster [nsEntry; srcEntry; xrEntry].
Definition noNamespace : kube.state := cluster [srcEntry; xrEntry].
Definition noSource : kube.state := cluster [nsEntry; xrEntry].
Definition taken : kube.state := cluster [nsEntry; srcEntry; dstEntry; xrEntry].

(** The same composite served without any label, and the reference the
    claim holds to it. *)
Definition unlabelled : kube.state :=
  cluster [nsEntry; srcEntry; ((xtenants, "", "dev-teams-abcde"), xrDoc [])].
Definition xrRef : v1.ObjectReference :=
  v1.mkRef "XTenant" "" "dev-teams-abcde" "" "k8s.example.com/v1" "" "".

End scenario.

(** How many times the byte [c] occurs in [s]: [strings.Count]. *)
Fixpoint occurrences (c : ascii) (s : string) : nat :=
  match s with
  | EmptyString => 0
  | String c' s' => (if decide (c' = c) then 1 else 0) + occurrences c s'
  end.

(** A write that the server accepted. *)
Definition accepted (e : event) : bool := mutation e && succeeded e.

(** The fields of [spec], none when the object has no [spec] object. *)
Definition specOf (u : Unstructured) : gmap string value :=
  match u !! "spec" with Some (VObj sp) => sp | _ => ∅ end.

(** The error a call was answered with, if any. *)
Definition failure (e : event) : option error :=
  match e with
  | EvGet _ _ _ r | EvCreate _ _ _ r | EvUpdate _ _ _ r => errOf r
  | EvDelete _ _ _ r => r
  end.

(** The resource and the namespace a call is addressed to. *)
Definition target (e : event) : GroupVersionResource * string :=
  match e with
  | EvGet g n _ _ | EvCreate g n _ _ | EvUpdate g n _ _ | EvDelete g n _ _ => (g, n)
  end.

(** [served s tr s']: started in [s], the sequential server gives the
    calls of [tr] the answers recorded in [tr], and is left in [s']. *)
Inductive served : kube.state → list event → kube.state → Prop :=
| served_nil s : served s [] s
| served_Get g n nm r s s1 tr s' :
    kube.get g n nm s = (r, s1) → served s1 tr s' → served s (EvGet g n nm r :: tr) s'
| served_Create g n obj r s s1 tr s' :
    kube.create g n obj s = (r, s1) → served s1 tr s' →
    served s (EvCreate g n obj r :: tr) s'
| served_Update g n obj r s s1 tr s' :
    kube.update g n obj s = (r, s1) → served s1 tr s' →
    served s (EvUpdate g n obj r :: tr) s'
| served_Delete g n nm r s s1 tr s' :
    kube.delete g n nm s = (r, s1) → served s1 tr s' →
    served s (EvDelete g n nm r :: tr) s'.

(** The call deletes the object stored under [k]. *)
Definition deletes (k : kube.key) (e : event) : Prop :=
  match e with
  | EvDelete g n nm _ => (g, n, nm) = k
  | _ => False
  end.

(** What [ResourceExists] makes of an outcome of [GetResource]. *)
Definition existence (o : outcome (option Unstructured * bool * option error))
  : outcome (bool * option error) :=
  match o with
  | Returned (_, re, err) => Returned (re, err)
  | Panicked msg => Panicked msg
  end.

(** ** Programs, runs and executions *)

Section ProgramLaws.
Context {A B : Type}.

Lemma runs_bind (p : prog A) (f : A → prog B) t1 a t2 o :
  runs p t1 (Returned a) → runs (f a) t2 o → runs (bind p f) (t1 ++ t2) o.
Proof.
  intros Hp. remember (Returned a) as oa eqn:Ho.
  induction Hp; intros Hf; simpl; try discriminate.
  - by inversion Ho; subst.
  - constructor; auto.
  - constructor; auto.
  - constructor; auto.
  - constructor; auto.
Qed.

Lemma runs_bind_panic (p : prog A) (f : A → prog B) tr msg :
  runs p tr (Panicked msg) → runs (bind p f) tr (Panicked msg).
Proof.
  intros Hp. remember (Panicked msg) as oa eqn:Ho.
  induction Hp; simpl; try discriminate; try (constructor; auto).
  inversion Ho; subst. constructor.
Qed.

Lemma runs_bind_inv (p : prog A) (f : A → prog B) tr o :
  runs (bind p f) tr o →
  (∃ t1 a t2, runs p t1 (Returned a) ∧ runs (f a) t2 o ∧ tr = t1 ++ t2)
  ∨ (∃ msg, runs p tr (Panicked msg) ∧ o = Panicked msg).
Proof.
  revert tr. induction p as [a|msg|gvr ns name k IH|gvr ns obj k IH|gvr ns obj k IH|gvr ns name k IH];
    simpl; intros tr H.
  - left. exists [], a, tr. split; [constructor | done].
  - inversion H; subst. right. exists msg. split; [constructor | done].
  - inversion H; subst.
    destruct (IH _ _ H6) as [(t1 & a & t2 & H1 & H2 & ->)|(msg & H1 & ->)].
    + left. exists (EvGet gvr ns name r :: t1), a, t2. split; [by constructor | done].
    + right. exists msg. split; [by constructor | done].
  - inversion H; subst.
    destruct (IH _ _ H6) as [(t1 & a & t2 & H1 & H2 & ->)|(msg & H1 & ->)].
    + left. exists (EvCreate gvr ns obj r :: t1), a, t2. split; [by constructor | done].
    + right. exists msg. split; [by constructor | done].
  - inversion H; subst.
    destruct (IH _ _ H6) as [(t1 & a & t2 & H1 & H2 & ->)|(msg & H1 & ->)].
    + left. exists (EvUpdate gvr ns obj r :: t1), a, t2. split; [by constructor | done].
    + right. exists msg. split; [by constructor | done].
  - inversion H; subst.
    destruct (IH _ _ H6) as [(t1 & a & t2 & H1 & H2 & ->)|(msg & H1 & ->)].
    + left. exists (EvDelete gvr ns name r :: t1), a, t2. split; [by constructor | done].
    + right. exists msg. split; [by constructor | done].
Qed.

Lemma exec_bind {S} (sv : server S) (p : prog A) (f : A → prog B) s :
  exec sv (bind p f) s =
  match exec sv p s with
  | (Returned a, s1, t1) => let '(o, s2, t2) := exec sv (f a) s1 in (o, s2, t1 ++ t2)
  | (Panicked msg, s1, t1) => (Panicked msg, s1, t1)
  end.
Proof.
  revert s. induction p as [a|msg|gvr ns name k IH|gvr ns obj k IH|gvr ns obj k IH|gvr ns name k IH];
    intros s; simpl.
  - by destruct (exec sv (f a) s) as [[o s2] t2].
  - done.
  - destruct (onGet sv gvr ns name s) as [r s1]. rewrite IH.
    destruct (exec sv (k r) s1) as [[[a|msg] s2] t1]; [|done].
    by destruct (exec sv (f a) s2) as [[o s3] t2].
  - destruct (onCreate sv gvr ns obj s) as [r s1]. rewrite IH.
    destruct (exec sv (k r) s1) as [[[a|msg] s2] t1]; [|done].
    by destruct (exec sv (f a) s2) as [[o s3] t2].
  - destruct (onUpdate sv gvr ns obj s) as [r s1]. rewrite IH.
    destruct (exec sv (k r) s1) as [[[a|msg] s2] t1]; [|done].
    by destruct (exec sv (f a) s2) as [[o s3] t2].
  - destruct (onDelete sv gvr ns name s) as [r s1]. rewrite IH.
    destruct (exec sv (k r) s1) as [[[a|msg] s2] t1]; [|done].
    by destruct (exec sv (f a) s2) as [[o s3] t2].
Qed.

End ProgramLaws.

(** An execution against a server is one of the runs. *)
Lemma exec_runs {A S} (sv : server S) (p : prog A) s o s' tr :
  exec sv p s = (o, s', tr) → runs p tr o.
Proof.
  revert s o s' tr.
  induction p as [a|msg|gvr ns name k IH|gvr ns obj k IH|gvr ns obj k IH|gvr ns name k IH];
    simpl; intros s o s' tr H.
  - inversion H; subst. constructor.
  - inversion H; subst. constructor.
  - destruct (onGet sv gvr ns name s) as [r s1].
    destruct (exec sv (k r) s1) as [[o1 s2] t1] eqn:E.
    inversion H; subst. constructor. eauto.
  - destruct (onCreate sv gvr ns obj s) as [r s1].
    destruct (exec sv (k r) s1) as [[o1 s2] t1] eqn:E.
    inversion H; subst. constructor. eauto.
  - destruct (onUpdate sv gvr ns obj s) as [r s1].
    destruct (exec sv (k r) s1) as [[o1 s2] t1] eqn:E.
    inversion H; subst. constructor. eauto.
  - destruct (onDelete sv gvr ns name s) as [r s1].
    destruct (exec sv (k r) s1) as [[o1 s2] t1] eqn:E.
    inversion H; subst. constructor. eauto.
Qed.

(** The three parts of an execution. *)
Lemma exec_split {A S} (sv : server S) (p : prog A) s :
  exec sv p s = ((exec sv p s).1.1, (exec sv p s).1.2, (exec sv p s).2).
Proof. by destruct (exec sv p s) as [[? ?] ?]. Qed.

(** ** Token parsing *)

Lemma Split_without sep s :
  contains sep s = false → strings.Split s sep = [s].
Proof.
  induction s as [|c s IH]; simpl; [done|].
  intros H. apply orb_false_iff in H as [Hc Hs].
  apply bool_decide_eq_false in Hc.
  destruct (decide (c = sep)); [done|]. by rewrite IH.
Qed.

Lemma Split_at sep a b :
  contains sep a = false →
  strings.Split (a +:+ String sep b) sep = a :: strings.Split b sep.
Proof.
  induction a as [|c a IH]; simpl; intros H.
  - destruct (decide (sep = sep)); done.
  - apply orb_false_iff in H as [Hc Hs].
    apply bool_decide_eq_false in Hc.
    destruct (decide (c = sep)); [done|]. by rewrite (IH Hs).
Qed.

Lemma append_nonempty a c b : a +:+ String c b ≠ "".
Proof. by destruct a. Qed.

(** C9.  Token parsing is a function of the token and the separately
    supplied name.  A token [t/n] with no separate name yields type [t] and
    name [n]; a token [t] with a separate name [m] yields type [t] and name
    [m]; a token [t/n] with a separate name fails as doubled; a token [t]
    with no separate name fails as missing. *)
Theorem C9_token_parsing (t n m ns dst : string) :
  contains "/" t = false → contains "/" n = false → t ≠ "" → m ≠ "" →
  getResourceAndName (mkCmd (t +:+ "/" +:+ n) ns dst "") = (t, n, None)
  ∧ getResourceAndName (mkCmd t ns dst m) = (t, m, None)
  ∧ getResourceAndName (mkCmd (t +:+ "/" +:+ n) ns dst m)
    = ("", "", Some (errors.New errNameDoubled))
  ∧ getResourceAndName (mkCmd t ns dst "")
    = ("", "", Some (errors.New errMissingName)).
Proof.
  intros Ht Hn Htne Hm.
  change (t +:+ "/" +:+ n) with (t +:+ String "/" n).
  unfold getResourceAndName; simpl.
  rewrite (Split_at _ _ _ Ht), (Split_without _ _ Hn), (Split_without _ _ Ht).
  destruct (decide (t +:+ String "/" n = "")) as [E|_];
    [by apply append_nonempty in E|].
  destruct (decide (t = "")); [done|].
  destruct (decide (m = "")); [done|].
  destruct (decide (m ≠ "")); [|done].
  repeat split; try done.
Qed.

(** The four tokens of the specification. *)
Lemma C9_token_parsing_witness :
  getResourceAndName (mkCmd "kind.version.group/name" "default" "dest" "")
    = ("kind.version.group", "name", None)
  ∧ getResourceAndName (mkCmd "kind" "default" "dest" "foo") = ("kind", "foo", None)
  ∧ getResourceAndName (mkCmd "kind/name" "default" "dest" "foo")
    = ("", "", Some (errors.New errNameDoubled))
  ∧ getResourceAndName (mkCmd "kind" "default" "dest" "")
    = ("", "", Some (errors.New errMissingName)).
Proof.
  destruct (C9_token_parsing "kind.version.group" "name" "foo" "default" "dest")
    as (H1 & _ & _ & _); [reflexivity | reflexivity | discriminate | discriminate |].
  destruct (C9_token_parsing "kind" "name" "foo" "default" "dest")
    as (_ & H2 & H3 & H4); [reflexivity | reflexivity | discriminate | discriminate |].
  exact (conj H1 (conj H2 (conj H3 H4))).
Defined.

(** ** The orchestrator, call by call *)

#[local] Arguments UpdateCompositeWithNewClaim : simpl never.
#[local] Arguments DeleteSourceClaim : simpl never.
#[local] Arguments getResourceAndName : simpl never.
#[local] Arguments MappingFor : simpl never.
#[local] Arguments destinationOf : simpl never.
#[local] Arguments errors.Wrap : simpl never.

(** One step of reading a run off the program text. *)
Ltac run_step :=
  match goal with
  | H : runs (Ret _) _ _ |- _ => inv H
  | H : runs (Panic _) _ _ |- _ => inv H
  | H : runs nilDeref _ _ |- _ => inv H
  | H : runs (CallGet _ _ _ _) _ _ |- _ => inv H
  | H : runs (CallCreate _ _ _ _) _ _ |- _ => inv H
  | H : runs (CallUpdate _ _ _ _) _ _ |- _ => inv H
  | H : runs (CallDelete _ _ _ _) _ _ |- _ => inv H
  | H : runs (match ?x with _ => _ end) _ _ |- _ => destruct x eqn:?
  | H : runs (bind (match ?x with _ => _ end) _) _ _ |- _ => destruct x eqn:?
  | H : runs (bind _ _) _ _ |- _ => progress (simpl in H)
  end.

(** Every run starts by fetching the destination namespace, and stops
    there unless the fetch finds it. *)
Lemma Run_first pf c tr o :
  runs (Run pf c) tr o →
  tr = [] ∨ ∃ r rest, tr = namespaceGet c r :: rest ∧ (∀ e, r = Err e → rest = []).
Proof.
  unfold Run. intros H.
  repeat run_step; auto; right; eexists _, _; (split; [reflexivity|]);
    intros; try discriminate; auto.
Qed.

(** C5.  When the fetch of the destination namespace reports not-found,
    the run ends there with the error that names the namespace: the trace
    is that one call.  In every run, a call that writes comes after a
    fetch of the destination namespace that found it, which is the first
    call. *)
Theorem C5_namespace_checked_first pf c tr o :
  runs (Run pf c) tr o →
  (∀ e rest, tr = namespaceGet c (Err e) :: rest → errors.IsNotFound e = true →
     o = Returned (Some (errNoNamespace (DestNamespace c))) ∧ rest = [])
  ∧ (∀ pre e post, tr = pre ++ e :: post → mutation e = true →
       ∃ nsdoc pre', pre = namespaceGet c (Ok nsdoc) :: pre').
Proof.
  intros H. split.
  - intros e rest -> He. unfold Run in H.
    repeat run_step; try discriminate; simplify_eq; auto.
  - intros pre e post -> He.
    destruct (Run_first _ _ _ _ H) as [E|(r & rest & E & Hr)].
    + by destruct pre.
    + destruct pre as [|e0 pre']; simpl in E; simplify_eq; try done.
      destruct r as [nsdoc|err]; [by eauto|].
      specialize (Hr err eq_refl). by destruct pre'.
Qed.

Lemma C5_namespace_checked_first_witness :
  (exec kube.api (Run (scenario.platform RESTScopeNameNamespace) scenario.cmd)
        scenario.noNamespace).1.1
  = Returned (Some (errNoNamespace "dest-ns")).
Proof.
  pose proof (exec_runs kube.api _ _ _ _ _
                (exec_split kube.api
                   (Run (scenario.platform RESTScopeNameNamespace) scenario.cmd)
                   scenario.noNamespace)) as Hr.
  destruct (C5_namespace_checked_first _ _ _ _ Hr) as [H _].
  destruct (H (StatusError StatusReasonNotFound "dest-ns") []
              ltac:(vm_compute; reflexivity) eq_refl) as [Ho _].
  exact Ho.
Defined.

(** Reading does not change the sequential store. *)
Lemma kube_reads_only {A} (p : prog A) s o s' tr :
  exec kube.api p s = (o, s', tr) → noMutation tr → s' = s.
Proof.
  revert s o s' tr.
  induction p as [a|msg|gvr ns name k IH|gvr ns obj k IH|gvr ns obj k IH|gvr ns name k IH];
    simpl; intros s o s' tr H Hn.
  - by inv H.
  - by inv H.
  - assert (Hs : (kube.get gvr ns name s).2 = s).
    { unfold kube.get. destruct (decide (name = "")); [done|].
      by destruct (kube.objects s !! (gvr, ns, name)). }
    destruct (kube.get gvr ns name s) as [r s1]. simpl in Hs. subst s1.
    destruct (exec kube.api (k r) s) as [[o1 s2] t1] eqn:E.
    inv H. inv Hn. eauto.
  - destruct (kube.create gvr ns obj s) as [r s1].
    destruct (exec kube.api (k r) s1) as [[o1 s2] t1]. inv H. by inv Hn.
  - destruct (kube.update gvr ns obj s) as [r s1].
    destruct (exec kube.api (k r) s1) as [[o1 s2] t1]. inv H. by inv Hn.
  - destruct (kube.delete gvr ns name s) as [r s1].
    destruct (exec kube.api (k r) s1) as [[o1 s2] t1]. inv H. by inv Hn.
Qed.

(** C4.  When the third call, the fetch of the claim in the destination
    namespace, finds a document, the run ends there with the
    already-exists error: the trace is three fetches, no call writes, and
    the sequential store is left as it was. *)
Theorem C4_destination_exists pf c tr o e0 e1 g n nm d rest :
  runs (Run pf c) tr o →
  tr = e0 :: e1 :: EvGet g n nm (Ok d) :: rest →
  o = Returned (Some (errDestExists nm (DestNamespace c)))
  ∧ n = DestNamespace c ∧ rest = [] ∧ noMutation tr
  ∧ (∀ s s', exec kube.api (Run pf c) s = (o, s', tr) → s' = s).
Proof.
  intros H ->.
  assert (o = Returned (Some (errDestExists nm (DestNamespace c)))
          ∧ n = DestNamespace c ∧ rest = [] ∧ isGet e0 = true ∧ isGet e1 = true)
    as (Ho & Hn & Hrest & H0 & H1).
  { unfold Run in H. repeat run_step; try discriminate; simplify_eq; auto. }
  subst rest.
  assert (Hm : noMutation [e0; e1; EvGet g n nm (Ok d)]).
  { destruct e0, e1; try discriminate. by repeat constructor. }
  repeat split; auto.
  intros s s' Hx. by eapply kube_reads_only.
Qed.

Lemma C4_destination_exists_witness :
  (exec kube.api (Run (scenario.platform RESTScopeNameNamespace) scenario.cmd)
        scenario.taken).1.1
  = Returned (Some (errDestExists "dev-teams" "dest-ns"))
  ∧ (exec kube.api (Run (scenario.platform RESTScopeNameNamespace) scenario.cmd)
          scenario.taken).1.2
    = scenario.taken.
Proof.
  pose proof (exec_split kube.api
                (Run (scenario.platform RESTScopeNameNamespace) scenario.cmd)
                scenario.taken) as Hx.
  destruct (C4_destination_exists _ _ _ _
              (namespaceGet scenario.cmd (Ok scenario.nsDoc))
              (EvGet scenario.tenants "src-ns" "dev-teams" (Ok (scenario.claimDoc "src-ns")))
              scenario.tenants "dest-ns" "dev-teams" (scenario.claimDoc "dest-ns") []
              (exec_runs _ _ _ _ _ _ Hx) ltac:(vm_compute; reflexivity))
    as (Ho & _ & _ & _ & Hs).
  split; [exact Ho | exact (Hs _ _ Hx)].
Defined.

(** C2 (what the code does).  When the second call, the fetch of the
    source claim, reports not-found, the run ends there without any
    write, and it returns nil: the error handed to [errors.Wrap] is nil at
    that point. *)
Theorem C2_source_not_found_returns_nil pf c tr o e0 g n nm e rest :
  runs (Run pf c) tr o →
  tr = e0 :: EvGet g n nm (Err e) :: rest →
  errors.IsNotFound e = true →
  o = Returned None ∧ n = Namespace c ∧ rest = [] ∧ noMutation tr.
Proof.
  intros H -> He.
  assert (o = Returned None ∧ n = Namespace c ∧ rest = [] ∧ isGet e0 = true)
    as (Ho & Hn & Hrest & H0).
  { unfold Run in H. repeat run_step; try discriminate; simplify_eq; auto. }
  subst rest. repeat split; auto.
  destruct e0; try discriminate. by repeat constructor.
Qed.

Lemma C2_source_not_found_returns_nil_witness :
  (exec kube.api (Run (scenario.platform RESTScopeNameNamespace) scenario.cmd)
        scenario.noSource).1.1
  = Returned None.
Proof.
  pose proof (exec_split kube.api
                (Run (scenario.platform RESTScopeNameNamespace) scenario.cmd)
                scenario.noSource) as Hx.
  destruct (C2_source_not_found_returns_nil _ _ _ _
              (namespaceGet scenario.cmd (Ok scenario.nsDoc))
              scenario.tenants "src-ns" "dev-teams"
              (StatusError StatusReasonNotFound "dev-teams") []
              (exec_runs _ _ _ _ _ _ Hx) ltac:(vm_compute; reflexivity) eq_refl)
    as (Ho & _).
  exact Ho.
Defined.

(** C3 (what the code does).  When the type resolves to a mapping whose
    scope is not the namespace scope and the destination namespace
    exists, the run ends after that one fetch without any write, and it
    returns nil: the error handed to [errors.Wrap] is the nil error of the
    successful [MappingFor]. *)
Theorem C3_cluster_scoped_returns_nil pf c cfg rm res name mapping tr o nsdoc rest :
  GetConfig pf = Ok cfg →
  NewForConfig pf cfg = None →
  NewDiscoveryClientForConfig pf cfg = Ok rm →
  getResourceAndName c = (res, name, None) →
  MappingFor rm res = Ok mapping →
  mappingScope mapping ≠ RESTScopeNameNamespace →
  runs (Run pf c) tr o →
  tr = namespaceGet c (Ok nsdoc) :: rest →
  o = Returned None ∧ rest = [] ∧ noMutation tr.
Proof.
  intros Hcfg Hdyn Hdisc Hname Hmap Hscope H ->.
  unfold Run, NewDynamicClient, NewRestMapper in H.
  rewrite Hcfg, Hdyn in H. simpl in H. inv H.
  match goal with
  | H : runs _ _ _ |- _ =>
      simpl in H; rewrite Hdisc, Hname, Hmap in H; simpl in H;
      rewrite bool_decide_eq_false_2 in H by done; simpl in H; inv H
  end.
  repeat split; auto. by repeat constructor.
Qed.

Lemma C3_cluster_scoped_returns_nil_witness :
  (exec kube.api (Run (scenario.platform RESTScopeNameRoot) scenario.cmd)
        scenario.ready).1.1
  = Returned None.
Proof.
  pose proof (exec_split kube.api
                (Run (scenario.platform RESTScopeNameRoot) scenario.cmd)
                scenario.ready) as Hx.
  destruct (C3_cluster_scoped_returns_nil
              (scenario.platform RESTScopeNameRoot) scenario.cmd
              (mkConfig "https://cluster.example.com")
              (scenario.mapper RESTScopeNameRoot)
              "tenant.k8s.example.com" "dev-teams"
              (scenario.tenantMapping RESTScopeNameRoot) _ _ scenario.nsDoc []
              eq_refl eq_refl eq_refl ltac:(vm_compute; reflexivity)
              ltac:(vm_compute; reflexivity) ltac:(discriminate)
              (exec_runs _ _ _ _ _ _ Hx) ltac:(vm_compute; reflexivity))
    as (Ho & _).
  exact Ho.
Defined.

(** ** Documents *)

Lemma setNestedField_metadata u m f v :
  u !! "metadata" = Some (VObj m) →
  unstructured.setNestedField u v ["metadata"; f] = <["metadata" := VObj (<[f := v]> m)]> u.
Proof. intros H. unfold unstructured.setNestedField. simpl. by rewrite H. Qed.

Lemma SetValue_metadata u m f v :
  u !! "metadata" = Some (VObj m) →
  fieldpath.SetValue_ u ["metadata"; f] v = <["metadata" := VObj (<[f := v]> m)]> u.
Proof. intros H. unfold fieldpath.SetValue_. simpl. by rewrite H. Qed.

Lemma getNestedString_metadata u m f :
  u !! "metadata" = Some (VObj m) →
  unstructured.getNestedString u ["metadata"; f]
  = match m !! f with Some (VStr s) => s | _ => "" end.
Proof. intros H. unfold unstructured.getNestedString. simpl. by rewrite H. Qed.

(** Writing under [spec] leaves every other top-level field alone. *)
Lemma SetValue_spec_other u f v k :
  k ≠ "spec" → fieldpath.SetValue_ u ["spec"; f] v !! k = u !! k.
Proof.
  intros Hk. unfold fieldpath.SetValue_. simpl.
  destruct (u !! "spec") as [[]|]; simpl; try done; by rewrite lookup_insert_ne.
Qed.

Lemma SetValue_spec_shaped u f v :
  match u !! "spec" with None | Some VNull | Some (VObj _) => True | _ => False end →
  ∃ sp, fieldpath.SetValue_ u ["spec"; f] v !! "spec" = Some (VObj sp) ∧ sp !! f = Some v.
Proof.
  unfold fieldpath.SetValue_. simpl.
  destruct (u !! "spec") as [[]|]; simpl; try done; intros _; eexists;
    rewrite lookup_insert_eq; split; try done; by rewrite lookup_insert_eq.
Qed.

Lemma stringMap_strings (labels : gmap string string) :
  unstructured.stringMap (VStr <$> labels) = Some labels.
Proof.
  unfold unstructured.stringMap. rewrite bool_decide_eq_true_2.
  - f_equal. apply map_eq. intros k. rewrite lookup_omap, lookup_fmap.
    by destruct (labels !! k).
  - intros k v. rewrite lookup_fmap.
    destruct (labels !! k); simpl; intros; simplify_eq. by eexists.
Qed.

Lemma GetLabels_metadata u u' :
  u !! "metadata" = u' !! "metadata" → unstructured.GetLabels u = unstructured.GetLabels u'.
Proof.
  intros H. unfold unstructured.GetLabels, unstructured.NestedStringMap. simpl. by rewrite H.
Qed.

Lemma GetLabels_Some u labels :
  unstructured.GetLabels u = Some labels → ∃ m, u !! "metadata" = Some (VObj m).
Proof.
  unfold unstructured.GetLabels, unstructured.NestedStringMap. simpl.
  destruct (u !! "metadata") as [[]|]; try done. eauto.
Qed.

Lemma GetLabels_SetLabels u m labels :
  u !! "metadata" = Some (VObj m) →
  unstructured.GetLabels (unstructured.SetLabels u labels) = Some labels.
Proof.
  intros H. unfold unstructured.SetLabels. rewrite (setNestedField_metadata _ _ _ _ H).
  unfold unstructured.GetLabels, unstructured.NestedStringMap. simpl.
  rewrite lookup_insert_eq. rewrite lookup_insert_eq. apply stringMap_strings.
Qed.

(** The document sent to [Create], spelled out. *)
Lemma destinationOf_metadata src m dest :
  src !! "metadata" = Some (VObj m) →
  destinationOf src dest
  = <["metadata" := VObj (<["resourceVersion" := VStr ""]>
                           (if decide (dest = "") then delete "namespace" m
                            else <["namespace" := VStr dest]> m))]> src.
Proof.
  intros H. unfold destinationOf, DeepCopy, unstructured.SetNamespace.
  destruct (decide (dest = "")).
  - simpl. rewrite H.
    erewrite SetValue_metadata by apply lookup_insert_eq. by rewrite insert_insert_eq.
  - rewrite (setNestedField_metadata _ _ _ _ H).
    erewrite SetValue_metadata by apply lookup_insert_eq. by rewrite insert_insert_eq.
Qed.

(** C8 (amended).  The document of the [Create] call, the fourth call
    of a run, is made from the answer of the source fetch, the second
    call: a copy of it whose [metadata.namespace] reads as the destination
    namespace and whose [metadata.resourceVersion], the version the store
    had assigned, is the empty string; every other top-level field and
    every other field of the metadata is the source's.  The identity the
    store had assigned, [metadata.uid], is among the fields carried over:
    it is not cleared. *)
Theorem C8_destination_document pf c tr o e0 e1 e2 g n obj r rest :
  runs (Run pf c) tr o →
  tr = e0 :: e1 :: e2 :: EvCreate g n obj r :: rest →
  ∃ g1 nm src,
    e1 = EvGet g1 (Namespace c) nm (Ok src)
    ∧ obj = destinationOf (DeepCopy src) (DestNamespace c)
    ∧ n = DestNamespace c
    ∧ ∀ m, src !! "metadata" = Some (VObj m) →
        unstructured.GetNamespace obj = DestNamespace c
        ∧ fieldpath.GetValue obj ["metadata"; "resourceVersion"] = Some (VStr "")
        ∧ (∀ k, k ≠ "metadata" → obj !! k = src !! k)
        ∧ ∃ m', obj !! "metadata" = Some (VObj m')
                ∧ (∀ f, f ≠ "namespace" → f ≠ "resourceVersion" → m' !! f = m !! f)
                ∧ m' !! "uid" = m !! "uid".
Proof.
  intros H ->.
  assert (∃ g1 nm src, e1 = EvGet g1 (Namespace c) nm (Ok src)
                       ∧ obj = destinationOf src (DestNamespace c)
                       ∧ n = DestNamespace c) as (g1 & nm & src & -> & -> & ->).
  { unfold Run in H. repeat run_step; try discriminate; simplify_eq; eauto 10. }
  exists g1, nm, src. repeat split; try done.
  - unfold unstructured.GetNamespace.
    rewrite (destinationOf_metadata _ _ _ H0).
    erewrite getNestedString_metadata by apply lookup_insert_eq.
    rewrite lookup_insert_ne by done.
    destruct (decide (DestNamespace c = "")) as [->|].
    + by rewrite lookup_delete_eq.
    + by rewrite lookup_insert_eq.
  - rewrite (destinationOf_metadata _ _ _ H0). simpl.
    rewrite lookup_insert_eq. by rewrite lookup_insert_eq.
  - intros k Hk. rewrite (destinationOf_metadata _ _ _ H0). by rewrite lookup_insert_ne.
  - rewrite (destinationOf_metadata _ _ _ H0). eexists. rewrite lookup_insert_eq.
    split; [done|].
    assert (Hf : ∀ f, f ≠ "namespace" → f ≠ "resourceVersion" →
                      <["resourceVersion" := VStr ""]>
                        (if decide (DestNamespace c = "") then delete "namespace" m
                         else <["namespace" := VStr (DestNamespace c)]> m) !! f = m !! f).
    { intros f Hf1 Hf2. rewrite lookup_insert_ne by done.
      destruct (decide (DestNamespace c = "")).
      - by rewrite lookup_delete_ne.
      - by rewrite lookup_insert_ne. }
    split; [exact Hf|]. by apply Hf.
Qed.

Lemma C8_destination_document_witness :
  unstructured.GetNamespace (destinationOf (scenario.claimDoc "src-ns") "dest-ns") = "dest-ns"
  ∧ fieldpath.GetValue (destinationOf (scenario.claimDoc "src-ns") "dest-ns")
      ["metadata"; "resourceVersion"] = Some (VStr "")
  ∧ destinationOf (scenario.claimDoc "src-ns") "dest-ns" !! "spec"
    = scenario.claimDoc "src-ns" !! "spec".
Proof.
  pose proof (exec_split kube.api
                (Run (scenario.platform RESTScopeNameNamespace) scenario.cmd)
                scenario.ready) as Hx.
  destruct (C8_destination_document _ _ _ _
              (namespaceGet scenario.cmd (Ok scenario.nsDoc))
              (EvGet scenario.tenants "src-ns" "dev-teams" (Ok (scenario.claimDoc "src-ns")))
              (EvGet scenario.tenants "dest-ns" "dev-teams"
                     (Err (StatusError StatusReasonNotFound "dev-teams")))
              scenario.tenants "dest-ns"
              (destinationOf (scenario.claimDoc "src-ns") "dest-ns")
              (Ok (kube.withResourceVersion
                     (destinationOf (scenario.claimDoc "src-ns") "dest-ns") 9))
              (drop 4 (exec kube.api
                         (Run (scenario.platform RESTScopeNameNamespace) scenario.cmd)
                         scenario.ready).2)
              (exec_runs _ _ _ _ _ _ Hx) ltac:(vm_compute; reflexivity))
    as (g1 & nm & src & He1 & _ & _ & Hdoc).
  injection He1 as _ _ <-.
  destruct (Hdoc (scenario.claimMetadata "src-ns") ltac:(vm_compute; reflexivity))
    as (Hns & Hrv & Hother & _).
  exact (conj Hns (conj Hrv (Hother "spec" ltac:(discriminate)))).
Defined.

(** C8, against the claim as written.  In the run of the README's
    command on the cluster of the scenario, the source claim is served
    with the identity [c1a1] in [metadata.uid], and the document sent to
    [Create] carries the same [metadata.uid]: the identity metadata is
    not cleared. *)
Lemma C8_identity_not_cleared :
  ∃ tr o e0 src e2 obj r rest,
    runs (Run (scenario.platform RESTScopeNameNamespace) scenario.cmd) tr o
    ∧ tr = e0 :: EvGet scenario.tenants "src-ns" "dev-teams" (Ok src) :: e2
              :: EvCreate scenario.tenants "dest-ns" obj r :: rest
    ∧ fieldpath.GetValue src ["metadata"; "uid"] = Some (VStr "c1a1")
    ∧ fieldpath.GetValue obj ["metadata"; "uid"] = Some (VStr "c1a1")
    ∧ fieldpath.GetValue obj ["metadata"; "resourceVersion"] = Some (VStr "").
Proof.
  exists (exec kube.api (Run (scenario.platform RESTScopeNameNamespace) scenario.cmd)
            scenario.ready).2,
         (exec kube.api (Run (scenario.platform RESTScopeNameNamespace) scenario.cmd)
            scenario.ready).1.1,
         (namespaceGet scenario.cmd (Ok scenario.nsDoc)),
         (scenario.claimDoc "src-ns"),
         (EvGet scenario.tenants "dest-ns" "dev-teams"
            (Err (StatusError StatusReasonNotFound "dev-teams"))),
         (destinationOf (scenario.claimDoc "src-ns") "dest-ns"),
         (Ok (kube.withResourceVersion
                (destinationOf (scenario.claimDoc "src-ns") "dest-ns") 9)),
         (drop 4 (exec kube.api (Run (scenario.platform RESTScopeNameNamespace) scenario.cmd)
                    scenario.ready).2).
  split; [|split; [|split; [|split]]].
  - exact (exec_runs _ _ _ _ _ _
             (exec_split kube.api
                (Run (scenario.platform RESTScopeNameNamespace) scenario.cmd)
                scenario.ready)).
  - vm_compute. reflexivity.
  - vm_compute. reflexivity.
  - vm_compute. reflexivity.
  - vm_compute. reflexivity.
Qed.

(** The closure retried by [UpdateCompositeWithNewClaim] is a
    fetch-transform-update pass on the composite with transform
    [repaired]; the first closure of [DeleteSourceClaim] is one on the
    claim with transform [severed]. *)
Lemma updateCompositeOnce_pass xrRef xrcu tr o :
  runs (updateCompositeOnce xrRef xrcu) tr o →
  passOf (gvrOf xrRef) "" (v1.Name xrRef) (repaired xrcu) tr o.
Proof.
  unfold updateCompositeOnce, passOf, repaired, DeepCopy. intros H.
  repeat run_step.
  - right; right. eexists _, _, _. rewrite Heqo0. simpl. eauto.
  - right; left. eexists _, _. rewrite Heqo0. simpl. eauto.
  - left. eauto.
Qed.

Lemma clearSourceOnce_pass ref tr o :
  runs (clearSourceOnce ref) tr o →
  passOf (gvrOf ref) (v1.Namespace ref) (v1.Name ref) (λ u, Some (severed u)) tr o.
Proof.
  unfold clearSourceOnce, passOf. intros H.
  repeat run_step.
  - right; right. eexists _, _, _. eauto.
  - left. eauto.
Qed.

(** C10.  In one pass of the composite repair that fetched the composite
    [xru]: when [xru] has no label map, the pass panics on the write into
    the nil map right after the fetch, and no update is sent; when [xru]
    carries at least one label, the update is sent, and its labels are
    those of [xru] with the claim-namespace label set to the namespace of
    the new claim, so every other label is as it was. *)
Theorem C10_label_write xrRef xrcu tr o xru rest :
  runs (updateCompositeOnce xrRef xrcu) tr o →
  tr = EvGet (gvrOf xrRef) "" (v1.Name xrRef) (Ok xru) :: rest →
  (unstructured.GetLabels xru = None →
     o = Panicked "assignment to entry in nil map" ∧ rest = [])
  ∧ (∀ labels k v,
       unstructured.GetLabels xru = Some labels → labels !! k = Some v →
       ∃ doc r,
         rest = [EvUpdate (gvrOf xrRef) "" doc r] ∧ o = Returned (errOf r)
         ∧ unstructured.GetLabels doc
           = Some (<[claimNamespaceLabel := unstructured.GetNamespace xrcu]> labels)
         ∧ ∀ labels', unstructured.GetLabels doc = Some labels' →
             labels' !! claimNamespaceLabel = Some (unstructured.GetNamespace xrcu)
             ∧ ∀ k', k' ≠ claimNamespaceLabel → labels' !! k' = labels !! k').
Proof.
  intros H ->.
  assert (Hl : unstructured.GetLabels
                 (composite.SetClaimReference (DeepCopy xru) (claim.GetReference xrcu))
               = unstructured.GetLabels xru).
  { apply GetLabels_metadata. by apply SetValue_spec_other. }
  unfold updateCompositeOnce in H. simpl in H. inv H.
  match goal with H : runs _ _ _ |- _ => simpl in H; rewrite Hl in H; rename H into Hr end.
  split.
  - intros Hn. rewrite Hn in Hr. by inv Hr.
  - intros labels k v Hs _. rewrite Hs in Hr. simpl in Hr. inv Hr.
    match goal with H : runs _ _ _ |- _ => inv H end.
    destruct (GetLabels_Some _ _ Hs) as [m Hm].
    assert (Hd : unstructured.GetLabels
                   (unstructured.SetLabels
                      (composite.SetClaimReference (DeepCopy xru) (claim.GetReference xrcu))
                      (<["crossplane.io/claim-namespace" := unstructured.GetNamespace xrcu]>
                         labels))
                 = Some (<[claimNamespaceLabel := unstructured.GetNamespace xrcu]> labels)).
    { eapply GetLabels_SetLabels.
      unfold composite.SetClaimReference. rewrite SetValue_spec_other by done. exact Hm. }
    eexists _, _. split; [reflexivity|]. split; [reflexivity|]. split; [exact Hd|].
    intros labels' Hl'. rewrite Hd in Hl'. simplify_eq.
    split; [apply lookup_insert_eq|]. intros k' Hk'. by apply lookup_insert_ne.
Qed.

Lemma C10_label_write_witness :
  (exec kube.api (updateCompositeOnce scenario.xrRef (scenario.claimDoc "dest-ns"))
        scenario.unlabelled).1.1
  = Panicked "assignment to entry in nil map"
  ∧ ∃ doc r labels',
      drop 1 (exec kube.api (updateCompositeOnce scenario.xrRef (scenario.claimDoc "dest-ns"))
                   scenario.ready).2
      = [EvUpdate scenario.xtenants "" doc r]
      ∧ unstructured.GetLabels doc = Some labels'
      ∧ labels' !! "crossplane.io/claim-namespace" = Some "dest-ns"
      ∧ labels' !! "crossplane.io/claim-name" = Some "dev-teams".
Proof.
  split.
  - pose proof (exec_split kube.api
                  (updateCompositeOnce scenario.xrRef (scenario.claimDoc "dest-ns"))
                  scenario.unlabelled) as Hx.
    destruct (C10_label_write _ _ _ _ (scenario.xrDoc []) []
                (exec_runs _ _ _ _ _ _ Hx) ltac:(vm_compute; reflexivity)) as [Hnil _].
    exact (proj1 (Hnil ltac:(vm_compute; reflexivity))).
  - pose proof (exec_split kube.api
                  (updateCompositeOnce scenario.xrRef (scenario.claimDoc "dest-ns"))
                  scenario.ready) as Hx.
    destruct (C10_label_write _ _ _ _ (scenario.xrDoc scenario.labelled)
                (drop 1 (exec kube.api
                           (updateCompositeOnce scenario.xrRef (scenario.claimDoc "dest-ns"))
                           scenario.ready).2)
                (exec_runs _ _ _ _ _ _ Hx) ltac:(vm_compute; reflexivity)) as [_ Hsome].
    destruct (Hsome scenario.xrLabels "crossplane.io/claim-name" "dev-teams"
                    ltac:(vm_compute; reflexivity) ltac:(vm_compute; reflexivity))
      as (doc & r & Hrest & _ & Hd & Hl).
    destruct (Hl (<[claimNamespaceLabel :=
                      unstructured.GetNamespace (scenario.claimDoc "dest-ns")]>
                    scenario.xrLabels) Hd) as [Hkey Hother].
    exists doc, r, (<[claimNamespaceLabel :=
                        unstructured.GetNamespace (scenario.claimDoc "dest-ns")]>
                      scenario.xrLabels).
    split; [exact Hrest|]. split; [exact Hd|].
    split; [exact Hkey|]. rewrite Hother by discriminate. vm_compute. reflexivity.
Defined.

(** ** Retrying on conflict *)

Section Retry.
Context (gvr : GroupVersionResource) (ns name : string).
Context (transform : Unstructured → option Unstructured).
Context (fn : prog (option error)).
Context (fn_pass : ∀ tr o, runs fn tr o → passOf gvr ns name transform tr o).

Lemma OnError_unfold n rt last tr o :
  runs (retry.OnError (S n) rt fn last) tr o →
  (∃ msg, runs fn tr (Panicked msg) ∧ o = Panicked msg)
  ∨ (runs fn tr (Returned None) ∧ o = Returned None)
  ∨ (∃ e, runs fn tr (Returned (Some e)) ∧ rt e = false ∧ o = Returned (Some e))
  ∨ (∃ t1 t2 e, runs fn t1 (Returned (Some e)) ∧ rt e = true ∧ tr = t1 ++ t2
                ∧ runs (retry.OnError n rt fn (Some e)) t2 o).
Proof.
  simpl. intros H.
  apply runs_bind_inv in H as [(t1 & a & t2 & H1 & H2 & ->)|(msg & H1 & ->)].
  - destruct a as [e|].
    + destruct (rt e) eqn:Hrt.
      * right; right; right. by eexists _, _, _.
      * inv H2. right; right; left. rewrite app_nil_r. eauto.
    + inv H2. right; left. by rewrite app_nil_r.
  - left. eauto.
Qed.

(** A property of traces that holds of the empty trace and survives
    putting one more pass in front holds of the trace of the whole loop. *)
Lemma OnError_trace_ind (P : list event → Prop) :
  P [] →
  (∀ t1 o1 t2, runs fn t1 o1 → P t2 → P (t1 ++ t2)) →
  ∀ n rt last tr o, runs (retry.OnError n rt fn last) tr o → P tr.
Proof.
  intros Hnil Hpass n. induction n as [|n IH]; intros rt last tr o H.
  - by inv H.
  - apply OnError_unfold in H
      as [(msg & H & _)|[(H & _)|[(e & H & _)|(t1 & t2 & e & H1 & _ & -> & H2)]]].
    + rewrite <- (app_nil_r tr). eauto.
    + rewrite <- (app_nil_r tr). eauto.
    + rewrite <- (app_nil_r tr). eauto.
    + eauto.
Qed.

Lemma pass_starts_with_fetch tr o :
  runs fn tr o → ∃ r rest, tr = EvGet gvr ns name r :: rest.
Proof.
  intros H. destruct (fn_pass _ _ H)
    as [(e & -> & _)|[(u & msg & -> & _)|(u & d & r & -> & _)]]; eauto.
Qed.

Lemma pass_one_fetch tr o :
  runs fn tr o → length (filter (λ e, isGet e = true) tr) = 1.
Proof.
  intros H. by destruct (fn_pass _ _ H)
    as [(e & -> & _)|[(u & msg & -> & _)|(u & d & r & -> & _)]].
Qed.

Lemma retry_starts_with_fetch n rt last tr o :
  runs (retry.OnError (S n) rt fn last) tr o →
  ∃ r rest, tr = EvGet gvr ns name r :: rest.
Proof.
  intros H. apply OnError_unfold in H
    as [(msg & H & _)|[(H & _)|[(e & H & _)|(t1 & t2 & e & H & _ & E & _)]]];
    destruct (pass_starts_with_fetch _ _ H) as (r & rest & ->); subst; simpl; eauto.
Qed.

(** Each update of the loop is sent right after a fetch that succeeded,
    and carries the transform of the fetched copy. *)
Lemma retry_fresh_copy n rt last tr o :
  runs (retry.OnError n rt fn last) tr o →
  ∀ pre g' ns' d r post, tr = pre ++ EvUpdate g' ns' d r :: post →
    ∃ pre' u, pre = pre' ++ [EvGet gvr ns name (Ok u)] ∧ transform u = Some d
              ∧ g' = gvr ∧ ns' = ns.
Proof.
  intros H. pattern tr. eapply OnError_trace_ind; [| |exact H]; clear tr o H.
  - intros pre g' ns' d r post E. by destruct pre.
  - intros t1 o1 t2 H1 IH pre g' ns' d r post E.
    destruct (fn_pass _ _ H1)
      as [(e & -> & _)|[(u & msg & -> & _)|(u & d0 & r0 & -> & Ht & _)]].
    + destruct pre as [|a pre]; simplify_eq/=.
      destruct (IH _ _ _ _ _ _ eq_refl) as (pre' & u & -> & ? & ? & ?).
      exists (EvGet gvr ns name (Err e) :: pre'), u. by repeat split.
    + destruct pre as [|a pre]; simplify_eq/=.
      destruct (IH _ _ _ _ _ _ eq_refl) as (pre' & u' & -> & ? & ? & ?).
      exists (EvGet gvr ns name (Ok u) :: pre'), u'. by repeat split.
    + destruct pre as [|a [|b pre]]; simplify_eq/=.
      * exists [], u. by repeat split.
      * destruct (IH _ _ _ _ _ _ eq_refl) as (pre' & u' & -> & ? & ? & ?).
        exists (EvGet gvr ns name (Ok u) :: EvUpdate gvr ns d0 r0 :: pre'), u'.
        by repeat split.
Qed.

(** The loop calls nothing but fetches and updates. *)
Lemma retry_fetches_and_updates n rt last tr o :
  runs (retry.OnError n rt fn last) tr o →
  Forall (λ e, isGet e || isUpdate e = true) tr.
Proof.
  intros H. pattern tr. eapply OnError_trace_ind; [| |exact H]; clear tr o H;
    [constructor|].
  intros t1 o1 t2 H1 IH. apply Forall_app. split; [|done].
  destruct (fn_pass _ _ H1)
    as [(e & -> & _)|[(u & msg & -> & _)|(u & d0 & r0 & -> & _)]];
    by repeat constructor.
Qed.

(** At most [n] passes. *)
Lemma retry_bounded n rt last tr o :
  runs (retry.OnError n rt fn last) tr o →
  (length (filter (λ e, isGet e = true) tr) ≤ n)%nat.
Proof.
  revert last tr o. induction n as [|n IH]; intros last tr o H.
  - by inv H.
  - apply OnError_unfold in H
      as [(msg & H & _)|[(H & _)|[(e & H & _)|(t1 & t2 & e & H1 & _ & -> & H2)]]];
      try (rewrite (pass_one_fetch _ _ H); lia).
    rewrite filter_app, length_app, (pass_one_fetch _ _ H1).
    specialize (IH _ _ _ H2). lia.
Qed.

(** An update refused for a conflict is followed by a new fetch, unless
    the pass was the last one allowed. *)
Lemma retry_after_conflict n last tr o :
  runs (retry.OnError n errors.IsConflict fn last) tr o →
  ∀ pre d e post, tr = pre ++ EvUpdate gvr ns d (Err e) :: post →
    errors.IsConflict e = true →
    (length (filter (λ e, isGet e = true) pre) < n)%nat →
    ∃ r post', post = EvGet gvr ns name r :: post'.
Proof.
  revert last tr o. induction n as [|n IH]; intros last tr o H pre d e post E Hc Hn.
  - lia.
  - apply OnError_unfold in H
      as [(msg & H & _)|[(H & _)|[(e' & H & Hrt & _)|(t1 & t2 & e' & H1 & _ & -> & H2)]]].
    + destruct (fn_pass _ _ H)
        as [(? & -> & ?)|[(? & ? & -> & _)|(? & ? & ? & -> & _ & ?)]];
        destruct pre as [|a [|b pre]]; simplify_eq/=; by destruct pre.
    + destruct (fn_pass _ _ H)
        as [(? & -> & ?)|[(? & ? & -> & _)|(? & ? & ? & -> & _ & ?)]];
        destruct pre as [|a [|b pre]]; simplify_eq/=; by destruct pre.
    + destruct (fn_pass _ _ H)
        as [(? & -> & ?)|[(? & ? & -> & _)|(? & ? & ? & -> & _ & ?)]];
        destruct pre as [|a [|b pre]]; simplify_eq/=;
        try (by destruct pre); simpl in *; congruence.
    + destruct (fn_pass _ _ H1)
        as [(e0 & -> & ?)|[(u & msg & -> & _ & ?)|(u & d0 & r0 & -> & _ & ?)]];
        try done.
      * destruct pre as [|a pre]; simplify_eq/=.
        eapply IH; [done..|simpl in Hn; lia].
      * destruct pre as [|a [|b pre]]; simplify_eq/=.
        -- destruct n as [|n]; [simpl in Hn; lia|].
           by eapply retry_starts_with_fetch.
        -- rewrite filter_cons_False in Hn by done.
           eapply IH; [done..|lia].
Qed.

(** A loop that ends without error ends with a pass whose update was
    accepted. *)
Lemma retry_success n rt e0 tr :
  runs (retry.OnError n rt fn e0) tr (Returned None) →
  (n = 0 ∧ e0 = None ∧ tr = [])
  ∨ ∃ pre u d stored,
      tr = pre ++ [EvGet gvr ns name (Ok u); EvUpdate gvr ns d (Ok stored)]
      ∧ transform u = Some d.
Proof.
  revert e0 tr. induction n as [|n IH]; intros e0 tr H.
  - inv H. by left.
  - right. apply OnError_unfold in H
      as [(msg & _ & ?)|[(H & _)|[(e & _ & _ & ?)|(t1 & t2 & e & H1 & _ & -> & H2)]]];
      try done.
    + destruct (fn_pass _ _ H)
        as [(? & -> & ?)|[(? & ? & -> & _ & ?)|(u & d & r & -> & Ht & Ho)]]; try done.
      destruct r; [|done]. by exists [], u, d, a.
    + destruct (IH _ _ H2) as [(_ & ? & _)|(pre & u & d & stored & -> & Ht)]; [done|].
      exists (t1 ++ pre), u, d, stored. by rewrite <- app_assoc.
Qed.

End Retry.

(** Both conflict-safe mutations keep the discipline. *)
Lemma RetryOnConflict_conflictSafe gvr ns name transform fn tr o :
  (∀ tr o, runs fn tr o → passOf gvr ns name transform tr o) →
  runs (retry.RetryOnConflict retry.DefaultRetrySteps fn) tr o →
  conflictSafe gvr ns name transform tr.
Proof.
  intros Hfn H. unfold retry.RetryOnConflict in H. repeat split.
  - eapply retry_fresh_copy; eauto.
  - eapply retry_after_conflict; eauto.
  - eapply retry_bounded; eauto.
Qed.

(** *** The delete loop *)

Lemma deleteSourceOnce_pass ref tr o :
  runs (deleteSourceOnce ref) tr o →
  (∃ e, tr = [EvGet (gvrOf ref) (v1.Namespace ref) (v1.Name ref) (Err e)]
        ∧ o = Returned (Some e))
  ∨ (∃ cur r, tr = [EvGet (gvrOf ref) (v1.Namespace ref) (v1.Name ref) (Ok cur);
                    EvDelete (gvrOf ref) (v1.Namespace ref) (v1.Name ref) r]
              ∧ o = Returned r).
Proof.
  unfold deleteSourceOnce, Delete. intros H. repeat run_step; eauto.
Qed.

(** Each delete is sent right after a fetch of the claim that succeeded,
    and the loop calls nothing but fetches and deletes. *)
Lemma delete_loop_trace ref n rt last tr o :
  runs (retry.OnError n rt (deleteSourceOnce ref) last) tr o →
  (∀ pre g' ns' name' r post, tr = pre ++ EvDelete g' ns' name' r :: post →
     ∃ pre' cur,
       pre = pre' ++ [EvGet (gvrOf ref) (v1.Namespace ref) (v1.Name ref) (Ok cur)]
       ∧ g' = gvrOf ref ∧ ns' = v1.Namespace ref ∧ name' = v1.Name ref)
  ∧ Forall (λ e, isUpdate e = false) tr.
Proof.
  intros H. pattern tr. eapply OnError_trace_ind; [| |exact H]; clear tr o H.
  - split; [|constructor]. intros pre g' ns' name' r post E. by destruct pre.
  - intros t1 o1 t2 H1 [IH1 IH2].
    destruct (deleteSourceOnce_pass _ _ _ H1) as [(e & -> & _)|(cur & r0 & -> & _)].
    + split; [|by repeat constructor].
      intros pre g' ns' name' r post E. destruct pre as [|a pre]; simplify_eq/=.
      destruct (IH1 _ _ _ _ _ _ eq_refl) as (pre' & cur & -> & ? & ? & ?).
      eexists (_ :: pre'), cur. by repeat split.
    + split; [|by repeat constructor].
      intros pre g' ns' name' r post E. destruct pre as [|a [|b pre]]; simplify_eq/=.
      * exists [], cur. by repeat split.
      * destruct (IH1 _ _ _ _ _ _ eq_refl) as (pre' & cur' & -> & ? & ? & ?).
        eexists (_ :: _ :: pre'), cur'. by repeat split.
Qed.

(** Source retirement is two loops one after the other: the clearing
    loop, and, only when that one ended without error, the delete loop. *)
Lemma DeleteSourceClaim_loops ref tr o :
  runs (DeleteSourceClaim ref) tr o →
  ∃ t1 t2 o1,
    tr = t1 ++ t2
    ∧ runs (retry.RetryOnConflict retry.DefaultRetrySteps (clearSourceOnce ref)) t1 o1
    ∧ (t2 = [] ∨ (o1 = Returned None
                  ∧ ∃ o2, runs (retry.RetryOnConflict retry.DefaultRetrySteps
                                  (deleteSourceOnce ref)) t2 o2)).
Proof.
  unfold DeleteSourceClaim. intros H.
  apply runs_bind_inv in H as [(t1 & a & t2 & H1 & H2 & ->)|(msg & H1 & ->)].
  - exists t1, t2, (Returned a). repeat split; [done|].
    destruct a as [e|]; [inv H2; by left|]. right. split; [done|].
    apply runs_bind_inv in H2 as [(t3 & a & t4 & H3 & H4 & ->)|(msg & H3 & ->)].
    + destruct a; inv H4; rewrite app_nil_r; eauto.
    + eauto.
  - exists tr, [], (Panicked msg). rewrite app_nil_r. repeat split; [done|by left].
Qed.

Lemma Forall_isUpdate_isDelete (tr : list event) :
  Forall (λ e, isGet e || isUpdate e = true) tr → Forall (λ e, isDelete e = false) tr.
Proof. intros H. eapply Forall_impl; [exact H|]. by intros []. Qed.

(** Where a call that [t1] cannot hold sits in [t1 ++ t2]. *)
Lemma app_split_second (P : event → Prop) t1 t2 pre e post :
  Forall P t1 → ¬ P e → t1 ++ t2 = pre ++ e :: post →
  ∃ q, pre = t1 ++ q ∧ t2 = q ++ e :: post.
Proof.
  revert pre. induction t1 as [|a t1 IH]; intros pre Hall He E.
  - exists pre. by simpl in *.
  - apply Forall_cons in Hall as [Ha Hall].
    destruct pre as [|b pre]; simpl in E; injection E as -> E.
    + done.
    + destruct (IH _ Hall He E) as (q & -> & ->). by exists q.
Qed.

(** The severed document. *)
Lemma severed_document u :
  objectShaped u = true →
  unstructured.GetFinalizers (severed u) = Some []
  ∧ fieldpath.GetValue (severed u) ["spec"; "resourceRef"] = Some VNull.
Proof.
  unfold objectShaped. intros Hu.
  destruct (u !! "metadata") as [[| | | | |m]|] eqn:Hm; try done.
  assert (Hs : match u !! "spec" with
               | None | Some VNull | Some (VObj _) => True | _ => False end).
  { by destruct (u !! "spec") as [[]|]. }
  destruct (SetValue_spec_shaped u "resourceRef" VNull Hs) as (sp & Hsp & Hr).
  unfold severed, DeepCopy, claim.SetResourceReference_nil, unstructured.SetFinalizers.
  erewrite setNestedField_metadata
    by (rewrite SetValue_spec_other by done; exact Hm).
  split.
  - unfold unstructured.GetFinalizers. simpl.
    rewrite lookup_insert_eq. by rewrite lookup_insert_eq.
  - simpl. rewrite lookup_insert_ne by done. by rewrite Hsp.
Qed.

(** C7.  In every run of source retirement, whatever the server answers,
    a delete call comes after a clearing update that was accepted, sent
    from its own fetch in the clearing loop, and right after a fetch of
    the claim that succeeded: before the delete the trace reads
    [p1], fetch, update of the severed copy (accepted), [p2], fetch; no
    delete is in [p1], no update is in [p2], and [p1] with the accepted
    pass is a conflict-safe loop of its own.  The severed copy of a
    document shaped as an object has the empty finalizer list and a null
    [spec.resourceRef]. *)
Theorem C7_delete_after_severing ref tr o pre g' ns' name' r post :
  runs (DeleteSourceClaim ref) tr o →
  tr = pre ++ EvDelete g' ns' name' r :: post →
  ∃ p1 u stored p2 cur,
    pre = p1 ++ [EvGet (gvrOf ref) (v1.Namespace ref) (v1.Name ref) (Ok u);
                 EvUpdate (gvrOf ref) (v1.Namespace ref) (severed u) (Ok stored)]
             ++ p2 ++ [EvGet (gvrOf ref) (v1.Namespace ref) (v1.Name ref) (Ok cur)]
    ∧ Forall (λ e, isDelete e = false) p1
    ∧ Forall (λ e, isUpdate e = false) p2
    ∧ conflictSafe (gvrOf ref) (v1.Namespace ref) (v1.Name ref) (λ u, Some (severed u))
        (p1 ++ [EvGet (gvrOf ref) (v1.Namespace ref) (v1.Name ref) (Ok u);
                EvUpdate (gvrOf ref) (v1.Namespace ref) (severed u) (Ok stored)])
    ∧ g' = gvrOf ref ∧ ns' = v1.Namespace ref ∧ name' = v1.Name ref
    ∧ (objectShaped u = true →
         unstructured.GetFinalizers (severed u) = Some []
         ∧ fieldpath.GetValue (severed u) ["spec"; "resourceRef"] = Some VNull).
Proof.
  intros H E.
  destruct (DeleteSourceClaim_loops _ _ _ H) as (t1 & t2 & o1 & -> & H1 & H2).
  pose proof (retry_fetches_and_updates _ _ _ _ _ (clearSourceOnce_pass ref) _ _ _ _ _ H1)
    as Hgu.
  pose proof (Forall_isUpdate_isDelete _ Hgu) as Hnd.
  destruct (app_split_second (λ e, isDelete e = false) _ _ _
              (EvDelete g' ns' name' r) _ Hnd ltac:(simpl; done) E) as (q & -> & ->).
  destruct H2 as [E2|(-> & o2 & H2)]; [by destruct q|].
  destruct (retry_success _ _ _ _ _ (clearSourceOnce_pass ref) _ _ _ _ H1)
    as [(Hz & _)|(p1 & u & d & stored & -> & Hd)]; [discriminate Hz|].
  simplify_eq.
  destruct (delete_loop_trace _ _ _ _ _ _ H2) as [Hdel Hnu].
  destruct (Hdel _ _ _ _ _ _ eq_refl) as (p2 & cur & -> & -> & -> & ->).
  exists p1, u, stored, p2, cur. repeat split.
  - by rewrite <- !app_assoc.
  - by apply Forall_app in Hnd as [? _].
  - rewrite <- app_assoc in Hnu. by apply Forall_app in Hnu as [? _].
  - eapply RetryOnConflict_conflictSafe; [apply clearSourceOnce_pass|exact H1].
  - eapply RetryOnConflict_conflictSafe; [apply clearSourceOnce_pass|exact H1].
  - eapply RetryOnConflict_conflictSafe; [apply clearSourceOnce_pass|exact H1].
  - by apply severed_document.
  - by apply severed_document.
Qed.

Lemma C7_delete_after_severing_witness :
  ∃ p1 u stored p2 cur,
    take 3 (exec kube.api
              (DeleteSourceClaim
                 (objectReference "Tenant" "k8s.example.com/v1" "dev-teams" "src-ns"))
              scenario.ready).2
    = p1 ++ [EvGet scenario.tenants "src-ns" "dev-teams" (Ok u);
             EvUpdate scenario.tenants "src-ns" (severed u) (Ok stored)]
         ++ p2 ++ [EvGet scenario.tenants "src-ns" "dev-teams" (Ok cur)]
    ∧ Forall (λ e, isDelete e = false) p1
    ∧ Forall (λ e, isUpdate e = false) p2.
Proof.
  pose proof (exec_split kube.api
                (DeleteSourceClaim
                   (objectReference "Tenant" "k8s.example.com/v1" "dev-teams" "src-ns"))
                scenario.ready) as Hx.
  destruct (C7_delete_after_severing _ _ _
              (take 3 (exec kube.api
                         (DeleteSourceClaim
                            (objectReference "Tenant" "k8s.example.com/v1"
                                             "dev-teams" "src-ns"))
                         scenario.ready).2)
              scenario.tenants "src-ns" "dev-teams" None []
              (exec_runs _ _ _ _ _ _ Hx) ltac:(vm_compute; reflexivity))
    as (p1 & u & stored & p2 & cur & Hpre & Hp1 & Hp2 & _).
  exists p1, u, stored, p2, cur. exact (conj Hpre (conj Hp1 Hp2)).
Defined.

(** *** One conflict on the composite *)

Lemma OnError_all_succeeded fn n rt last tr o :
  (∀ t o, runs fn t o → Forall (λ e, succeeded e = true) t → o = Returned None) →
  runs (retry.OnError (S n) rt fn last) tr o →
  Forall (λ e, succeeded e = true) tr → o = Returned None.
Proof.
  intros Hfn H Hs.
  apply OnError_unfold in H
    as [(msg & H & ->)|[(_ & ->)|[(e & H & _ & ->)|(t1 & t2 & e & H & _ & -> & _)]]];
    try done; try apply Forall_app in Hs as [Hs _]; by pose proof (Hfn _ _ H Hs).
Qed.

Lemma clearSourceOnce_succeeded ref tr o :
  runs (clearSourceOnce ref) tr o →
  Forall (λ e, succeeded e = true) tr → o = Returned None.
Proof.
  unfold clearSourceOnce, Update. intros H Hs.
  repeat run_step; repeat (apply Forall_cons in Hs as [? Hs]); simpl in *;
    try done.
  match goal with H : match ?r with Ok _ => _ | Err _ => _ end = true |- _ =>
    by destruct r end.
Qed.

Lemma deleteSourceOnce_succeeded ref tr o :
  runs (deleteSourceOnce ref) tr o →
  Forall (λ e, succeeded e = true) tr → o = Returned None.
Proof.
  unfold deleteSourceOnce, Delete. intros H Hs.
  repeat run_step; repeat (apply Forall_cons in Hs as [? Hs]); simpl in *;
    try done.
  match goal with H : match ?r with Some _ => _ | None => _ end = true |- _ =>
    by destruct r end.
Qed.

(** All calls of source retirement succeeding, it returns nil. *)
Lemma DeleteSourceClaim_succeeded ref tr o :
  runs (DeleteSourceClaim ref) tr o →
  Forall (λ e, succeeded e = true) tr → o = Returned None.
Proof.
  unfold DeleteSourceClaim, retry.RetryOnConflict, retry.DefaultRetrySteps.
  intros H Hs.
  apply runs_bind_inv in H as [(t1 & a & t2 & H1 & H2 & ->)|(msg & H1 & ->)].
  - apply Forall_app in Hs as [Hs1 Hs2].
    pose proof (OnError_all_succeeded _ _ _ _ _ _
                  (clearSourceOnce_succeeded ref) H1 Hs1) as Ha.
    injection Ha as ->.
    apply runs_bind_inv in H2 as [(t3 & a & t4 & H3 & H4 & ->)|(msg & H3 & ->)].
    + apply Forall_app in Hs2 as [Hs3 Hs4].
      pose proof (OnError_all_succeeded _ _ _ _ _ _
                    (deleteSourceOnce_succeeded ref) H3 Hs3) as Ha.
      injection Ha as ->. by inv H4.
    + by pose proof (OnError_all_succeeded _ _ _ _ _ _
                       (deleteSourceOnce_succeeded ref) H3 Hs2).
  - by pose proof (OnError_all_succeeded _ _ _ _ _ _
                     (clearSourceOnce_succeeded ref) H1 Hs).
Qed.

(** *** The cycles of a conflict-safe mutation *)

(** The runs of the retry loop are the cycles. *)
Lemma retry_cycles gvr ns name transform fn n last tr o :
  (∀ tr o, runs fn tr o → passOf gvr ns name transform tr o) →
  runs (retry.OnError n errors.IsConflict fn last) tr o →
  cycles gvr ns name transform n last tr o.
Proof.
  intros Hfn. revert last tr o. induction n as [|n IH]; intros last tr o H.
  - inv H. constructor.
  - apply (OnError_unfold fn) in H
      as [(msg & H & ->)|[(H & ->)|[(e & H & Hrt & ->)|(t1 & t2 & e & H1 & Hrt & -> & H2)]]].
    + apply cycles_last; [by apply Hfn|done].
    + apply cycles_last; [by apply Hfn|done].
    + apply cycles_last; [by apply Hfn|]. by intros e' [= <-].
    + eapply cycles_again; eauto.
Qed.

(** The composite repair is its retry loop. *)
Lemma UpdateComposite_loop xrRef xrcu tr o :
  runs (UpdateCompositeWithNewClaim (Some xrRef) xrcu) tr o →
  runs (retry.RetryOnConflict retry.DefaultRetrySteps (updateCompositeOnce xrRef xrcu)) tr o.
Proof.
  unfold UpdateCompositeWithNewClaim. intros H.
  apply runs_bind_inv in H as [(t1 & a & t2 & H1 & H2 & ->)|(msg & H1 & ->)]; [|done].
  destruct a; inv H2; by rewrite app_nil_r.
Qed.

(** After an update that was refused for a conflict, with a pass left:
    the object is fetched anew; when the fetch gives a copy that can be
    transformed, the transform of that copy is sent as an update; and
    when the server accepts it, the mutation ends there with nil. *)
Lemma cycles_after_conflict gvr ns name transform n last t o1 t' e4 g' n' d1 err rest :
  cycles gvr ns name transform (S (S n)) last t o1 →
  (o1 ≠ Returned None → t' = []) →
  t ++ t' = e4 :: EvUpdate g' n' d1 (Err err) :: rest →
  errors.IsConflict err = true →
  ∃ x1, e4 = EvGet gvr ns name (Ok x1) ∧ g' = gvr ∧ n' = ns ∧ transform x1 = Some d1
        ∧ ∃ r2 rest2,
            rest = EvGet gvr ns name r2 :: rest2
            ∧ ∀ x2 d2, r2 = Ok x2 → transform x2 = Some d2 →
                ∃ r3 rest3,
                  rest2 = EvUpdate gvr ns d2 r3 :: rest3
                  ∧ ∀ stored, r3 = Ok stored → o1 = Returned None ∧ t' = rest3.
Proof.
  intros H Ht' E Hc.
  inversion H as [|n0 l0 tr0 o0 Hp Hnc|n0 l0 t1 e t2 o0 Hp Hce Hcy]; subst.
  - destruct Hp as [(e & -> & ->)|[(u & msg & -> & Ht & ->)|(u & d & r & -> & Ht & ->)]].
    + rewrite Ht' in E by done. discriminate E.
    + rewrite Ht' in E by done. discriminate E.
    + simpl in E. simplify_eq. specialize (Hnc err eq_refl). congruence.
  - destruct Hp as [(e' & -> & He)|[(u & msg & -> & Ht & ?)|(u & d & r & -> & Ht & He)]];
      [|done|].
    + exfalso. simpl in E. injection E as _ E.
      inversion Hcy as [|n1 l1 tr1 o1' Hp1 _|n1 l1 t3 e3 t4 o1' Hp1 _ _]; subst;
        destruct Hp1 as [(? & -> & ?)|[(? & ? & -> & ? & ?)|(? & ? & ? & -> & ? & ?)]];
        simpl in E; discriminate E.
    + clear H. simpl in E. injection E as <- <- <- <- -> <-. simpl in He. simplify_eq.
      exists u. repeat split; try done.
      inversion Hcy as [|n1 l1 tr1 o1' Hp1 _|n1 l1 t3 e3 t4 o1' Hp1 _ _]; subst.
      * destruct Hp1 as [(e2 & -> & ->)|[(u2 & msg & -> & Ht2 & ->)
                                        |(u2 & d' & r' & -> & Ht2 & ->)]].
        -- eexists _, _. split; [reflexivity|]. intros; simplify_eq.
        -- eexists _, _. split; [reflexivity|]. intros; simplify_eq.
        -- eexists _, _. split; [reflexivity|]. intros x2 d2 [= <-] Hd2. simplify_eq.
           eexists _, _. split; [reflexivity|]. intros stored ->. by split.
      * destruct Hp1 as [(e2 & -> & He2)|[(u2 & msg & -> & Ht2 & ?)
                                         |(u2 & d' & r' & -> & Ht2 & He2)]]; [|done|].
        -- eexists _, _. split; [reflexivity|]. intros; simplify_eq.
        -- eexists _, _. split; [simpl; reflexivity|].
           intros x2 d2 [= <-] Hd2. simplify_eq.
           eexists _, _. split; [reflexivity|].
           intros stored ->. simpl in He2. simplify_eq.
Qed.

(** Source retirement begins with the severing loop, and goes on only
    when that loop returned nil. *)
Lemma DeleteSourceClaim_severance ref tr o :
  runs (DeleteSourceClaim ref) tr o →
  ∃ t1 o1 t2,
    tr = t1 ++ t2
    ∧ runs (retry.RetryOnConflict retry.DefaultRetrySteps (clearSourceOnce ref)) t1 o1
    ∧ Forall (λ e, isUpdate e = false) t2
    ∧ (o1 ≠ Returned None → t2 = [] ∧ o = o1).
Proof.
  unfold DeleteSourceClaim. intros H.
  apply runs_bind_inv in H as [(t1 & a & t2 & H1 & H2 & ->)|(msg & H1 & ->)].
  - exists t1, (Returned a), t2. split; [done|]. split; [exact H1|].
    destruct a as [e|].
    + inv H2. split; [constructor|done].
    + split; [|done].
      apply runs_bind_inv in H2 as [(t3 & a & t4 & H3 & H4 & ->)|(msg & H3 & ->)].
      * assert (t4 = []) as -> by (by destruct a; inv H4). rewrite app_nil_r.
        by destruct (delete_loop_trace _ _ _ _ _ _ H3).
      * by destruct (delete_loop_trace _ _ _ _ _ _ H3).
  - exists tr, (Panicked msg), []. rewrite app_nil_r. split; [done|].
    split; [exact H1|]. split; [constructor|done].
Qed.

Opaque DeleteSourceClaim.

(** C6.  Composite repair and source severance are conflict-safe.  In
    every run, whatever the server answers, the calls of each are the
    cycles of a conflict-safe mutation with [retry.DefaultRetrySteps]
    passes: full fetch-transform-update passes, a new one exactly when the
    one before ended in a conflict and passes remain, each update carrying
    the transform of the copy fetched in its own pass.  Source severance
    is followed by further calls only when it returned nil.  And in a run
    of the orchestrator whose first update is refused for a conflict,
    that update is the repair of the composite the created claim refers
    to; the next call fetches that composite anew; when the fetch finds a
    copy that can be repaired, the call after it is the update carrying
    the repair of this new copy; and when the server accepts it and every
    later call succeeds, the run returns nil. *)
Theorem C6_conflict_safe_mutations :
  (∀ xrRef xrcu tr o,
     runs (UpdateCompositeWithNewClaim (Some xrRef) xrcu) tr o →
     cycles (gvrOf xrRef) "" (v1.Name xrRef) (repaired xrcu) retry.DefaultRetrySteps None
       tr o
     ∧ conflictSafe (gvrOf xrRef) "" (v1.Name xrRef) (repaired xrcu) tr)
  ∧ (∀ ref tr o,
       runs (DeleteSourceClaim ref) tr o →
       ∃ t1 o1 t2,
         tr = t1 ++ t2
         ∧ cycles (gvrOf ref) (v1.Namespace ref) (v1.Name ref) (λ u, Some (severed u))
             retry.DefaultRetrySteps None t1 o1
         ∧ conflictSafe (gvrOf ref) (v1.Namespace ref) (v1.Name ref)
             (λ u, Some (severed u)) t1
         ∧ Forall (λ e, isUpdate e = false) t2
         ∧ (o1 ≠ Returned None → t2 = [] ∧ o = o1))
  ∧ (∀ pf c tr o e0 e1 e2 g n obj d e4 g' n' d1 err rest,
       runs (Run pf c) tr o →
       tr = e0 :: e1 :: e2 :: EvCreate g n obj (Ok d)
            :: e4 :: EvUpdate g' n' d1 (Err err) :: rest →
       errors.IsConflict err = true →
       ∃ xrRef x1,
         claim.GetResourceReference d = Some xrRef
         ∧ e4 = EvGet (gvrOf xrRef) "" (v1.Name xrRef) (Ok x1)
         ∧ g' = gvrOf xrRef ∧ n' = "" ∧ repaired d x1 = Some d1
         ∧ ∃ r2 rest2,
             rest = EvGet (gvrOf xrRef) "" (v1.Name xrRef) r2 :: rest2
             ∧ ∀ x2 d2, r2 = Ok x2 → repaired d x2 = Some d2 →
                 ∃ r3 rest3,
                   rest2 = EvUpdate (gvrOf xrRef) "" d2 r3 :: rest3
                   ∧ ∀ stored, r3 = Ok stored →
                       Forall (λ e, succeeded e = true) rest3 → o = Returned None).
Proof.
  split; [|split].
  - intros xrRef xrcu tr o H. apply UpdateComposite_loop in H. split.
    + eapply retry_cycles; [apply updateCompositeOnce_pass|exact H].
    + eapply RetryOnConflict_conflictSafe; [apply updateCompositeOnce_pass|exact H].
  - intros ref tr o H.
    destruct (DeleteSourceClaim_severance _ _ _ H) as (t1 & o1 & t2 & -> & H1 & Hnu & Hstop).
    exists t1, o1, t2. split; [done|].
    split; [eapply retry_cycles; [apply clearSourceOnce_pass|exact H1]|].
    split; [eapply RetryOnConflict_conflictSafe; [apply clearSourceOnce_pass|exact H1]|].
    by split.
  - intros pf c tr o e0 e1 e2 g n obj d e4 g' n' d1 err rest H -> Hc.
    unfold Run in H. repeat run_step.
    all: match goal with
         | H : runs (bind (UpdateCompositeWithNewClaim _ _) _) _ _ |- _ =>
             apply runs_bind_inv in H
               as [(tA & rA & tB & HA & HB & E)|(msg & HA & ->)]
         end.
    + unfold DeepCopy in HA, HB.
      destruct (claim.GetResourceReference d) as [xrRef|] eqn:Hx;
        [|inv HA; by destruct rA].
      exists xrRef. apply UpdateComposite_loop in HA.
      apply (retry_cycles _ _ _ _ _ _ _ _ _ (updateCompositeOnce_pass xrRef d)) in HA.
      assert (HtB : Returned rA ≠ Returned None → tB = []).
      { destruct rA as [ue|]; [|done]. intros _. by inv HB. }
      destruct (cycles_after_conflict _ _ _ _ _ _ _ _ _ _ _ _ _ _ _ HA HtB (eq_sym E) Hc)
        as (x1 & -> & -> & -> & Hd1 & r2 & rest2 & -> & Hnext).
      exists x1. repeat split; try done.
      exists r2, rest2. split; [done|]. intros x2 d2 Hr2 Hd2.
      destruct (Hnext x2 d2 Hr2 Hd2) as (r3 & rest3 & -> & Hfin).
      exists r3, rest3. split; [done|]. intros stored Hr3 Hs.
      destruct (Hfin stored Hr3) as [Ha ->]. injection Ha as ->. simpl in HB.
      apply runs_bind_inv in HB as [(tC & rC & tD & HC & HD & ->)|(msg & HC & ->)].
      * apply Forall_app in Hs as [Hs3 _].
        pose proof (DeleteSourceClaim_succeeded _ _ _ HC Hs3) as Ha.
        injection Ha as ->. by inv HD.
      * by pose proof (DeleteSourceClaim_succeeded _ _ _ HC Hs).
    + unfold DeepCopy in HA.
      destruct (claim.GetResourceReference d) as [xrRef|] eqn:Hx; [|by inv HA].
      exists xrRef. apply UpdateComposite_loop in HA.
      apply (retry_cycles _ _ _ _ _ _ _ _ _ (updateCompositeOnce_pass xrRef d)) in HA.
      destruct (cycles_after_conflict _ _ _ _ _ _ _ _ [] _ _ _ _ _ _ HA ltac:(done)
                  ltac:(by rewrite app_nil_r) Hc)
        as (x1 & -> & -> & -> & Hd1 & r2 & rest2 & -> & Hnext).
      exists x1. repeat split; try done.
      exists r2, rest2. split; [done|]. intros x2 d2 Hr2 Hd2.
      destruct (Hnext x2 d2 Hr2 Hd2) as (r3 & rest3 & -> & Hfin).
      exists r3, rest3. split; [done|]. intros stored Hr3 Hs.
      by destruct (Hfin stored Hr3).
Qed.

Transparent DeleteSourceClaim.

Lemma EvGet_cons_inv g n nm r (l : list event) g' n' nm' r' l' :
  EvGet g n nm r :: l = EvGet g' n' nm' r' :: l' → r = r' ∧ l = l'.
Proof. by intros [= _ _ _ -> ->]. Qed.

Lemma EvUpdate_cons_inv g n d r (l : list event) g' n' d' r' l' :
  EvUpdate g n d r :: l = EvUpdate g' n' d' r' :: l' → r = r' ∧ l = l'.
Proof. by intros [= _ _ _ -> ->]. Qed.

(** A store shared with a writer that touches the composite once, right
    after the first fetch of the repair: the first update is refused for
    a conflict, the composite is fetched anew, the repair of the new
    copy is sent and accepted, and the run returns nil. *)
Lemma C6_conflict_safe_mutations_witness :
  let tr := (exec kube.contended
               (Run (scenario.platform RESTScopeNameNamespace) scenario.cmd)
               (scenario.ready, [(scenario.xtenants, "", "dev-teams-abcde")])).2 in
  let created := kube.withResourceVersion
                   (destinationOf (scenario.claimDoc "src-ns") "dest-ns") 9 in
  let stale := scenario.xrDoc scenario.labelled in
  let fresh := kube.withResourceVersion (scenario.xrDoc scenario.labelled) 10 in
  (exec kube.contended
        (Run (scenario.platform RESTScopeNameNamespace) scenario.cmd)
        (scenario.ready, [(scenario.xtenants, "", "dev-teams-abcde")])).1.1
  = Returned None
  ∧ take 4 (drop 4 tr)
    = [EvGet scenario.xtenants "" "dev-teams-abcde" (Ok stale);
       EvUpdate scenario.xtenants "" (default ∅ (repaired created stale))
         (Err (StatusError StatusReasonConflict "dev-teams-abcde"));
       EvGet scenario.xtenants "" "dev-teams-abcde" (Ok fresh);
       EvUpdate scenario.xtenants "" (default ∅ (repaired created fresh))
         (Ok (kube.withResourceVersion (default ∅ (repaired created fresh)) 11))]
  ∧ unstructured.GetResourceVersion stale = "8"
  ∧ unstructured.GetResourceVersion (default ∅ (repaired created fresh)) = "10".
Proof.
  intros tr created stale fresh.
  pose proof (exec_split kube.contended
                (Run (scenario.platform RESTScopeNameNamespace) scenario.cmd)
                (scenario.ready, [(scenario.xtenants, "", "dev-teams-abcde")])) as Hx.
  destruct C6_conflict_safe_mutations as (_ & _ & H).
  destruct (H _ _ _ _
              (namespaceGet scenario.cmd (Ok scenario.nsDoc))
              (EvGet scenario.tenants "src-ns" "dev-teams" (Ok (scenario.claimDoc "src-ns")))
              (EvGet scenario.tenants "dest-ns" "dev-teams"
                     (Err (StatusError StatusReasonNotFound "dev-teams")))
              scenario.tenants "dest-ns"
              (destinationOf (scenario.claimDoc "src-ns") "dest-ns") created
              (EvGet scenario.xtenants "" "dev-teams-abcde" (Ok stale))
              scenario.xtenants "" (default ∅ (repaired created stale))
              (StatusError StatusReasonConflict "dev-teams-abcde")
              (drop 6 tr)
              (exec_runs _ _ _ _ _ _ Hx) ltac:(vm_compute; reflexivity) eq_refl)
    as (xrRef & x1 & _ & _ & _ & _ & _ & r2 & rest2 & Hrest & Hnext).
  assert (Hd6 : drop 6 tr
                = EvGet scenario.xtenants "" "dev-teams-abcde" (Ok fresh) :: drop 7 tr)
    by (vm_compute; reflexivity).
  destruct (EvGet_cons_inv _ _ _ _ _ _ _ _ _ _ (eq_trans (eq_sym Hd6) Hrest)) as [Hr2 Hrest2'].
  destruct (Hnext fresh (default ∅ (repaired created fresh)) (eq_sym Hr2)
              ltac:(vm_compute; reflexivity)) as (r3 & rest3 & Hrest2 & Hfin).
  assert (Hd7 : drop 7 tr
                = EvUpdate scenario.xtenants "" (default ∅ (repaired created fresh))
                    (Ok (kube.withResourceVersion (default ∅ (repaired created fresh)) 11))
                  :: drop 8 tr)
    by (vm_compute; reflexivity).
  destruct (EvUpdate_cons_inv _ _ _ _ _ _ _ _ _ _
              (eq_trans (eq_sym Hd7) (eq_trans Hrest2' Hrest2))) as [Hr3 Hrest3].
  split; [|split; [|split]].
  - apply (Hfin _ (eq_sym Hr3)). rewrite <- Hrest3. vm_compute. repeat constructor.
  - vm_compute. reflexivity.
  - vm_compute. reflexivity.
  - vm_compute. reflexivity.
Defined.

(** ** Migration on the sequential store *)

Lemma kube_get_inv gvr ns name s r s1 :
  kube.get gvr ns name s = (r, s1) →
  s1 = s
  ∧ match r with
    | Ok u => name ≠ "" ∧ kube.objects s !! (gvr, ns, name) = Some u
    | Err e => errors.IsConflict e = false
               ∧ (errors.IsNotFound e = true →
                  name ≠ "" ∧ kube.objects s !! (gvr, ns, name) = None)
    end.
Proof.
  unfold kube.get. destruct (decide (name = "")).
  - intros; simplify_eq. repeat split; done.
  - destruct (kube.objects s !! (gvr, ns, name)); intros; simplify_eq; repeat split; done.
Qed.

Lemma kube_create_inv gvr ns obj s r s1 :
  kube.create gvr ns obj s = (r, s1) →
  match r with
  | Ok stored =>
      kube.objects s !! (gvr, ns, unstructured.GetName obj) = None
      ∧ stored = kube.withResourceVersion obj (S (kube.revision s))
      ∧ kube.objects s1 = <[(gvr, ns, unstructured.GetName obj) := stored]> (kube.objects s)
  | Err _ => s1 = s
  end.
Proof.
  unfold kube.create. repeat case_decide; try (intros; by simplify_eq).
  destruct (kube.objects s !! _) eqn:E; intros; by simplify_eq.
Qed.

Lemma kube_update_inv gvr ns obj s r s1 :
  kube.update gvr ns obj s = (r, s1) →
  match r with
  | Ok stored =>
      stored = kube.withResourceVersion obj (S (kube.revision s))
      ∧ kube.objects s1 = <[(gvr, ns, unstructured.GetName obj) := stored]> (kube.objects s)
  | Err _ => s1 = s
  end.
Proof.
  unfold kube.update. repeat case_decide; try (intros; by simplify_eq).
  all: destruct (kube.objects s !! _) eqn:E; try (intros; by simplify_eq).
  all: repeat case_decide; intros; by simplify_eq.
Qed.

Lemma kube_delete_inv gvr ns name s r s1 :
  kube.delete gvr ns name s = (r, s1) →
  match r with
  | None =>
      ∃ old, kube.objects s !! (gvr, ns, name) = Some old
             ∧ (kube.hasFinalizers old = false →
                kube.objects s1 = delete (gvr, ns, name) (kube.objects s))
  | Some _ => s1 = s
  end.
Proof.
  unfold kube.delete. case_decide; [intros; by simplify_eq|].
  destruct (kube.objects s !! _) as [old|] eqn:E; [|intros; by simplify_eq].
  destruct (kube.hasFinalizers old) eqn:F; intros; simplify_eq; exists old;
    (split; [done|]); intros; [congruence|done].
Qed.

(** On a server that a failed pass leaves as it was, a retry loop that
    starts with steps left ends without error only through a first pass
    that does. *)
Lemma exec_OnError_stuck {St} (sv : server St) fn s e t rt n last :
  exec sv fn s = (Returned (Some e), s, t) →
  (n = 0 → last ≠ None) →
  (exec sv (retry.OnError n rt fn last) s).1.1 ≠ Returned None.
Proof.
  intros Hfn. revert last. induction n as [|n IH]; intros last Hl; simpl.
  - specialize (Hl eq_refl). by destruct last.
  - rewrite exec_bind, Hfn. destruct (rt e); simpl.
    + specialize (IH (Some e) ltac:(done)).
      by destruct (exec sv (retry.OnError n rt fn (Some e)) s) as [[? ?] ?].
    + done.
Qed.

Lemma exec_OnError_None {St} (sv : server St) fn s rt n s1 t :
  (∀ e sf tf, exec sv fn s = (Returned (Some e), sf, tf) → sf = s) →
  exec sv (retry.OnError (S n) rt fn None) s = (Returned None, s1, t) →
  exec sv fn s = (Returned None, s1, t).
Proof.
  intros Hfail H.
  destruct (exec sv fn s) as [[[[e|]|msg] sf] tf] eqn:Hfn.
  - rewrite (Hfail _ _ _ eq_refl) in Hfn.
    pose proof (exec_OnError_stuck sv fn s e tf rt (S n) None Hfn ltac:(done)) as Hs.
    by rewrite H in Hs.
  - simpl in H. rewrite exec_bind, Hfn in H. simpl in H. by rewrite app_nil_r in H.
  - simpl in H. by rewrite exec_bind, Hfn in H.
Qed.

(** What an accepted pass of each loop does to the store; a pass that
    fails leaves it as it was. *)
Lemma exec_updateCompositeOnce xrRef xrcu s o s1 t :
  exec kube.api (updateCompositeOnce xrRef xrcu) s = (o, s1, t) →
  match o with
  | Returned None =>
      ∃ xru d,
        v1.Name xrRef ≠ ""
        ∧ kube.objects s !! compositeKey xrRef = Some xru
        ∧ repaired xrcu xru = Some d
        ∧ kube.objects s1
          = <[(gvrOf xrRef, "", unstructured.GetName d) :=
                kube.withResourceVersion d (S (kube.revision s))]> (kube.objects s)
  | Returned (Some _) => s1 = s
  | Panicked _ => True
  end.
Proof.
  unfold updateCompositeOnce. simpl.
  destruct (kube.get _ _ _ s) as [r sg] eqn:Hg.
  apply kube_get_inv in Hg as [-> Hg]. destruct r as [xru|e]; simpl.
  - destruct (unstructured.GetLabels _) as [labels|] eqn:Hl; simpl.
    + destruct (kube.update _ _ _ s) as [r su] eqn:Hu.
      apply kube_update_inv in Hu. intros H; simplify_eq.
      destruct r as [stored|e]; simpl; [|done].
      destruct Hg as [Hn Hg], Hu as [-> Hu].
      eexists xru, _. repeat split; try done.
      unfold repaired. by rewrite Hl.
    + intros H; by simplify_eq.
  - intros H; by simplify_eq.
Qed.

Lemma exec_clearSourceOnce ref s o s1 t :
  exec kube.api (clearSourceOnce ref) s = (o, s1, t) →
  match o with
  | Returned None =>
      ∃ u,
        v1.Name ref ≠ ""
        ∧ kube.objects s !! keyOf ref = Some u
        ∧ kube.objects s1
          = <[(gvrOf ref, v1.Namespace ref, unstructured.GetName (severed u)) :=
                kube.withResourceVersion (severed u) (S (kube.revision s))]>
              (kube.objects s)
  | Returned (Some _) => s1 = s
  | Panicked _ => True
  end.
Proof.
  unfold clearSourceOnce. simpl.
  destruct (kube.get _ _ _ s) as [r sg] eqn:Hg.
  apply kube_get_inv in Hg as [-> Hg]. destruct r as [u|e]; simpl.
  - destruct (kube.update _ _ _ s) as [r su] eqn:Hu.
    apply kube_update_inv in Hu. intros H; simplify_eq.
    destruct r as [stored|e]; simpl; [|done].
    destruct Hg as [Hn Hg], Hu as [-> Hu]. by exists u.
  - intros H; by simplify_eq.
Qed.

Lemma exec_deleteSourceOnce ref s o s1 t :
  exec kube.api (deleteSourceOnce ref) s = (o, s1, t) →
  match o with
  | Returned None =>
      ∃ old,
        kube.objects s !! keyOf ref = Some old
        ∧ (kube.hasFinalizers old = false →
           kube.objects s1 = delete (keyOf ref) (kube.objects s))
  | Returned (Some _) => s1 = s
  | Panicked _ => True
  end.
Proof.
  unfold deleteSourceOnce. simpl.
  destruct (kube.get _ _ _ s) as [r sg] eqn:Hg.
  apply kube_get_inv in Hg as [-> Hg]. destruct r as [u|e]; simpl.
  - destruct (kube.delete _ _ _ s) as [r sd] eqn:Hd.
    apply kube_delete_inv in Hd. intros H; simplify_eq.
    by destruct r.
  - intros H; by simplify_eq.
Qed.

Lemma exec_GetResource ref s o s1 t :
  exec kube.api (GetResource ref) s = (o, s1, t) →
  s1 = s
  ∧ ∃ u re err,
      o = Returned (u, re, err)
      ∧ (err = None → re = true →
         ∃ doc, u = Some doc ∧ v1.Name ref ≠ "" ∧ kube.objects s !! keyOf ref = Some doc)
      ∧ (err = None → re = false →
         v1.Name ref ≠ "" ∧ kube.objects s !! keyOf ref = None).
Proof.
  unfold GetResource. simpl.
  destruct (kube.get _ _ _ s) as [r sg] eqn:Hg.
  apply kube_get_inv in Hg as [-> Hg]. destruct r as [u|e]; simpl.
  - intros H; simplify_eq. split; [done|]. eexists _, _, _. split; [done|].
    split; [|done]. intros _ _. destruct Hg. eauto.
  - destruct Hg as [_ Hg]. destruct (errors.IsNotFound e) eqn:Hnf; simpl;
      intros H; simplify_eq; (split; [done|]); eexists _, _, _; (split; [done|]);
      split; try done. intros _ _. by apply Hg.
Qed.

Lemma exec_CreateResource ref u s o s1 t :
  exec kube.api (CreateResource ref u) s = (o, s1, t) →
  ∃ d err,
    o = Returned (d, err)
    ∧ (err = None →
       d = Some (kube.withResourceVersion u (S (kube.revision s)))
       ∧ kube.objects s !! (gvrOf ref, v1.Namespace ref, unstructured.GetName u) = None
       ∧ kube.objects s1
         = <[(gvrOf ref, v1.Namespace ref, unstructured.GetName u) :=
               kube.withResourceVersion u (S (kube.revision s))]> (kube.objects s)).
Proof.
  unfold CreateResource. simpl.
  destruct (kube.create _ _ _ s) as [r sc] eqn:Hc.
  apply kube_create_inv in Hc. destruct r as [stored|e]; simpl.
  - intros H; simplify_eq. destruct Hc as (? & -> & ?). eexists _, _. by repeat split.
  - intros H; simplify_eq. eexists _, _. by split.
Qed.

Lemma exec_UpdateCompositeWithNewClaim xr xrcu s s1 t :
  exec kube.api (UpdateCompositeWithNewClaim xr xrcu) s = (Returned None, s1, t) →
  ∃ xrRef xru d,
    xr = Some xrRef
    ∧ v1.Name xrRef ≠ ""
    ∧ kube.objects s !! compositeKey xrRef = Some xru
    ∧ repaired xrcu xru = Some d
    ∧ kube.objects s1
      = <[(gvrOf xrRef, "", unstructured.GetName d) :=
            kube.withResourceVersion d (S (kube.revision s))]> (kube.objects s).
Proof.
  destruct xr as [xrRef|]; [|done].
  unfold UpdateCompositeWithNewClaim, retry.RetryOnConflict, retry.DefaultRetrySteps.
  cbv beta iota. rewrite exec_bind.
  destruct (exec kube.api (retry.OnError 5 _ _ _) s) as [[[[e|]|msg] sf] tf] eqn:E;
    simpl; intros H; simplify_eq.
  apply exec_OnError_None in E.
  - apply exec_updateCompositeOnce in E as (xru & d & ? & ? & ? & ?).
    by exists xrRef, xru, d.
  - intros e sf' tf' Hp. by apply exec_updateCompositeOnce in Hp.
Qed.

Lemma exec_DeleteSourceClaim ref s s2 t :
  exec kube.api (DeleteSourceClaim ref) s = (Returned None, s2, t) →
  ∃ u sm old,
    v1.Name ref ≠ ""
    ∧ kube.objects s !! keyOf ref = Some u
    ∧ kube.objects sm
      = <[(gvrOf ref, v1.Namespace ref, unstructured.GetName (severed u)) :=
            kube.withResourceVersion (severed u) (S (kube.revision s))]> (kube.objects s)
    ∧ kube.objects sm !! keyOf ref = Some old
    ∧ (kube.hasFinalizers old = false →
       kube.objects s2 = delete (keyOf ref) (kube.objects sm)).
Proof.
  unfold DeleteSourceClaim, retry.RetryOnConflict, retry.DefaultRetrySteps.
  rewrite exec_bind.
  destruct (exec kube.api (retry.OnError 5 _ (clearSourceOnce ref) _) s)
    as [[[[e|]|msg] sm] tm] eqn:E1; cbv beta iota; try (simpl; intros H; by simplify_eq).
  rewrite exec_bind.
  destruct (exec kube.api (retry.OnError 5 _ (deleteSourceOnce ref) _) sm)
    as [[[[e|]|msg] sd] td] eqn:E2; simpl; intros H; simplify_eq.
  apply exec_OnError_None in E1;
    [|intros e sf' tf' Hp; by apply exec_clearSourceOnce in Hp].
  apply exec_OnError_None in E2;
    [|intros e sf' tf' Hp; by apply exec_deleteSourceOnce in Hp].
  apply exec_clearSourceOnce in E1 as (u & ? & ? & ?).
  apply exec_deleteSourceOnce in E2 as (old & ? & ?).
  by exists u, sm, old.
Qed.

(** *** The documents along the way *)

Lemma objectShaped_inv u :
  objectShaped u = true →
  (∃ m, u !! "metadata" = Some (VObj m))
  ∧ match u !! "spec" with None | Some VNull | Some (VObj _) => True | _ => False end.
Proof.
  unfold objectShaped. destruct (u !! "metadata") as [[| | | | |m]|]; try done.
  intros H. split; [eauto|]. by destruct (u !! "spec") as [[]|].
Qed.

Lemma withResourceVersion_metadata u m rev :
  u !! "metadata" = Some (VObj m) →
  kube.withResourceVersion u rev
  = <["metadata" := VObj (<["resourceVersion" := VStr (pretty rev)]> m)]> u.
Proof. apply setNestedField_metadata. Qed.

Lemma GetResourceReference_spec u u' :
  u !! "spec" = u' !! "spec" →
  claim.GetResourceReference u = claim.GetResourceReference u'.
Proof. intros H. unfold claim.GetResourceReference. simpl. by rewrite H. Qed.

(** The created claim: the name of the source, the destination
    namespace, the composite reference of the source. *)
Lemma created_document src m dest rev :
  src !! "metadata" = Some (VObj m) → dest ≠ "" →
  let created := kube.withResourceVersion (destinationOf src dest) rev in
  unstructured.GetName (destinationOf src dest) = unstructured.GetName src
  ∧ unstructured.GetNamespace created = dest
  ∧ claim.GetResourceReference (DeepCopy created) = claim.GetResourceReference src.
Proof.
  intros Hm Hd. simpl.
  rewrite (destinationOf_metadata _ _ _ Hm). destruct (decide (dest = "")); [done|].
  erewrite withResourceVersion_metadata by apply lookup_insert_eq.
  rewrite insert_insert_eq. repeat split.
  - unfold unstructured.GetName.
    erewrite !getNestedString_metadata by (apply lookup_insert_eq || exact Hm).
    by rewrite !lookup_insert_ne by done.
  - unfold unstructured.GetNamespace.
    erewrite getNestedString_metadata by apply lookup_insert_eq.
    rewrite lookup_insert_ne by done. rewrite lookup_insert_ne by done.
    by rewrite lookup_insert_eq.
  - apply GetResourceReference_spec. unfold DeepCopy. by rewrite lookup_insert_ne.
Qed.

(** The repaired composite as stored: the name of the fetched one, the
    label and the claim reference pointing at the namespace of [xrcu]. *)
Lemma repaired_document xrcu xru d rev :
  objectShaped xru = true →
  repaired xrcu xru = Some d →
  unstructured.GetName d = unstructured.GetName xru
  ∧ ∃ labels,
      unstructured.GetLabels (kube.withResourceVersion d rev) = Some labels
      ∧ labels !! claimNamespaceLabel = Some (unstructured.GetNamespace xrcu)
      ∧ fieldpath.GetValue (kube.withResourceVersion d rev) ["spec"; "claimRef"; "namespace"]
        = Some (VStr (unstructured.GetNamespace xrcu)).
Proof.
  intros Hshape Hr. destruct (objectShaped_inv _ Hshape) as [[m Hm] Hspec].
  unfold repaired, DeepCopy in Hr.
  destruct (unstructured.GetLabels _) as [labels|] eqn:Hl; [|done]. simpl in Hr.
  injection Hr as <-.
  assert (Hm' : composite.SetClaimReference xru (claim.GetReference xrcu) !! "metadata"
                = Some (VObj m)).
  { unfold composite.SetClaimReference. by rewrite SetValue_spec_other. }
  destruct (SetValue_spec_shaped xru "claimRef"
              (claim.toJSON (claim.GetReference xrcu)) Hspec) as (sp & Hsp & Hcr).
  unfold unstructured.SetLabels.
  rewrite (setNestedField_metadata _ _ _ _ Hm').
  erewrite withResourceVersion_metadata by apply lookup_insert_eq.
  rewrite insert_insert_eq. split; [|eexists; repeat split].
  - unfold unstructured.GetName.
    erewrite !getNestedString_metadata by (apply lookup_insert_eq || exact Hm).
    by rewrite lookup_insert_ne by done.
  - unfold unstructured.GetLabels, unstructured.NestedStringMap. simpl.
    rewrite lookup_insert_eq. rewrite lookup_insert_ne by done.
    rewrite lookup_insert_eq. apply stringMap_strings.
  - apply lookup_insert_eq.
  - simpl. rewrite lookup_insert_ne by done.
    unfold composite.SetClaimReference. rewrite Hsp.
    rewrite Hcr. unfold claim.toJSON. simpl.
    rewrite !lookup_insert_ne by done. by rewrite lookup_insert_eq.
Qed.

(** The severed claim as stored: the name of the fetched one, and no
    finalizer to hold a delete back. *)
Lemma severed_stored u rev :
  objectShaped u = true →
  unstructured.GetName (severed u) = unstructured.GetName u
  ∧ kube.hasFinalizers (kube.withResourceVersion (severed u) rev) = false.
Proof.
  intros Hshape. destruct (objectShaped_inv _ Hshape) as [[m Hm] Hspec].
  assert (Hm' : claim.SetResourceReference_nil u !! "metadata" = Some (VObj m)).
  { unfold claim.SetResourceReference_nil. by rewrite SetValue_spec_other. }
  unfold severed, DeepCopy, unstructured.SetFinalizers.
  rewrite (setNestedField_metadata _ _ _ _ Hm'). split.
  - unfold unstructured.GetName.
    erewrite !getNestedString_metadata by (apply lookup_insert_eq || exact Hm).
    by rewrite lookup_insert_ne by done.
  - erewrite withResourceVersion_metadata by apply lookup_insert_eq.
    rewrite insert_insert_eq.
    unfold kube.hasFinalizers, unstructured.GetFinalizers. simpl.
    rewrite lookup_insert_eq. rewrite lookup_insert_ne by done.
    by rewrite lookup_insert_eq.
Qed.

Lemma keyOf_claimRef mapping name ns :
  keyOf (claimRef mapping name ns) = (gvrOf (claimRef mapping "" ""), ns, name).
Proof. reflexivity. Qed.

Opaque GetResource CreateResource UpdateCompositeWithNewClaim DeleteSourceClaim.

(** The steps of a run that returns nil on the sequential store, for a
    namespaced type and a source claim that exists. *)
Lemma Run_steps pf c cfg rm res name mapping s s' tr srcDoc :
  GetConfig pf = Ok cfg →
  NewForConfig pf cfg = None →
  NewDiscoveryClientForConfig pf cfg = Ok rm →
  getResourceAndName c = (res, name, None) →
  MappingFor rm res = Ok mapping →
  mappingScope mapping = RESTScopeNameNamespace →
  kube.objects s !! keyOf (claimRef mapping name (Namespace c)) = Some srcDoc →
  exec kube.api (Run pf c) s = (Returned None, s', tr) →
  ∃ s1 s2 t1 t2 t3,
    DestNamespace c ≠ "" ∧ name ≠ ""
    ∧ exec kube.api (CreateResource (claimRef mapping name (DestNamespace c))
                       (destinationOf srcDoc (DestNamespace c))) s
      = (Returned (Some (kube.withResourceVersion
                           (destinationOf srcDoc (DestNamespace c))
                           (S (kube.revision s))), None), s1, t1)
    ∧ exec kube.api
        (UpdateCompositeWithNewClaim
           (claim.GetResourceReference
              (DeepCopy (kube.withResourceVersion
                           (destinationOf srcDoc (DestNamespace c))
                           (S (kube.revision s)))))
           (DeepCopy (kube.withResourceVersion
                        (destinationOf srcDoc (DestNamespace c))
                        (S (kube.revision s))))) s1
      = (Returned None, s2, t2)
    ∧ exec kube.api (DeleteSourceClaim (claimRef mapping name (Namespace c))) s2
      = (Returned None, s', t3).
Proof.
  intros Hcfg Hdyn Hdisc Hname Hmap Hscope Hsrc H.
  unfold Run, NewDynamicClient, NewRestMapper in H.
  rewrite Hcfg, Hdyn in H.
  rewrite exec_bind in H.
  destruct (exec kube.api (GetResource _) s) as [[o1 sa] ta] eqn:E1.
  apply exec_GetResource in E1 as (-> & u1 & re1 & err1 & -> & Hf1 & _).
  cbv beta iota in H. destruct err1 as [e|]; [simpl in H; by simplify_eq|].
  destruct re1; [|simpl in H; by simplify_eq].
  destruct (Hf1 eq_refl eq_refl) as (nsdoc & _ & Hdest & _).
  cbv beta iota in H. rewrite Hdisc, Hname in H. cbv beta iota in H.
  rewrite Hmap in H. cbv beta iota zeta in H.
  rewrite Hscope in H. rewrite bool_decide_eq_true_2 in H by done.
  cbv beta iota delta [negb] in H.
  destruct (exec kube.api (bind (GetResource _) _) s) as [[ob sb] tb] eqn:E2.
  rewrite exec_bind in E2.
  destruct (exec kube.api (GetResource _) s) as [[o2 sa] ta'] eqn:E2'.
  apply exec_GetResource in E2' as (-> & u2 & re2 & err2 & -> & Hf2 & Ha2).
  cbv beta iota in E2. destruct err2 as [e|]; [simpl in E2, H; by simplify_eq|].
  destruct re2; [|destruct (Ha2 eq_refl eq_refl) as [_ Hn]; congruence].
  destruct (Hf2 eq_refl eq_refl) as (doc & -> & Hnm & Hdoc).
  rewrite Hsrc in Hdoc. injection Hdoc as <-.
  cbv beta iota in E2. rewrite exec_bind in E2.
  destruct (exec kube.api (GetResource _) s) as [[o3 sa] ta''] eqn:E3.
  apply exec_GetResource in E3 as (-> & u3 & re3 & err3 & -> & _ & _).
  cbv beta iota in E2. destruct err3 as [e|]; [simpl in E2, H; by simplify_eq|].
  destruct re3; [simpl in E2, H; by simplify_eq|].
  cbv beta iota in E2. rewrite exec_bind in E2.
  destruct (exec kube.api (CreateResource _ _) s) as [[o4 s1] t1] eqn:E4.
  pose proof E4 as E4'.
  apply exec_CreateResource in E4' as (d & err4 & -> & Hc).
  cbv beta iota in E2. destruct err4 as [e|]; [simpl in E2, H; by simplify_eq|].
  destruct (Hc eq_refl) as (-> & _ & _).
  cbv beta iota zeta in E2. rewrite exec_bind in E2.
  destruct (exec kube.api (UpdateCompositeWithNewClaim _ _) s1)
    as [[[[e|]|msg] s2] t2] eqn:E5; [simpl in E2, H; by simplify_eq| |simpl in E2, H; by simplify_eq].
  cbv beta iota in E2. rewrite exec_bind in E2.
  destruct (exec kube.api (DeleteSourceClaim _) s2)
    as [[[[e|]|msg] s3] t3] eqn:E6; [simpl in E2, H; by simplify_eq| |simpl in E2, H; by simplify_eq].
  simpl in E2, H. simplify_eq.
  exists s1, s2, t1, t2, t3. by repeat split.
Qed.

Transparent GetResource CreateResource UpdateCompositeWithNewClaim DeleteSourceClaim.

Lemma GetResource_found ref s doc :
  v1.Name ref ≠ "" → kube.objects s !! keyOf ref = Some doc →
  (exec kube.api (GetResource ref) s).1.1 = Returned (Some doc, true, None).
Proof.
  intros Hn Hd. unfold GetResource, keyOf in *. simpl. unfold kube.get.
  destruct (decide (v1.Name ref = "")); [done|]. by rewrite Hd.
Qed.

Lemma GetResource_absent ref s :
  v1.Name ref ≠ "" → kube.objects s !! keyOf ref = None →
  (exec kube.api (GetResource ref) s).1.1 = Returned (None, false, None).
Proof.
  intros Hn Hd. unfold GetResource, keyOf in *. simpl. unfold kube.get.
  destruct (decide (v1.Name ref = "")); [done|]. by rewrite Hd.
Qed.

(** C1.  On the sequential store, for a type that resolves to a
    namespaced mapping, a source namespace that is not empty, a store
    whose objects are well formed, and with the destination namespace
    present, the source claim present and the destination claim absent:
    when the run returns nil, a fetch of the destination claim finds it,
    a fetch of the source claim reports not-found, and the composite the
    source claim referred to carries the destination namespace both in
    its claim-namespace label and in its claim reference. *)
Theorem C1_successful_migration pf c cfg rm res name mapping s s' tr nsDoc srcDoc :
  GetConfig pf = Ok cfg →
  NewForConfig pf cfg = None →
  NewDiscoveryClientForConfig pf cfg = Ok rm →
  getResourceAndName c = (res, name, None) →
  MappingFor rm res = Ok mapping →
  mappingScope mapping = RESTScopeNameNamespace →
  Namespace c ≠ "" →
  wellFormed s →
  kube.objects s !! keyOf (namespaceRef c) = Some nsDoc →
  kube.objects s !! keyOf (claimRef mapping name (Namespace c)) = Some srcDoc →
  kube.objects s !! keyOf (claimRef mapping name (DestNamespace c)) = None →
  exec kube.api (Run pf c) s = (Returned None, s', tr) →
  (∃ dstDoc,
     (exec kube.api (GetResource (claimRef mapping name (DestNamespace c))) s').1.1
     = Returned (Some dstDoc, true, None))
  ∧ (exec kube.api (GetResource (claimRef mapping name (Namespace c))) s').1.1
    = Returned (None, false, None)
  ∧ ∃ xr xrDoc labels,
      claim.GetResourceReference srcDoc = Some xr
      ∧ kube.objects s' !! compositeKey xr = Some xrDoc
      ∧ unstructured.GetLabels xrDoc = Some labels
      ∧ labels !! claimNamespaceLabel = Some (DestNamespace c)
      ∧ fieldpath.GetValue xrDoc ["spec"; "claimRef"; "namespace"]
        = Some (VStr (DestNamespace c)).
Proof.
  intros Hcfg Hdyn Hdisc Hname Hmap Hscope Hns Hwf _ Hsrc Hdst H.
  destruct (Run_steps _ _ _ _ _ _ _ _ _ _ _ Hcfg Hdyn Hdisc Hname Hmap Hscope Hsrc H)
    as (s1 & s2 & t1 & t2 & t3 & Hd & Hn & Ec & Eu & Ed).
  rewrite keyOf_claimRef in Hsrc, Hdst.
  set (G := gvrOf (claimRef mapping "" "")) in *.
  destruct (Hwf _ _ Hsrc) as [Hshape Hsname]. simpl in Hsname.
  destruct (objectShaped_inv _ Hshape) as [[m Hm] _].
  destruct (created_document srcDoc m (DestNamespace c) (S (kube.revision s)) Hm Hd)
    as (Hcname & Hcns & Hcref).
  (* the destination claim is created *)
  apply exec_CreateResource in Ec as (d0 & err0 & Ec & Hc). injection Ec as <- <-.
  destruct (Hc eq_refl) as (_ & _ & Hs1). clear Hc.
  change (gvrOf (claimRef mapping name (DestNamespace c))) with G in Hs1.
  change (v1.Namespace (claimRef mapping name (DestNamespace c)))
    with (DestNamespace c) in Hs1.
  rewrite Hcname, Hsname in Hs1.
  (* the composite is repaired *)
  apply exec_UpdateCompositeWithNewClaim in Eu
    as (xr & xru & d & Hxr & Hxn & Hxru & Hrep & Hs2).
  rewrite Hcref in Hxr. unfold compositeKey in Hxru.
  rewrite Hs1 in Hxru. rewrite lookup_insert_ne in Hxru by congruence.
  destruct (Hwf _ _ Hxru) as [Hxshape Hxname]. simpl in Hxname.
  destruct (repaired_document _ _ _ (S (kube.revision s1)) Hxshape Hrep)
    as (Hdname & labels & Hlab & Hkey & Hcr).
  rewrite Hdname, Hxname in Hs2. unfold DeepCopy in Hkey, Hcr.
  rewrite Hcns in Hkey, Hcr.
  (* the source claim is severed and deleted *)
  apply exec_DeleteSourceClaim in Ed as (u & sm & old & _ & Hu & Hsm & Hold & Hs').
  rewrite keyOf_claimRef in Hu, Hold, Hs'. fold G in Hu, Hold, Hs'.
  change (gvrOf (claimRef mapping name (Namespace c))) with G in Hsm.
  change (v1.Namespace (claimRef mapping name (Namespace c))) with (Namespace c) in Hsm.
  rewrite Hs2, Hs1 in Hu.
  rewrite lookup_insert_ne in Hu by congruence.
  rewrite lookup_insert_ne in Hu by congruence.
  rewrite Hsrc in Hu. injection Hu as <-.
  destruct (severed_stored srcDoc (S (kube.revision s2)) Hshape) as [Hsevname Hfin].
  rewrite Hsevname, Hsname in Hsm.
  rewrite Hsm, lookup_insert_eq in Hold. injection Hold as <-.
  specialize (Hs' Hfin). rewrite Hsm, Hs2, Hs1 in Hs'.
  rewrite delete_insert_eq in Hs'.
  split; [|split].
  - eexists. apply GetResource_found; [done|].
    rewrite keyOf_claimRef. fold G. rewrite Hs'.
    rewrite lookup_delete_ne by congruence.
    rewrite lookup_insert_ne by congruence.
    apply lookup_insert_eq.
  - apply GetResource_absent; [done|].
    rewrite keyOf_claimRef. fold G. rewrite Hs'. apply lookup_delete_eq.
  - exists xr, (kube.withResourceVersion d (S (kube.revision s1))), labels.
    split; [done|]. split; [|done].
    unfold compositeKey. rewrite Hs'.
    rewrite lookup_delete_ne by congruence. apply lookup_insert_eq.
Qed.

Lemma scenario_ready_wellFormed : wellFormed scenario.ready.
Proof.
  intros k u Hl. apply elem_of_list_to_map_2 in Hl.
  repeat (apply elem_of_cons in Hl as [Hl|Hl];
          [injection Hl as -> ->; vm_compute; split; reflexivity|]).
  by apply elem_of_nil in Hl.
Qed.

Lemma C1_successful_migration_witness :
  (∃ dstDoc,
     (exec kube.api
           (GetResource (claimRef (scenario.tenantMapping RESTScopeNameNamespace)
                                  "dev-teams" "dest-ns"))
           (exec kube.api (Run (scenario.platform RESTScopeNameNamespace) scenario.cmd)
                 scenario.ready).1.2).1.1
     = Returned (Some dstDoc, true, None))
  ∧ (exec kube.api
          (GetResource (claimRef (scenario.tenantMapping RESTScopeNameNamespace)
                                 "dev-teams" "src-ns"))
          (exec kube.api (Run (scenario.platform RESTScopeNameNamespace) scenario.cmd)
                scenario.ready).1.2).1.1
    = Returned (None, false, None).
Proof.
  pose proof (exec_split kube.api
                (Run (scenario.platform RESTScopeNameNamespace) scenario.cmd)
                scenario.ready) as Hx.
  assert (Ho : (exec kube.api
                      (Run (scenario.platform RESTScopeNameNamespace) scenario.cmd)
                      scenario.ready).1.1 = Returned None)
    by (vm_compute; reflexivity).
  rewrite Ho in Hx.
  destruct (C1_successful_migration
              (scenario.platform RESTScopeNameNamespace) scenario.cmd
              (mkConfig "https://cluster.example.com")
              (scenario.mapper RESTScopeNameNamespace)
              "tenant.k8s.example.com" "dev-teams"
              (scenario.tenantMapping RESTScopeNameNamespace)
              scenario.ready _ _ scenario.nsDoc (scenario.claimDoc "src-ns")
              eq_refl eq_refl eq_refl
              ltac:(vm_compute; reflexivity) ltac:(vm_compute; reflexivity)
              eq_refl ltac:(discriminate) scenario_ready_wellFormed
              ltac:(vm_compute; reflexivity) ltac:(vm_compute; reflexivity)
              ltac:(vm_compute; reflexivity) Hx)
    as (Hdst & Hsrc & _).
  exact (conj Hdst Hsrc).
Defined.

(** * Further properties of the two packages *)

(** ** Tokens *)

Lemma Split_length s sep : length (strings.Split s sep) = S (occurrences sep s).
Proof.
  induction s as [|c s IH]; simpl; [done|].
  destruct (decide (c = sep)); simpl; [by rewrite IH|].
  destruct (strings.Split s sep); simpl in *; lia.
Qed.

Lemma Split_head s sep p ps :
  strings.Split s sep = p :: ps →
  contains sep p = false
  ∧ (ps = [] → s = p)
  ∧ (∀ q qs, ps = q :: qs →
       ∃ s', s = p +:+ String sep s' ∧ strings.Split s' sep = q :: qs).
Proof.
  revert p ps. induction s as [|c s IH]; simpl; intros p ps H.
  - simplify_eq. repeat split; done.
  - destruct (decide (c = sep)) as [->|Hc].
    + simplify_eq. repeat split; try done.
      * intros E. pose proof (Split_length s sep) as Hl. rewrite E in Hl. done.
      * intros q qs E. exists s. by split.
    + destruct (strings.Split s sep) as [|p' ps'] eqn:E.
      { pose proof (Split_length s sep) as Hl. by rewrite E in Hl. }
      simplify_eq. destruct (IH _ _ eq_refl) as (Hp & Hnil & Hcons).
      repeat split.
      * simpl. rewrite Hp. by rewrite bool_decide_eq_false_2.
      * intros ->. by rewrite (Hnil eq_refl).
      * intros q qs ->. destruct (Hcons _ _ eq_refl) as (s' & -> & Hs').
        exists s'. by split.
Qed.

(** X1.  A token that is empty or holds two slashes or more is refused as
    an invalid resource, whatever the separate name. *)
Theorem getResourceAndName_invalid c :
  Claim c = "" ∨ (2 ≤ occurrences "/" (Claim c))%nat →
  getResourceAndName c = ("", "", Some (errors.New errInvalidResource)).
Proof.
  intros H. unfold getResourceAndName.
  destruct (decide (Claim c = "")) as [|Hne]; [done|].
  destruct H as [|H]; [done|].
  pose proof (Split_length (Claim c) "/") as Hl.
  destruct (strings.Split (Claim c) "/") as [|a [|b [|d l]]]; simpl in Hl; try done; lia.
Qed.

Lemma getResourceAndName_invalid_witness :
  getResourceAndName (mkCmd "tenant/dev/teams" "default" "dest" "")
  = ("", "", Some (errors.New errInvalidResource)).
Proof.
  apply getResourceAndName_invalid. right. vm_compute. lia.
Defined.

(** X2.  What an accepted token gives back: the type holds no slash; with
    a separate name, the type is the whole token and the name is the
    separate one; without, the token is the type, a slash and the name,
    and that name, which may be empty, holds no slash. *)
Theorem getResourceAndName_accepted c res name :
  getResourceAndName c = (res, name, None) →
  Claim c ≠ "" ∧ contains "/" res = false
  ∧ ((Name c ≠ "" ∧ res = Claim c ∧ name = Name c)
     ∨ (Name c = "" ∧ Claim c = res +:+ "/" +:+ name ∧ contains "/" name = false)).
Proof.
  unfold getResourceAndName.
  destruct (decide (Claim c = "")) as [|Hne]; [done|].
  destruct (strings.Split (Claim c) "/") as [|a [|b [|d l]]] eqn:E; try done.
  - destruct (decide (Name c = "")); [done|]. intros H; simplify_eq.
    destruct (Split_head _ _ _ _ E) as (Ha & Hnil & _).
    split; [done|]. split; [done|]. left. by rewrite (Hnil eq_refl).
  - destruct (decide (Name c ≠ "")) as [|Hn]; [done|]. intros H; simplify_eq.
    apply dec_stable in Hn.
    destruct (Split_head _ _ _ _ E) as (Ha & _ & Hcons).
    destruct (Hcons _ _ eq_refl) as (s' & Hs & E').
    destruct (Split_head _ _ _ _ E') as (Hb & Hnil & _).
    rewrite (Hnil eq_refl) in Hs.
    split; [done|]. split; [done|]. right. by repeat split.
Qed.

Lemma getResourceAndName_accepted_witness :
  contains "/" "tenant.k8s.example.com" = false
  ∧ Claim scenario.cmd = "tenant.k8s.example.com" +:+ "/" +:+ "dev-teams".
Proof.
  destruct (getResourceAndName_accepted scenario.cmd "tenant.k8s.example.com" "dev-teams"
              ltac:(vm_compute; reflexivity)) as (_ & Hres & [(Hn & _)|(_ & Hc & _)]).
  - exfalso. by apply Hn.
  - exact (conj Hres Hc).
Defined.

(** ** Single calls *)



(** X4.  [ResourceExists] is [GetResource] without the document: the
    runs of the one are the runs of the other, with the same call and
    the same answer, and it returns the found flag and the error of
    [GetResource]. *)
Theorem ResourceExists_as_GetResource ref tr o :
  runs (ResourceExists ref) tr o ↔
  ∃ o', runs (GetResource ref) tr o' ∧ o = existence o'.
Proof.
  unfold ResourceExists. split.
  - intros H.
    apply runs_bind_inv in H as [(t1 & [[u re] err] & t2 & H1 & H2 & ->)|(msg & H1 & ->)].
    + inv H2. rewrite app_nil_r. by eexists.
    + by eexists.
  - intros (o' & H & ->). destruct o' as [[[u re] err]|msg].
    + rewrite <- (app_nil_r tr).
      apply (runs_bind _ _ _ (u, re, err)); [exact H|constructor].
    + by apply runs_bind_panic.
Qed.

Lemma ResourceExists_as_GetResource_witness :
  runs (ResourceExists (objectReference "Namespace" "v1" "dest-ns" ""))
       [EvGet scenario.namespaces "" "dest-ns" (Ok scenario.nsDoc)]
       (Returned (true, None)).
Proof.
  apply (proj2 (ResourceExists_as_GetResource _ _ _)).
  exists (Returned (Some scenario.nsDoc, true, None)).
  split; [|reflexivity].
  apply (runs_Get _ _ _ _ (Ok scenario.nsDoc)). apply runs_Ret.
Defined.

(** X5.  [CreateResource] makes one call: the creation of the document
    it was given, as it was given, in the namespace of the reference.
    An accepted creation returns the stored document; a refused one
    returns no document and the server's error under the message
    "unable to create new claim", which keeps the server's reason. *)
Theorem CreateResource_answer ref u tr o :
  runs (CreateResource ref u) tr o →
  ∃ r, tr = [EvCreate (gvrOf ref) (v1.Namespace ref) u r]
       ∧ ((∃ d, r = Ok d ∧ o = Returned (Some d, None))
          ∨ (∃ e, r = Err e
                  ∧ o = Returned (None, Some (withMessage e "unable to create new claim"))
                  ∧ errors.ReasonForError (withMessage e "unable to create new claim")
                    = errors.ReasonForError e)).
Proof.
  unfold CreateResource, Create. intros H. repeat run_step; eexists;
    (split; [reflexivity|]); [left|right]; eauto.
Qed.

Lemma CreateResource_answer_witness :
  ∃ r, (exec kube.api
          (CreateResource (objectReference "Tenant" "k8s.example.com/v1" "dev-teams" "dest-ns")
             (scenario.claimDoc "dest-ns"))
          scenario.taken).2
       = [EvCreate scenario.tenants "dest-ns" (scenario.claimDoc "dest-ns") r].
Proof.
  destruct (CreateResource_answer _ _ _ _
              (exec_runs kube.api _ _ _ _ _
                 (exec_split kube.api
                    (CreateResource
                       (objectReference "Tenant" "k8s.example.com/v1" "dev-teams" "dest-ns")
                       (scenario.claimDoc "dest-ns"))
                    scenario.taken)))
    as (r & Htr & _).
  exists r. exact Htr.
Defined.

(** ** Resolving the type *)

Lemma Empty_true gvk :
  Empty gvk = true → gvkGroup gvk = "" ∧ gvkVersion gvk = "" ∧ gvkKind gvk = "".
Proof.
  unfold Empty. intros H.
  apply andb_true_iff in H as [H Hk]. apply andb_true_iff in H as [Hg Hv].
  by repeat split; eapply bool_decide_eq_true_1.
Qed.

(** The lookups of [MappingFor], in the order it makes them. *)
Lemma MappingFor_cases rmapper arg :
  (∃ gvr, Empty (KindFor rmapper gvr).1 = false
          ∧ MappingFor rmapper arg
            = RESTMapping_ rmapper (GVKGroupKind (KindFor rmapper gvr).1)
                (gvkVersion (KindFor rmapper gvr).1))
  ∨ (Empty (KindFor rmapper (GRWithVersion (ParseGroupResource arg) "")).1 = true
     ∧ ((∃ gk version mapping,
           RESTMapping_ rmapper gk version = Ok mapping
           ∧ MappingFor rmapper arg = Ok mapping)
        ∨ MappingFor rmapper arg
          = match RESTMapping_ rmapper (ParseGroupKind arg) "" with
            | Ok mapping => Ok mapping
            | Err err =>
                if errors.IsNoMatchError err
                then Err (errorString
                            (errFmtResourceTypeNotFound (grResource (ParseGroupResource arg))))
                else Err err
            end)).
Proof.
  unfold MappingFor, ParseResourceArg, ParseKindArg. cbv zeta.
  set (first := match match splitN3 arg with
                      | Some (r, v, g) => Some (mkGVR g v r) | None => None end with
                | Some gvr => (KindFor rmapper gvr).1
                | None => mkGVK "" "" ""
                end).
  destruct (Empty first) eqn:E1.
  - destruct (Empty (KindFor rmapper (GRWithVersion (ParseGroupResource arg) "")).1) eqn:E2.
    + right. split; [done|]. simpl.
      destruct (Empty_true _ E2) as (_ & -> & _).
      match goal with
      | |- context [if negb (Empty ?g) then _ else _] => destruct (Empty g)
      end; simpl; [by right|].
      match goal with
      | |- context [match RESTMapping_ rmapper ?gk ?v with _ => _ end] =>
          destruct (RESTMapping_ rmapper gk v) as [mapping|e] eqn:E3
      end; [|by right].
      left. by eexists _, _, _.
    + left. eexists. split; [exact E2|]. simpl. by rewrite ?E2.
  - left. subst first. destruct (splitN3 arg) as [[[r v] g]|]; [|done].
    eexists. split; [exact E1|]. simpl. by rewrite ?E1.
Qed.

(** X6.  A mapping that [MappingFor] returns is an answer of the
    mapper's [RESTMapping]: none is made up, and none is changed on the
    way. *)
Theorem MappingFor_found rmapper arg mapping :
  MappingFor rmapper arg = Ok mapping →
  ∃ gk version, RESTMapping_ rmapper gk version = Ok mapping.
Proof.
  intros H.
  destruct (MappingFor_cases rmapper arg)
    as [(gvr & _ & E)|(_ & [(gk & v & m & Hm & E)|E])]; rewrite E in H.
  - eauto.
  - simplify_eq. eauto.
  - destruct (RESTMapping_ rmapper (ParseGroupKind arg) "") as [m|e] eqn:E'.
    + simplify_eq. eauto.
    + by destruct (errors.IsNoMatchError e).
Qed.

Lemma MappingFor_found_witness :
  ∃ gk version,
    RESTMapping_ (scenario.mapper RESTScopeNameNamespace) gk version
    = Ok (scenario.tenantMapping RESTScopeNameNamespace).
Proof.
  exact (MappingFor_found (scenario.mapper RESTScopeNameNamespace)
           "tenant.k8s.example.com" (scenario.tenantMapping RESTScopeNameNamespace)
           ltac:(vm_compute; reflexivity)).
Defined.



Lemma ParseGroupVersion_GroupVersionString group version :
  contains "/" group = false → contains "/" version = false →
  ParseGroupVersion (GroupVersionString group version) = Some (group, version).
Proof.
  intros Hg Hv. unfold GroupVersionString, ParseGroupVersion.
  destruct (decide (group = "")) as [->|Hne].
  - destruct (decide (version = "" ∨ version = "/")) as [[->| ->]|_]; [done..|].
    by rewrite (Split_without _ _ Hv).
  - change (group +:+ "/" +:+ version) with (group +:+ String "/" version).
    destruct (decide (_ ∨ _)) as [[E|E]|_].
    + by apply append_nonempty in E.
    + destruct group as [|c [|c' g]]; simplify_eq/=.
    + by rewrite (Split_at _ _ _ Hg), (Split_without _ _ Hv).
Qed.

(** X8.  Where [Run] looks for a claim.  For a mapping whose group and
    version hold no slash, the claim is addressed under the group and
    the version of the mapping's kind and under the resource spelled as
    that kind in lower case followed by an "s", in the namespace and
    under the name given: the resource name that the mapper reports
    plays no part. *)
Theorem keyOf_claimRef_kind mapping name ns :
  contains "/" (gvkGroup (mappingGroupVersionKind mapping)) = false →
  contains "/" (gvkVersion (mappingGroupVersionKind mapping)) = false →
  keyOf (claimRef mapping name ns)
  = (mkGVR (gvkGroup (mappingGroupVersionKind mapping))
           (gvkVersion (mappingGroupVersionKind mapping))
           (strings.ToLower (gvkKind (mappingGroupVersionKind mapping)) +:+ "s"),
     ns, name).
Proof.
  intros Hg Hv. unfold keyOf, gvrOf, claimRef, objectReference, v1.GroupVersionKind,
    FromAPIVersionAndKind. simpl.
  by rewrite (ParseGroupVersion_GroupVersionString _ _ Hg Hv).
Qed.

Lemma keyOf_claimRef_kind_witness :
  keyOf (claimRef (mkMapping (mkGVR "k8s.example.com" "v1" "policies")
                     (mkGVK "k8s.example.com" "v1" "Policy") RESTScopeNameNamespace)
           "default-deny" "src-ns")
  = (mkGVR "k8s.example.com" "v1" "policys", "src-ns", "default-deny").
Proof.
  exact (keyOf_claimRef_kind
           (mkMapping (mkGVR "k8s.example.com" "v1" "policies")
              (mkGVK "k8s.example.com" "v1" "Policy") RESTScopeNameNamespace)
           "default-deny" "src-ns" eq_refl eq_refl).
Defined.

(** ** The orchestrator, stage by stage *)

Lemma NewDynamicClient_None pf cfg :
  NewDynamicClient pf cfg = None → NewForConfig pf cfg = None.
Proof. unfold NewDynamicClient. by destruct (NewForConfig pf cfg). Qed.

Lemma NewRestMapper_Ok pf cfg rm :
  NewRestMapper pf cfg = Ok rm → NewDiscoveryClientForConfig pf cfg = Ok rm.
Proof.
  unfold NewRestMapper. destruct (NewDiscoveryClientForConfig pf cfg); congruence.
Qed.

Opaque UpdateCompositeWithNewClaim DeleteSourceClaim.

(** Every run of [Run] either ends within its first three calls, which
    are fetches, or goes through the creation of the destination claim,
    the repair of the composite and the retirement of the source claim,
    each stage entered only when the one before returned nil. *)
Lemma Run_stages pf c tr o :
  runs (Run pf c) tr o →
  (noMutation tr ∧ (length tr ≤ 3)%nat ∧ ∃ err, o = Returned err)
  ∨ ∃ cfg rm res name mapping nsdoc src e r rest,
      GetConfig pf = Ok cfg ∧ NewForConfig pf cfg = None
      ∧ NewDiscoveryClientForConfig pf cfg = Ok rm
      ∧ getResourceAndName c = (res, name, None)
      ∧ MappingFor rm res = Ok mapping
      ∧ mappingScope mapping = RESTScopeNameNamespace
      ∧ errors.IsNotFound e = true
      ∧ tr = namespaceGet c (Ok nsdoc)
             :: EvGet (gvrOf (claimRef mapping name (Namespace c))) (Namespace c) name (Ok src)
             :: EvGet (gvrOf (claimRef mapping name (DestNamespace c))) (DestNamespace c) name
                  (Err e)
             :: EvCreate (gvrOf (claimRef mapping name (DestNamespace c))) (DestNamespace c)
                  (destinationOf src (DestNamespace c)) r
             :: rest
      ∧ ((∃ ce, r = Err ce ∧ rest = []
                ∧ o = Returned (Some (withMessage (withMessage ce "unable to create new claim")
                                        errCreateDestClaim)))
         ∨ ∃ d t1 o1 t2,
             r = Ok d ∧ rest = t1 ++ t2
             ∧ runs (UpdateCompositeWithNewClaim (claim.GetResourceReference d) d) t1 o1
             ∧ ((∃ msg, o1 = Panicked msg ∧ t2 = [] ∧ o = Panicked msg)
                ∨ (∃ ue, o1 = Returned (Some ue) ∧ t2 = []
                         ∧ o = Returned (Some (withMessage ue "unable to update composite")))
                ∨ (o1 = Returned None
                   ∧ ∃ o2, runs (DeleteSourceClaim (claimRef mapping name (Namespace c))) t2 o2
                           ∧ o = match o2 with
                                 | Returned None => Returned None
                                 | Returned (Some de) =>
                                     Returned (Some (withMessage de
                                                       "unable to delete source claim"))
                                 | Panicked msg => Panicked msg
                                 end))).
Proof.
  intros H. unfold Run in H. repeat run_step.
  all: try (left; split; [by repeat constructor|split; [simpl; lia|by eauto]]).
  all: right; eexists _, _, _, _, _, _, _, _, _, _;
    (split; [reflexivity|]);
    (split; [by apply NewDynamicClient_None|]);
    (split; [by apply NewRestMapper_Ok|]);
    (split; [reflexivity|]); (split; [eassumption|]);
    (split; [by apply negb_false_iff, bool_decide_eq_true_1 in Heqb|]);
    (split; [eassumption|]); (split; [reflexivity|]).
  - right.
    match goal with
    | H : runs (bind (UpdateCompositeWithNewClaim _ _) _) _ _ |- _ =>
        apply runs_bind_inv in H as [(tA & rA & tB & HA & HB & ->)|(msg & HA & ->)]
    end.
    + eexists _, tA, _, tB. split; [reflexivity|]. split; [reflexivity|].
      split; [exact HA|]. destruct rA as [ue|].
      * inv HB. right; left. eauto.
      * right; right. split; [done|].
        apply runs_bind_inv in HB as [(tC & rC & tD & HC & HD & ->)|(msg & HC & ->)].
        -- exists (Returned rC). destruct rC; inv HD; by rewrite app_nil_r.
        -- by exists (Panicked msg).
    + eexists _, _, _, []. split; [reflexivity|]. split; [by rewrite app_nil_r|].
      split; [exact HA|]. left. eauto.
  - left. eauto.
Qed.

Transparent UpdateCompositeWithNewClaim DeleteSourceClaim.

(** *** What the two mutations call *)

Lemma OnError_length fn k n rt last tr o :
  (∀ t o, runs fn t o → (length t ≤ k)%nat) →
  runs (retry.OnError n rt fn last) tr o → (length tr ≤ n * k)%nat.
Proof.
  intros Hfn. revert last tr o. induction n as [|n IH]; intros last tr o H.
  - inv H. simpl. lia.
  - apply (OnError_unfold fn) in H
      as [(msg & H & _)|[(H & _)|[(e & H & _)|(t1 & t2 & e & H1 & _ & -> & H2)]]];
      try (specialize (Hfn _ _ H); lia).
    rewrite length_app. specialize (Hfn _ _ H1). specialize (IH _ _ _ H2). lia.
Qed.

Lemma OnError_returns fn n rt last tr o :
  (∀ t o, runs fn t o → ∃ err, o = Returned err) →
  runs (retry.OnError n rt fn last) tr o → ∃ err, o = Returned err.
Proof.
  intros Hfn. revert last tr o. induction n as [|n IH]; intros last tr o H.
  - inv H. eauto.
  - apply (OnError_unfold fn) in H
      as [(msg & H & ->)|[(H & ->)|[(e & H & _ & ->)|(t1 & t2 & e & H1 & _ & -> & H2)]]];
      eauto.
Qed.

Lemma passOf_length gvr ns name transform tr o :
  passOf gvr ns name transform tr o → (length tr ≤ 2)%nat.
Proof.
  intros [(e & -> & _)|[(u & msg & -> & _)|(u & d & r & -> & _)]]; simpl; lia.
Qed.

(** The composite repair fetches and updates, ten calls at most. *)
Lemma UpdateComposite_calls xr xrcu tr o :
  runs (UpdateCompositeWithNewClaim xr xrcu) tr o →
  Forall (λ e, isGet e || isUpdate e = true) tr ∧ (length tr ≤ 10)%nat.
Proof.
  destruct xr as [xrRef|]; intros H.
  - apply UpdateComposite_loop in H. split.
    + exact (retry_fetches_and_updates _ _ _ _ _ (updateCompositeOnce_pass xrRef xrcu)
               _ _ _ _ _ H).
    + apply (OnError_length _ 2) in H; [exact H|].
      intros t o' Ht. eapply passOf_length. by apply updateCompositeOnce_pass.
  - inv H. split; [constructor|simpl; lia].
Qed.

(** Source retirement fetches, updates and deletes, twenty calls at most,
    and it returns. *)
Lemma DeleteSourceClaim_calls ref tr o :
  runs (DeleteSourceClaim ref) tr o →
  Forall (λ e, isCreate e = false) tr ∧ (length tr ≤ 20)%nat ∧ ∃ err, o = Returned err.
Proof.
  unfold DeleteSourceClaim, retry.RetryOnConflict, retry.DefaultRetrySteps. intros H.
  assert (Hc : ∀ t o', runs (clearSourceOnce ref) t o' →
                       (length t ≤ 2)%nat ∧ ∃ err, o' = Returned err).
  { intros t o' Ht. split.
    - eapply passOf_length. by apply clearSourceOnce_pass.
    - destruct (clearSourceOnce_pass _ _ _ Ht)
        as [(e & _ & ->)|[(u & msg & _ & ? & _)|(u & d & r & _ & _ & ->)]]; eauto; done. }
  assert (Hd : ∀ t o', runs (deleteSourceOnce ref) t o' →
                       (length t ≤ 2)%nat ∧ ∃ err, o' = Returned err).
  { intros t o' Ht.
    destruct (deleteSourceOnce_pass _ _ _ Ht) as [(e & -> & ->)|(cur & r & -> & ->)];
      (split; [simpl; lia|eauto]). }
  assert (Hg1 : ∀ t o', runs (retry.OnError 5 errors.IsConflict (clearSourceOnce ref) None) t o' →
                        Forall (λ e, isCreate e = false) t).
  { intros t o' Ht.
    eapply Forall_impl;
      [exact (retry_fetches_and_updates _ _ _ _ _ (clearSourceOnce_pass ref) _ _ _ _ _ Ht)|].
    by intros []. }
  assert (Hg2 : ∀ t o', runs (retry.OnError 5 errors.IsConflict (deleteSourceOnce ref) None) t o' →
                        Forall (λ e, isCreate e = false) t).
  { intros t o' Ht. pattern t. eapply OnError_trace_ind; [| |exact Ht]; [constructor|].
    intros t1 o1 t2 H1 IH. apply Forall_app. split; [|done].
    destruct (deleteSourceOnce_pass _ _ _ H1) as [(e & -> & _)|(cur & r & -> & _)];
      by repeat constructor. }
  apply runs_bind_inv in H as [(t1 & a & t2 & H1 & H2 & ->)|(msg & H1 & ->)].
  - pose proof (Hg1 _ _ H1) as G1.
    pose proof (OnError_length _ 2 _ _ _ _ _ (λ t o' Ht, proj1 (Hc t o' Ht)) H1) as L1.
    destruct a as [e|].
    + inv H2. rewrite app_nil_r. repeat split; [done|lia|eauto].
    + apply runs_bind_inv in H2 as [(t3 & a & t4 & H3 & H4 & ->)|(msg & H3 & ->)].
      * pose proof (Hg2 _ _ H3) as G2.
        pose proof (OnError_length _ 2 _ _ _ _ _ (λ t o' Ht, proj1 (Hd t o' Ht)) H3) as L2.
        assert (t4 = [] ∧ ∃ err, o = Returned err) as [-> Ho]
          by (destruct a; inv H4; eauto).
        rewrite app_nil_r. repeat split; [by apply Forall_app|rewrite length_app; lia|done].
      * by destruct (OnError_returns _ _ _ _ _ _ (λ t o' Ht, proj2 (Hd t o' Ht)) H3).
  - by destruct (OnError_returns _ _ _ _ _ _ (λ t o' Ht, proj2 (Hc t o' Ht)) H1).
Qed.

(** X9.  Nothing is written before every check has passed.  In a run
    that makes any write at all, the configuration was loaded, the client
    and the mapper were built, the token was accepted and resolved to a
    namespaced type, and the run begins with three fetches and a
    creation: the destination namespace, found; the source claim, found;
    the claim of the same name in the destination namespace, not found;
    and the creation, in the destination namespace, of the document made
    from the source claim just fetched. *)
Theorem Run_first_write pf c tr o pre w post :
  runs (Run pf c) tr o →
  tr = pre ++ w :: post → mutation w = true →
  ∃ cfg rm res name mapping nsdoc src e r rest,
    GetConfig pf = Ok cfg ∧ NewForConfig pf cfg = None
    ∧ NewDiscoveryClientForConfig pf cfg = Ok rm
    ∧ getResourceAndName c = (res, name, None)
    ∧ MappingFor rm res = Ok mapping
    ∧ mappingScope mapping = RESTScopeNameNamespace
    ∧ errors.IsNotFound e = true
    ∧ tr = namespaceGet c (Ok nsdoc)
           :: EvGet (gvrOf (claimRef mapping name (Namespace c))) (Namespace c) name (Ok src)
           :: EvGet (gvrOf (claimRef mapping name (DestNamespace c))) (DestNamespace c) name
                (Err e)
           :: EvCreate (gvrOf (claimRef mapping name (DestNamespace c))) (DestNamespace c)
                (destinationOf src (DestNamespace c)) r
           :: rest.
Proof.
  intros H E Hw.
  destruct (Run_stages _ _ _ _ H)
    as [(Hn & _)|(cfg & rm & res & name & mapping & nsdoc & src & e & r & rest & ? & ?
                  & ? & ? & ? & ? & ? & Htr & _)].
  - subst tr. apply Forall_app in Hn as [_ Hn]. apply Forall_cons in Hn as [Hn _].
    congruence.
  - eexists _, _, _, _, _, _, _, _, _, _. by repeat split.
Qed.

Lemma Run_first_write_witness :
  ∃ e0 e1 e2 e3 rest,
    (exec kube.api (Run (scenario.platform RESTScopeNameNamespace) scenario.cmd)
          scenario.ready).2
    = e0 :: e1 :: e2 :: e3 :: rest
    ∧ isCreate e3 = true.
Proof.
  pose proof (exec_split kube.api
                (Run (scenario.platform RESTScopeNameNamespace) scenario.cmd)
                scenario.ready) as Hx.
  destruct (Run_first_write _ _ _ _
              (take 3 (exec kube.api
                         (Run (scenario.platform RESTScopeNameNamespace) scenario.cmd)
                         scenario.ready).2)
              (EvCreate scenario.tenants "dest-ns"
                 (destinationOf (scenario.claimDoc "src-ns") "dest-ns")
                 (Ok (kube.withResourceVersion
                        (destinationOf (scenario.claimDoc "src-ns") "dest-ns") 9)))
              (drop 4 (exec kube.api
                         (Run (scenario.platform RESTScopeNameNamespace) scenario.cmd)
                         scenario.ready).2)
              (exec_runs _ _ _ _ _ _ Hx) ltac:(vm_compute; reflexivity) eq_refl)
    as (cfg & rm & res & name & mapping & nsdoc & src & e & r & rest & _ & _ & _ & _ & _
        & _ & _ & Htr).
  eexists _, _, _, _, _. split; [exact Htr|reflexivity].
Defined.

(** No creation among the calls that follow the creation of the
    destination claim. *)
Lemma after_create_no_create xr xrcu ref t1 o1 t2 :
  runs (UpdateCompositeWithNewClaim xr xrcu) t1 o1 →
  (t2 = [] ∨ ∃ o2, runs (DeleteSourceClaim ref) t2 o2) →
  Forall (λ e, isCreate e = false) (t1 ++ t2).
Proof.
  intros H1 H2. apply Forall_app. split.
  - eapply Forall_impl; [exact (proj1 (UpdateComposite_calls _ _ _ _ H1))|]. by intros [].
  - destruct H2 as [->|(o2 & H2)]; [constructor|].
    exact (proj1 (DeleteSourceClaim_calls _ _ _ H2)).
Qed.

(** X10.  A refused creation ends the run.  When the server refuses
    the creation of the destination claim, that call is the fourth and
    last of the run: the composite and the source claim are neither
    fetched again nor written.  The error returned is the server's,
    under the messages of [CreateResource] and of [Run], and it keeps
    the server's reason. *)
Theorem Run_create_refused pf c tr o pre g n obj ce post :
  runs (Run pf c) tr o →
  tr = pre ++ EvCreate g n obj (Err ce) :: post →
  post = [] ∧ length pre = 3 ∧ noMutation pre
  ∧ ∃ err, o = Returned (Some err)
           ∧ err = withMessage (withMessage ce "unable to create new claim") errCreateDestClaim
           ∧ errors.ReasonForError err = errors.ReasonForError ce.
Proof.
  intros H E.
  destruct (Run_stages _ _ _ _ H)
    as [(Hn & _)|(cfg & rm & res & name & mapping & nsdoc & src & e & r & rest & _ & _
                  & _ & _ & _ & _ & _ & Htr & Hrest)].
  - subst tr. apply Forall_app in Hn as [_ Hn]. by apply Forall_cons in Hn as [Hn _].
  - subst tr. destruct pre as [|a0 [|a1 [|a2 [|a3 pre]]]]; simplify_eq/=.
    + destruct Hrest as [(ce' & ? & -> & ->)|(d & t1 & o1 & t2 & ? & _)]; simplify_eq.
      split; [done|]. split; [done|]. split; [by repeat constructor|]. eauto.
    + exfalso.
      assert (Hnc : Forall (λ e, isCreate e = false)
                      (pre ++ EvCreate g n obj (Err ce) :: post)).
      { destruct Hrest as [(ce' & _ & Hr & _)|(d & t1 & o1 & t2 & _ & Hr & H1 & Ho)].
        - by destruct pre.
        - rewrite Hr. eapply after_create_no_create; [exact H1|].
          destruct Ho as [(? & _ & -> & _)|[(? & _ & -> & _)|(_ & o2 & H2 & _)]]; eauto. }
      apply Forall_app in Hnc as [_ Hnc]. by apply Forall_cons in Hnc as [Hnc _].
Qed.

Lemma Run_create_refused_witness :
  runs (Run (scenario.platform RESTScopeNameNamespace) scenario.cmd)
       ([namespaceGet scenario.cmd (Ok scenario.nsDoc);
         EvGet scenario.tenants "src-ns" "dev-teams" (Ok (scenario.claimDoc "src-ns"));
         EvGet scenario.tenants "dest-ns" "dev-teams"
           (Err (StatusError StatusReasonNotFound "dev-teams"))]
        ++ EvCreate scenario.tenants "dest-ns"
             (destinationOf (scenario.claimDoc "src-ns") "dest-ns")
             (Err (StatusError StatusReasonAlreadyExists "dev-teams")) :: [])
       (Returned (Some (withMessage
                          (withMessage (StatusError StatusReasonAlreadyExists "dev-teams")
                             "unable to create new claim")
                          errCreateDestClaim)))
  ∧ errors.ReasonForError
      (withMessage (withMessage (StatusError StatusReasonAlreadyExists "dev-teams")
                      "unable to create new claim") errCreateDestClaim)
    = StatusReasonAlreadyExists.
Proof.
  assert (Hr : runs (Run (scenario.platform RESTScopeNameNamespace) scenario.cmd)
                 ([namespaceGet scenario.cmd (Ok scenario.nsDoc);
                   EvGet scenario.tenants "src-ns" "dev-teams"
                     (Ok (scenario.claimDoc "src-ns"));
                   EvGet scenario.tenants "dest-ns" "dev-teams"
                     (Err (StatusError StatusReasonNotFound "dev-teams"))]
                  ++ EvCreate scenario.tenants "dest-ns"
                       (destinationOf (scenario.claimDoc "src-ns") "dest-ns")
                       (Err (StatusError StatusReasonAlreadyExists "dev-teams")) :: [])
                 (Returned (Some (withMessage
                                    (withMessage
                                       (StatusError StatusReasonAlreadyExists "dev-teams")
                                       "unable to create new claim")
                                    errCreateDestClaim)))).
  { apply (runs_Get _ _ _ _ (Ok scenario.nsDoc)).
    apply (runs_Get _ _ _ _ (Ok (scenario.claimDoc "src-ns"))).
    apply (runs_Get _ _ _ _ (Err (StatusError StatusReasonNotFound "dev-teams"))).
    apply (runs_Create _ _ _ _ (Err (StatusError StatusReasonAlreadyExists "dev-teams"))).
    apply runs_Ret. }
  split; [exact Hr|].
  destruct (Run_create_refused _ _ _ _ _ _ _ _ _ _ Hr eq_refl)
    as (_ & _ & _ & err & Ho & -> & Hreason).
  exact Hreason.
Defined.

Lemma filter_isCreate_none (tr : list event) :
  Forall (λ e, isCreate e = false) tr →
  filter (λ e, isCreate e = true) tr = [].
Proof.
  induction 1 as [|x l Hx _ IH]; [done|].
  rewrite filter_cons_False by congruence. exact IH.
Qed.

(** X11.  A run is bounded: whatever the server answers, [Run] makes
    at most 34 calls, three fetches, one creation, and, for each of the
    three retried steps, at most five passes of two calls, and it
    creates at most one object. *)
Theorem Run_bounded pf c tr o :
  runs (Run pf c) tr o →
  (length tr ≤ 34)%nat
  ∧ (length (filter (λ e, isCreate e = true) tr) ≤ 1)%nat.
Proof.
  intros H.
  destruct (Run_stages _ _ _ _ H)
    as [(Hn & Hl & _)|(cfg & rm & res & name & mapping & nsdoc & src & e & r & rest & _ & _
                       & _ & _ & _ & _ & _ & -> & Hrest)].
  - split; [lia|].
    rewrite filter_isCreate_none; [simpl; lia|].
    eapply Forall_impl; [exact Hn|]. by intros [].
  - assert ((length rest ≤ 30)%nat ∧ Forall (λ e, isCreate e = false) rest) as [Hl Hc].
    { destruct Hrest as [(ce' & _ & -> & _)|(d & t1 & o1 & t2 & _ & -> & H1 & Ho)].
      - split; [simpl; lia|constructor].
      - pose proof (proj2 (UpdateComposite_calls _ _ _ _ H1)) as L1.
        assert ((length t2 ≤ 20)%nat
                ∧ (t2 = [] ∨ ∃ o2, runs (DeleteSourceClaim
                                           (claimRef mapping name (Namespace c))) t2 o2))
          as [L2 H2].
        { destruct Ho as [(? & _ & -> & _)|[(? & _ & -> & _)|(_ & o2 & H2 & _)]];
            [split; [simpl; lia|by left]..|].
          split; [exact (proj1 (proj2 (DeleteSourceClaim_calls _ _ _ H2)))|eauto]. }
        split; [rewrite length_app; lia|].
        by eapply after_create_no_create. }
    split; [simpl; lia|].
    rewrite !filter_cons_False by (simpl; congruence).
    rewrite filter_cons_True by done.
    rewrite (filter_isCreate_none _ Hc). simpl. lia.
Qed.

Lemma Run_bounded_witness :
  (length (exec kube.api (Run (scenario.platform RESTScopeNameNamespace) scenario.cmd)
             scenario.ready).2 ≤ 34)%nat.
Proof.
  exact (proj1 (Run_bounded _ _ _ _
                  (exec_runs kube.api _ _ _ _ _
                     (exec_split kube.api
                        (Run (scenario.platform RESTScopeNameNamespace) scenario.cmd)
                        scenario.ready)))).
Defined.

(** *** How the composite repair ends *)

Lemma repaired_None xrcu xru :
  repaired xrcu xru = None ↔ unstructured.GetLabels xru = None.
Proof.
  unfold repaired, DeepCopy.
  rewrite (GetLabels_metadata _ xru) by (by apply SetValue_spec_other).
  by destruct (unstructured.GetLabels xru).
Qed.

(** A retried pass panics on the copy it has just fetched, and every
    call of the loop is addressed to the object of the pass. *)
Lemma retry_panics gvr ns name transform fn n rt last tr msg :
  (∀ tr o, runs fn tr o → passOf gvr ns name transform tr o) →
  runs (retry.OnError n rt fn last) tr (Panicked msg) →
  ∃ pre u, tr = pre ++ [EvGet gvr ns name (Ok u)] ∧ transform u = None.
Proof.
  intros Hfn. revert last tr. induction n as [|n IH]; intros last tr H.
  - inv H.
  - apply (OnError_unfold fn) in H
      as [(m & H & _)|[(_ & ?)|[(e & _ & _ & ?)|(t1 & t2 & e & H1 & _ & -> & H2)]]];
      try done.
    + destruct (Hfn _ _ H)
        as [(? & _ & ?)|[(u & ? & -> & Ht & _)|(? & ? & ? & _ & _ & ?)]]; try done.
      by exists [], u.
    + destruct (IH _ _ H2) as (pre & u & -> & Ht).
      exists (t1 ++ pre), u. by rewrite <- app_assoc.
Qed.

Lemma retry_target gvr ns name transform fn n rt last tr o :
  (∀ tr o, runs fn tr o → passOf gvr ns name transform tr o) →
  runs (retry.OnError n rt fn last) tr o →
  Forall (λ e, target e = (gvr, ns)) tr.
Proof.
  intros Hfn H. pattern tr. eapply OnError_trace_ind; [| |exact H]; [constructor|].
  intros t1 o1 t2 H1 IH. apply Forall_app. split; [|done].
  destruct (Hfn _ _ H1)
    as [(e & -> & _)|[(u & m & -> & _)|(u & d & r & -> & _)]]; by repeat constructor.
Qed.

(** X12.  A run panics in two ways only, both after the server has
    accepted the creation of the destination claim and before the source
    claim is touched: the created claim holds no readable reference to a
    composite, and the run panics right after the creation; or the
    composite it refers to was fetched and carries no label map.  The
    calls after the creation are then fetches and updates addressed to
    the composite's resource at cluster scope; no call deletes. *)
Theorem Run_panics pf c tr msg :
  runs (Run pf c) tr (Panicked msg) →
  ∃ e0 e1 e2 g n obj d rest,
    tr = e0 :: e1 :: e2 :: EvCreate g n obj (Ok d) :: rest
    ∧ Forall (λ e, isGet e || isUpdate e = true) rest
    ∧ ((claim.GetResourceReference d = None ∧ rest = [])
       ∨ ∃ xrRef pre xru,
           claim.GetResourceReference d = Some xrRef
           ∧ rest = pre ++ [EvGet (gvrOf xrRef) "" (v1.Name xrRef) (Ok xru)]
           ∧ unstructured.GetLabels xru = None
           ∧ Forall (λ e, target e = (gvrOf xrRef, "")) rest).
Proof.
  intros H.
  destruct (Run_stages _ _ _ _ H)
    as [(_ & _ & err & ?)|(cfg & rm & res & name & mapping & nsdoc & src & e & r & rest
                           & _ & _ & _ & _ & _ & _ & _ & -> & Hrest)]; [done|].
  destruct Hrest as [(ce & _ & _ & ?)|(d & t1 & o1 & t2 & -> & -> & H1 & Ho)]; [done|].
  destruct Ho as [(m & -> & -> & Hm)|[(? & _ & _ & ?)|(_ & o2 & H2 & Ho)]]; try done.
  - rewrite app_nil_r. eexists _, _, _, _, _, _, d, t1. split; [reflexivity|].
    split; [exact (proj1 (UpdateComposite_calls _ _ _ _ H1))|].
    destruct (claim.GetResourceReference d) as [xrRef|] eqn:Hx.
    + right. apply UpdateComposite_loop in H1.
      destruct (retry_panics _ _ _ _ _ _ _ _ _ _ (updateCompositeOnce_pass xrRef d) H1)
        as (pre & xru & -> & Ht).
      exists xrRef, pre, xru. repeat split; [by apply repaired_None in Ht|].
      exact (retry_target _ _ _ _ _ _ _ _ _ _ (updateCompositeOnce_pass xrRef d) H1).
    + left. by inv H1.
  - destruct (DeleteSourceClaim_calls _ _ _ H2) as (_ & _ & err & ->). by destruct err.
Qed.

Lemma Run_panics_witness :
  ∃ e0 e1 e2 e3 rest,
    (exec kube.api (Run (scenario.platform RESTScopeNameNamespace) scenario.cmd)
          scenario.unlabelled).2
    = e0 :: e1 :: e2 :: e3 :: rest
    ∧ succeeded e3 = true ∧ Forall (λ e, isGet e || isUpdate e = true) rest.
Proof.
  pose proof (exec_split kube.api
                (Run (scenario.platform RESTScopeNameNamespace) scenario.cmd)
                scenario.unlabelled) as Hx.
  assert (Ho : (exec kube.api (Run (scenario.platform RESTScopeNameNamespace) scenario.cmd)
                  scenario.unlabelled).1.1
               = Panicked "assignment to entry in nil map") by (vm_compute; reflexivity).
  rewrite Ho in Hx.
  destruct (Run_panics _ _ _ _ (exec_runs _ _ _ _ _ _ Hx))
    as (e0 & e1 & e2 & g & n & obj & d & rest & Htr & Hrest & _).
  eexists _, _, _, _, _. split; [exact Htr|]. split; [reflexivity|exact Hrest].
Defined.

(** *** How the source claim is retired *)

(** A delete loop that ends without error ends with a delete that the
    server accepted, sent right after a fetch that succeeded. *)
Lemma delete_loop_success ref n rt last tr :
  runs (retry.OnError n rt (deleteSourceOnce ref) last) tr (Returned None) →
  (n = 0 ∧ last = None ∧ tr = [])
  ∨ ∃ pre cur,
      tr = pre ++ [EvGet (gvrOf ref) (v1.Namespace ref) (v1.Name ref) (Ok cur);
                   EvDelete (gvrOf ref) (v1.Namespace ref) (v1.Name ref) None].
Proof.
  revert last tr. induction n as [|n IH]; intros last tr H.
  - inv H. by left.
  - right. apply (OnError_unfold (deleteSourceOnce ref)) in H
      as [(msg & _ & ?)|[(H & _)|[(e & _ & _ & ?)|(t1 & t2 & e & H1 & _ & -> & H2)]]];
      try done.
    + destruct (deleteSourceOnce_pass _ _ _ H) as [(? & _ & ?)|(cur & r & -> & Hr)];
        [done|]. injection Hr as <-. by exists [], cur.
    + destruct (IH _ _ H2) as [(_ & ? & _)|(pre & cur & ->)]; [done|].
      exists (t1 ++ pre), cur. by rewrite <- app_assoc.
Qed.

(** What comes before a delete in source retirement. *)
Lemma DeleteSourceClaim_before_delete ref tr o pre g n nm r post :
  runs (DeleteSourceClaim ref) tr o →
  tr = pre ++ EvDelete g n nm r :: post →
  (g, n, nm) = keyOf ref
  ∧ ∃ p1 u stored p2 cur,
      pre = p1 ++ [EvGet (gvrOf ref) (v1.Namespace ref) (v1.Name ref) (Ok u);
                   EvUpdate (gvrOf ref) (v1.Namespace ref) (severed u) (Ok stored)]
               ++ p2 ++ [EvGet (gvrOf ref) (v1.Namespace ref) (v1.Name ref) (Ok cur)].
Proof.
  intros H E.
  destruct (DeleteSourceClaim_loops _ _ _ H) as (t1 & t2 & o1 & -> & H1 & H2).
  pose proof (retry_fetches_and_updates _ _ _ _ _ (clearSourceOnce_pass ref) _ _ _ _ _ H1)
    as Hgu.
  pose proof (Forall_isUpdate_isDelete _ Hgu) as Hnd.
  destruct (app_split_second (λ e, isDelete e = false) _ _ _
              (EvDelete g n nm r) _ Hnd ltac:(simpl; done) E) as (q & -> & ->).
  destruct H2 as [E2|(-> & o2 & H2)]; [by destruct q|].
  destruct (retry_success _ _ _ _ _ (clearSourceOnce_pass ref) _ _ _ _ H1)
    as [(Hz & _)|(p1 & u & d & stored & -> & Hd)]; [discriminate Hz|].
  simplify_eq.
  destruct (delete_loop_trace _ _ _ _ _ _ H2) as [Hdel _].
  destruct (Hdel _ _ _ _ _ _ eq_refl) as (p2 & cur & -> & -> & -> & ->).
  split; [done|]. exists p1, u, stored, p2, cur. by rewrite <- !app_assoc.
Qed.

(** Source retirement that returns nil ends with the accepted delete. *)
Lemma DeleteSourceClaim_nil ref tr :
  runs (DeleteSourceClaim ref) tr (Returned None) →
  ∃ pre cur,
    tr = pre ++ [EvGet (gvrOf ref) (v1.Namespace ref) (v1.Name ref) (Ok cur);
                 EvDelete (gvrOf ref) (v1.Namespace ref) (v1.Name ref) None].
Proof.
  unfold DeleteSourceClaim, retry.RetryOnConflict, retry.DefaultRetrySteps. intros H.
  apply runs_bind_inv in H as [(t1 & a & t2 & H1 & H2 & ->)|(msg & _ & ?)]; [|done].
  destruct a as [e|]; [by inv H2|].
  apply runs_bind_inv in H2 as [(t3 & a & t4 & H3 & H4 & ->)|(msg & _ & ?)]; [|done].
  destruct a as [e|]; inv H4.
  destruct (delete_loop_success _ _ _ _ _ H3) as [(? & _)|(pre & cur & ->)]; [done|].
  exists (t1 ++ pre), cur. by rewrite app_nil_r, <- app_assoc.
Qed.

(** X13.  The source claim is deleted last.  Before any delete call of
    a run, the server has accepted, in this order: the creation of the
    destination claim; an update of the composite that the created claim
    refers to, carrying the repaired copy of the composite just fetched;
    an update of the source claim carrying the severed copy of the claim
    just fetched.  The delete is addressed to the source claim, that is
    to the object of the type the mapper resolved the token to, under the
    name the token gave, in the source namespace, and it comes right
    after a fetch that found it. *)
Theorem Run_delete_guard pf c tr o pre g n nm r post :
  runs (Run pf c) tr o →
  tr = pre ++ EvDelete g n nm r :: post →
  ∃ cfg rm res mapping name e0 e1 e2 obj d xrRef p0 xru doc stored p1 u stored' p2 cur,
    GetConfig pf = Ok cfg
    ∧ NewDiscoveryClientForConfig pf cfg = Ok rm
    ∧ getResourceAndName c = (res, name, None)
    ∧ MappingFor rm res = Ok mapping
    ∧ (g, n, nm) = keyOf (claimRef mapping name (Namespace c))
    ∧ claim.GetResourceReference d = Some xrRef
    ∧ repaired d xru = Some doc
    ∧ pre = [e0; e1; e2;
             EvCreate (gvrOf (claimRef mapping name (DestNamespace c))) (DestNamespace c)
               obj (Ok d)]
            ++ (p0 ++ [EvGet (gvrOf xrRef) "" (v1.Name xrRef) (Ok xru);
                       EvUpdate (gvrOf xrRef) "" doc (Ok stored)])
            ++ p1 ++ [EvGet g n nm (Ok u); EvUpdate g n (severed u) (Ok stored')]
            ++ p2 ++ [EvGet g n nm (Ok cur)].
Proof.
  intros H E.
  destruct (Run_stages _ _ _ _ H)
    as [(Hn & _)|(cfg & rm & res & name & mapping & nsdoc & src & e & r0 & rest & Hcfg & _
                  & Hrm & Htok & Hmap & _ & _ & Htr & Hrest)].
  { subst tr. apply Forall_app in Hn as [_ Hn]. by apply Forall_cons in Hn as [Hn _]. }
  subst tr. destruct pre as [|a0 [|a1 [|a2 [|a3 pre]]]]; simplify_eq/=.
  destruct Hrest as [(ce & _ & Hr & _)|(d & t1 & o1 & t2 & -> & Hr & H1 & Ho)];
    [by destruct pre|].
  pose proof (Forall_isUpdate_isDelete _ (proj1 (UpdateComposite_calls _ _ _ _ H1))) as Hnd.
  destruct (app_split_second (λ e, isDelete e = false) _ _ _
              (EvDelete g n nm r) _ Hnd ltac:(simpl; done) (eq_sym Hr)) as (q & -> & ->).
  destruct Ho as [(? & _ & ? & _)|[(? & _ & ? & _)|(-> & o2 & H2 & _)]];
    [by destruct q..|].
  destruct (claim.GetResourceReference d) as [xrRef|] eqn:Hx; [|by inv H1].
  apply UpdateComposite_loop in H1.
  destruct (retry_success _ _ _ _ _ (updateCompositeOnce_pass xrRef d) _ _ _ _ H1)
    as [(Hz & _)|(p0 & xru & doc & stored & -> & Hd)]; [discriminate Hz|].
  destruct (DeleteSourceClaim_before_delete _ _ _ _ _ _ _ _ _ H2 eq_refl)
    as (Hk & p1 & u & stored' & p2 & cur & ->).
  injection Hk as -> -> ->.
  eexists cfg, rm, res, mapping, name, _, _, _, _, d, xrRef, p0, xru, doc, stored, p1, u,
    stored', p2, cur.
  repeat split; try done.
Qed.

Lemma Run_delete_guard_witness :
  ∃ pre cur, take 9 (exec kube.api
                       (Run (scenario.platform RESTScopeNameNamespace) scenario.cmd)
                       scenario.ready).2
             = pre ++ [EvGet scenario.tenants "src-ns" "dev-teams" (Ok cur)].
Proof.
  pose proof (exec_split kube.api
                (Run (scenario.platform RESTScopeNameNamespace) scenario.cmd)
                scenario.ready) as Hx.
  destruct (Run_delete_guard _ _ _ _
              (take 9 (exec kube.api
                         (Run (scenario.platform RESTScopeNameNamespace) scenario.cmd)
                         scenario.ready).2)
              scenario.tenants "src-ns" "dev-teams" None []
              (exec_runs _ _ _ _ _ _ Hx) ltac:(vm_compute; reflexivity))
    as (cfg & rm & res & mapping & name & e0 & e1 & e2 & obj & d & xrRef & p0 & xru & doc
        & stored & p1 & u & stored' & p2 & cur & _ & _ & _ & _ & _ & _ & _ & Hpre).
  eexists _, cur. rewrite Hpre. rewrite !app_assoc. reflexivity.
Defined.

(** X14.  When [Run] returns nil.  A run that returns nil either made
    no write at all, within three calls, or ended with the delete of the
    source claim, accepted by the server, right after a fetch that found
    the claim: the object of the type the mapper resolved the token to,
    under the name the token gave, in the source namespace. *)
Theorem Run_nil pf c tr :
  runs (Run pf c) tr (Returned None) →
  (noMutation tr ∧ (length tr ≤ 3)%nat)
  ∨ ∃ cfg rm res mapping name pre cur,
      GetConfig pf = Ok cfg
      ∧ NewDiscoveryClientForConfig pf cfg = Ok rm
      ∧ getResourceAndName c = (res, name, None)
      ∧ MappingFor rm res = Ok mapping
      ∧ tr = pre ++ [EvGet (gvrOf (claimRef mapping name (Namespace c))) (Namespace c) name
                     (Ok cur);
                   EvDelete (gvrOf (claimRef mapping name (Namespace c))) (Namespace c) name
                     None].
Proof.
  intros H.
  destruct (Run_stages _ _ _ _ H)
    as [(Hn & Hl & _)|(cfg & rm & res & name & mapping & nsdoc & src & e & r0 & rest & Hcfg
                       & _ & Hrm & Htok & Hmap & _ & _ & -> & Hrest)]; [by left|].
  right.
  destruct Hrest as [(ce & _ & _ & ?)|(d & t1 & o1 & t2 & -> & -> & H1 & Ho)]; [done|].
  destruct Ho as [(? & _ & _ & ?)|[(? & _ & _ & ?)|(-> & o2 & H2 & Ho)]]; try done.
  assert (o2 = Returned None) as -> by (by destruct o2 as [[?|]|]).
  destruct (DeleteSourceClaim_nil _ _ H2) as (pre & cur & ->).
  eexists cfg, rm, res, mapping, name, (_ :: _ :: _ :: _ :: t1 ++ pre), cur.
  repeat split; try done. simpl. by rewrite <- app_assoc.
Qed.

Lemma Run_nil_witness :
  ∃ pre e1 e2,
    (exec kube.api (Run (scenario.platform RESTScopeNameNamespace) scenario.cmd)
          scenario.ready).2
    = pre ++ [e1; e2]
    ∧ isDelete e2 = true.
Proof.
  pose proof (exec_split kube.api
                (Run (scenario.platform RESTScopeNameNamespace) scenario.cmd)
                scenario.ready) as Hx.
  assert (Ho : (exec kube.api (Run (scenario.platform RESTScopeNameNamespace) scenario.cmd)
                  scenario.ready).1.1 = Returned None) by (vm_compute; reflexivity).
  rewrite Ho in Hx.
  destruct (Run_nil _ _ _ (exec_runs _ _ _ _ _ _ Hx))
    as [[_ Hl]|(cfg & rm & res & mapping & name & pre & cur & _ & _ & _ & _ & Htr)].
  - exfalso. vm_compute in Hl. lia.
  - eexists pre, _, _. split; [exact Htr|reflexivity].
Defined.

(** *** How the retried steps fail *)

(** The error of a retry loop is the answer to its last call; when it is
    a conflict, every pass of the loop has been used. *)
Lemma OnError_error fn n last tr e :
  (∀ t o, runs fn t o → length (filter (λ e, isGet e = true) t) = 1) →
  (∀ t e, runs fn t (Returned (Some e)) → ∃ pre ev, t = pre ++ [ev] ∧ failure ev = Some e) →
  runs (retry.OnError n errors.IsConflict fn last) tr (Returned (Some e)) →
  (tr = [] ∧ n = 0 ∧ last = Some e)
  ∨ ∃ pre ev, tr = pre ++ [ev] ∧ failure ev = Some e
              ∧ (errors.IsConflict e = true →
                 length (filter (λ e, isGet e = true) tr) = n).
Proof.
  intros Hone Hlast. revert last tr. induction n as [|n IH]; intros last tr H.
  - inv H. by left.
  - right. apply (OnError_unfold fn) in H
      as [(msg & _ & ?)|[(_ & ?)|[(e' & H & Hrt & He)|(t1 & t2 & e' & H1 & Hrt & -> & H2)]]];
      try done.
    + simplify_eq. destruct (Hlast _ _ H) as (pre & ev & -> & Hev).
      exists pre, ev. repeat split; [done|]. congruence.
    + destruct (IH _ _ H2) as [(-> & -> & He)|(pre & ev & -> & Hev & Hc)].
      * simplify_eq. destruct (Hlast _ _ H1) as (pre & ev & -> & Hev).
        exists pre, ev. rewrite app_nil_r. repeat split; [done|].
        intros _. exact (Hone _ _ H1).
      * exists (t1 ++ pre), ev. rewrite <- app_assoc. repeat split; [done|].
        intros Hce. rewrite filter_app, length_app, (Hone _ _ H1), (Hc Hce). done.
Qed.

Lemma passOf_error gvr ns name transform t e :
  passOf gvr ns name transform t (Returned (Some e)) →
  ∃ pre ev, t = pre ++ [ev] ∧ failure ev = Some e.
Proof.
  intros [(e' & -> & He)|[(u & msg & _ & _ & ?)|(u & d & r & -> & _ & He)]]; try done.
  - simplify_eq. by eexists [], _.
  - exists [EvGet gvr ns name (Ok u)], (EvUpdate gvr ns d r). split; [done|].
    simpl. congruence.
Qed.

Lemma deleteSourceOnce_error ref t e :
  runs (deleteSourceOnce ref) t (Returned (Some e)) →
  ∃ pre ev, t = pre ++ [ev] ∧ failure ev = Some e.
Proof.
  intros H. destruct (deleteSourceOnce_pass _ _ _ H) as [(e' & -> & He)|(cur & r & -> & He)].
  - simplify_eq. by eexists [], _.
  - simplify_eq. by eexists [_], _.
Qed.

Lemma deleteSourceOnce_one_fetch ref t o :
  runs (deleteSourceOnce ref) t o → length (filter (λ e, isGet e = true) t) = 1.
Proof.
  intros H. by destruct (deleteSourceOnce_pass _ _ _ H) as [(e' & -> & _)|(cur & r & -> & _)].
Qed.

(** X15.  The error of a retried step.  When the composite repair or
    the source retirement returns an error, that error is the server's
    answer to the last call made, returned as it came.  An error that is
    not a conflict therefore ended the step at once.  A conflict is
    returned only when the passes are used up: by the composite repair
    after exactly five fetches of the composite, by the source retirement
    after five fetches of the claim or more. *)
Theorem retried_step_error :
  (∀ xrRef xrcu tr e,
     runs (UpdateCompositeWithNewClaim (Some xrRef) xrcu) tr (Returned (Some e)) →
     ∃ pre ev, tr = pre ++ [ev] ∧ failure ev = Some e
               ∧ (errors.IsConflict e = true →
                  length (filter (λ e, isGet e = true) tr) = retry.DefaultRetrySteps))
  ∧ (∀ ref tr e,
       runs (DeleteSourceClaim ref) tr (Returned (Some e)) →
       ∃ pre ev, tr = pre ++ [ev] ∧ failure ev = Some e
                 ∧ (errors.IsConflict e = true →
                    (retry.DefaultRetrySteps
                     ≤ length (filter (λ e, isGet e = true) tr))%nat)).
Proof.
  split.
  - intros xrRef xrcu tr e H. apply UpdateComposite_loop in H.
    destruct (OnError_error _ _ _ _ _
                (pass_one_fetch _ _ _ _ _ (updateCompositeOnce_pass xrRef xrcu))
                (λ t e Ht, passOf_error _ _ _ _ _ _ (updateCompositeOnce_pass xrRef xrcu _ _ Ht))
                H) as [(_ & ? & _)|Hr]; [done|exact Hr].
  - intros ref tr e H.
    unfold DeleteSourceClaim, retry.RetryOnConflict in H.
    apply runs_bind_inv in H as [(t1 & a & t2 & H1 & H2 & ->)|(msg & _ & ?)]; [|done].
    destruct a as [e1|].
    + inv H2. rewrite app_nil_r.
      destruct (OnError_error _ _ _ _ _
                  (pass_one_fetch _ _ _ _ _ (clearSourceOnce_pass ref))
                  (λ t e Ht, passOf_error _ _ _ _ _ _ (clearSourceOnce_pass ref _ _ Ht))
                  H1) as [(_ & ? & _)|(pre & ev & -> & Hev & Hc)]; [done|].
      exists pre, ev. repeat split; [done|]. intros Hce. by rewrite (Hc Hce).
    + apply runs_bind_inv in H2 as [(t3 & a & t4 & H3 & H4 & ->)|(msg & _ & ?)]; [|done].
      destruct a as [e2|]; inv H4. rewrite app_nil_r.
      destruct (OnError_error _ _ _ _ _ (deleteSourceOnce_one_fetch ref)
                  (deleteSourceOnce_error ref) H3)
        as [(_ & ? & _)|(pre & ev & -> & Hev & Hc)]; [done|].
      exists (t1 ++ pre), ev. rewrite <- app_assoc. repeat split; [done|].
      intros Hce. rewrite filter_app, length_app, (Hc Hce). lia.
Qed.

Lemma retried_step_error_witness :
  length (filter (λ e, isGet e = true)
            (exec kube.contended
               (UpdateCompositeWithNewClaim (Some scenario.xrRef) (scenario.claimDoc "dest-ns"))
               (scenario.ready, replicate 5 (scenario.xtenants, "", "dev-teams-abcde"))).2)
  = 5.
Proof.
  pose proof (exec_split kube.contended
                (UpdateCompositeWithNewClaim (Some scenario.xrRef)
                   (scenario.claimDoc "dest-ns"))
                (scenario.ready, replicate 5 (scenario.xtenants, "", "dev-teams-abcde")))
    as Hx.
  assert (Ho : (exec kube.contended
                  (UpdateCompositeWithNewClaim (Some scenario.xrRef)
                     (scenario.claimDoc "dest-ns"))
                  (scenario.ready, replicate 5 (scenario.xtenants, "", "dev-teams-abcde"))).1.1
               = Returned (Some (StatusError StatusReasonConflict "dev-teams-abcde")))
    by (vm_compute; reflexivity).
  rewrite Ho in Hx.
  destruct (proj1 retried_step_error _ _ _ _ (exec_runs _ _ _ _ _ _ Hx))
    as (pre & ev & _ & _ & Hc).
  exact (Hc eq_refl).
Defined.

(** ** The documents of the two updates *)

Lemma SetValue_spec u f v :
  match u !! "spec" with None | Some VNull | Some (VObj _) => True | _ => False end →
  fieldpath.SetValue_ u ["spec"; f] v = <["spec" := VObj (<[f := v]> (specOf u))]> u.
Proof.
  unfold fieldpath.SetValue_, specOf. simpl.
  by destruct (u !! "spec") as [[]|].
Qed.

Lemma severed_eq u m :
  objectShaped u = true → u !! "metadata" = Some (VObj m) →
  severed u
  = <["metadata" := VObj (<["finalizers" := VArr []]> m)]>
      (<["spec" := VObj (<["resourceRef" := VNull]> (specOf u))]> u).
Proof.
  intros Hshape Hm. destruct (objectShaped_inv _ Hshape) as [_ Hspec].
  unfold severed, DeepCopy, claim.SetResourceReference_nil, unstructured.SetFinalizers.
  rewrite (SetValue_spec _ _ _ Hspec).
  by rewrite (setNestedField_metadata _ m) by (by rewrite lookup_insert_ne).
Qed.

(** X16.  The severed copy of a claim differs from the claim in two
    fields only: [metadata.finalizers] and [spec.resourceRef].  Every
    other top-level field, every other field of the metadata and every
    other field of the spec is as fetched.  Severing a severed copy
    changes nothing. *)
Theorem severed_frame u :
  objectShaped u = true →
  (∀ k, k ≠ "metadata" → k ≠ "spec" → severed u !! k = u !! k)
  ∧ (∃ m m', u !! "metadata" = Some (VObj m) ∧ severed u !! "metadata" = Some (VObj m')
             ∧ ∀ f, f ≠ "finalizers" → m' !! f = m !! f)
  ∧ (∀ f, f ≠ "resourceRef" → specOf (severed u) !! f = specOf u !! f)
  ∧ severed (severed u) = severed u.
Proof.
  intros Hshape. destruct (objectShaped_inv _ Hshape) as [[m Hm] _].
  pose proof (severed_eq _ _ Hshape Hm) as E.
  assert (Hshape' : objectShaped (severed u) = true).
  { rewrite E. unfold objectShaped. rewrite lookup_insert_eq.
    rewrite lookup_insert_ne by done. by rewrite lookup_insert_eq. }
  assert (Hm' : severed u !! "metadata" = Some (VObj (<["finalizers" := VArr []]> m))).
  { rewrite E. by rewrite lookup_insert_eq. }
  assert (Hs' : specOf (severed u) = <["resourceRef" := VNull]> (specOf u)).
  { unfold specOf at 1. rewrite E. rewrite lookup_insert_ne by done.
    by rewrite lookup_insert_eq. }
  repeat split.
  - intros k Hk1 Hk2. rewrite E. by rewrite !lookup_insert_ne.
  - exists m, (<["finalizers" := VArr []]> m). repeat split; [done..|].
    intros f Hf. by rewrite lookup_insert_ne.
  - intros f Hf. rewrite Hs'. by rewrite lookup_insert_ne.
  - rewrite (severed_eq _ _ Hshape' Hm'), Hs', !insert_insert_eq. rewrite E.
    apply map_eq. intros k.
    destruct (decide (k = "metadata")) as [->|]; [by rewrite !lookup_insert_eq|].
    rewrite !(lookup_insert_ne _ "metadata") by done.
    destruct (decide (k = "spec")) as [->|]; [by rewrite !lookup_insert_eq|].
    by rewrite !lookup_insert_ne.
Qed.

Lemma severed_frame_witness :
  severed (scenario.claimDoc "src-ns") !! "kind" = Some (VStr "Tenant")
  ∧ specOf (severed (scenario.claimDoc "src-ns")) !! "size" = Some (VNum 3)
  ∧ severed (severed (scenario.claimDoc "src-ns")) = severed (scenario.claimDoc "src-ns").
Proof.
  destruct (severed_frame (scenario.claimDoc "src-ns") eq_refl) as (Hk & _ & Hs & Hi).
  split; [|split]; [|rewrite (Hs "size") by discriminate|exact Hi].
  - rewrite (Hk "kind") by discriminate. reflexivity.
  - reflexivity.
Defined.

Lemma repaired_eq xrcu xru m labels :
  objectShaped xru = true → xru !! "metadata" = Some (VObj m) →
  unstructured.GetLabels xru = Some labels →
  repaired xrcu xru
  = Some (<["metadata" :=
              VObj (<["labels" :=
                        VObj (VStr <$> <[claimNamespaceLabel := unstructured.GetNamespace xrcu]>
                                         labels)]> m)]>
            (<["spec" := VObj (<["claimRef" := claim.toJSON (claim.GetReference xrcu)]>
                                 (specOf xru))]> xru)).
Proof.
  intros Hshape Hm Hl. destruct (objectShaped_inv _ Hshape) as [_ Hspec].
  unfold repaired, DeepCopy, composite.SetClaimReference.
  rewrite (GetLabels_metadata _ xru) by (by apply SetValue_spec_other).
  rewrite Hl. simpl. f_equal.
  rewrite (SetValue_spec _ _ _ Hspec). unfold unstructured.SetLabels.
  by rewrite (setNestedField_metadata _ m) by (by rewrite lookup_insert_ne).
Qed.

(** X17.  The repaired copy of a composite differs from the composite
    in two fields only: [metadata.labels], where the claim-namespace
    label is set, and [spec.claimRef], which is replaced as a whole by
    the reference to the new claim: its API version, kind, name and
    namespace, and nothing else.  Every other top-level field, every
    other field of the metadata and every other field of the spec is as
    fetched.  Repairing a repaired copy for the same claim gives the same
    document. *)
Theorem repaired_frame xrcu xru d :
  objectShaped xru = true →
  repaired xrcu xru = Some d →
  (∀ k, k ≠ "metadata" → k ≠ "spec" → d !! k = xru !! k)
  ∧ (∃ m m', xru !! "metadata" = Some (VObj m) ∧ d !! "metadata" = Some (VObj m')
             ∧ ∀ f, f ≠ "labels" → m' !! f = m !! f)
  ∧ (∀ f, f ≠ "claimRef" → specOf d !! f = specOf xru !! f)
  ∧ specOf d !! "claimRef" = Some (claim.toJSON (claim.GetReference xrcu))
  ∧ repaired xrcu d = Some d.
Proof.
  intros Hshape Hr. destruct (objectShaped_inv _ Hshape) as [[m Hm] _].
  destruct (unstructured.GetLabels xru) as [labels|] eqn:Hl;
    [|by rewrite (proj2 (repaired_None xrcu xru) Hl) in Hr].
  rewrite (repaired_eq _ _ _ _ Hshape Hm Hl) in Hr. injection Hr as Hd.
  set (labels' := <[claimNamespaceLabel := unstructured.GetNamespace xrcu]> labels) in *.
  set (m' := <["labels" := VObj (VStr <$> labels')]> m) in *.
  assert (Hshape' : objectShaped d = true).
  { rewrite <- Hd. unfold objectShaped. rewrite lookup_insert_eq.
    rewrite lookup_insert_ne by done. by rewrite lookup_insert_eq. }
  assert (Hm' : d !! "metadata" = Some (VObj m')).
  { rewrite <- Hd. by rewrite lookup_insert_eq. }
  assert (Hs' : specOf d
                = <["claimRef" := claim.toJSON (claim.GetReference xrcu)]> (specOf xru)).
  { unfold specOf at 1. rewrite <- Hd. rewrite lookup_insert_ne by done.
    by rewrite lookup_insert_eq. }
  assert (Hl' : unstructured.GetLabels d = Some labels').
  { unfold unstructured.GetLabels, unstructured.NestedStringMap. simpl.
    rewrite Hm'. unfold m'. rewrite lookup_insert_eq. apply stringMap_strings. }
  repeat split.
  - intros k Hk1 Hk2. rewrite <- Hd. by rewrite !lookup_insert_ne.
  - exists m, m'. repeat split; [done..|].
    intros f Hf. unfold m'. by rewrite lookup_insert_ne.
  - intros f Hf. rewrite Hs'. by rewrite lookup_insert_ne.
  - rewrite Hs'. by rewrite lookup_insert_eq.
  - rewrite (repaired_eq _ _ _ _ Hshape' Hm' Hl'). f_equal.
    rewrite Hs'. unfold labels' at 1, m'. rewrite !insert_insert_eq.
    fold labels'. rewrite <- Hd.
    apply map_eq. intros k.
    destruct (decide (k = "metadata")) as [->|]; [by rewrite !lookup_insert_eq|].
    rewrite !(lookup_insert_ne _ "metadata") by done.
    destruct (decide (k = "spec")) as [->|]; [by rewrite !lookup_insert_eq|].
    by rewrite !lookup_insert_ne.
Qed.

Lemma repaired_frame_witness :
  ∃ d, repaired (scenario.claimDoc "dest-ns") (scenario.xrDoc scenario.labelled) = Some d
       ∧ d !! "kind" = Some (VStr "XTenant")
       ∧ repaired (scenario.claimDoc "dest-ns") d = Some d.
Proof.
  destruct (repaired (scenario.claimDoc "dest-ns") (scenario.xrDoc scenario.labelled))
    as [d|] eqn:Hd; [|by vm_compute in Hd].
  destruct (repaired_frame (scenario.claimDoc "dest-ns") (scenario.xrDoc scenario.labelled) d
              ltac:(vm_compute; reflexivity) Hd)
    as (Hk & _ & _ & _ & Hi).
  exists d. split; [reflexivity|]. split; [|exact Hi].
  rewrite (Hk "kind") by discriminate. reflexivity.
Defined.

(** ** Failures on the way to the creation *)

Opaque UpdateCompositeWithNewClaim DeleteSourceClaim.

(** X18.  What the process cannot set up.  A kubeconfig that cannot be
    loaded and a client that cannot be built end the run before any call,
    the first under the message of [Run], the second as it came.  A
    discovery client that cannot be built is found out only after the
    destination namespace has been fetched and found; the run ends there
    with the error under the messages of [NewRestMapper] and of [Run]. *)
Theorem Run_setup_failure pf c tr o :
  runs (Run pf c) tr o →
  (∀ e, GetConfig pf = Err e →
        tr = [] ∧ o = Returned (Some (withMessage e errKubeConfig)))
  ∧ (∀ cfg e, GetConfig pf = Ok cfg → NewForConfig pf cfg = Some e →
              tr = [] ∧ o = Returned (Some e))
  ∧ (∀ cfg e nsdoc rest,
       GetConfig pf = Ok cfg → NewDiscoveryClientForConfig pf cfg = Err e →
       tr = namespaceGet c (Ok nsdoc) :: rest →
       rest = []
       ∧ o = Returned (Some (withMessage (withMessage e errGetDiscoveryClient)
                               errRestMapper))).
Proof.
  intros H. repeat split.
  - unfold Run in H. rewrite H0 in H. by inv H.
  - unfold Run in H. rewrite H0 in H. by inv H.
  - unfold Run, NewDynamicClient in H. rewrite H0, H1 in H. by inv H.
  - unfold Run, NewDynamicClient in H. rewrite H0, H1 in H. by inv H.
  - unfold Run, NewRestMapper in H. rewrite H0, H1 in H. subst tr.
    repeat run_step; simplify_eq; done.
  - unfold Run, NewRestMapper in H. rewrite H0, H1 in H. subst tr.
    repeat run_step; simplify_eq; done.
Qed.

Lemma Run_setup_failure_witness :
  runs (Run (mkPlatform (Ok (mkConfig "https://cluster.example.com")) (λ _, None)
               (λ _, Err (errorString "no route to host")))
            scenario.cmd)
       [namespaceGet scenario.cmd (Ok scenario.nsDoc)]
       (Returned (Some (withMessage
                          (withMessage (errorString "no route to host") errGetDiscoveryClient)
                          errRestMapper))).
Proof.
  assert (∃ o, runs (Run (mkPlatform (Ok (mkConfig "https://cluster.example.com"))
                            (λ _, None) (λ _, Err (errorString "no route to host")))
                         scenario.cmd)
                    [namespaceGet scenario.cmd (Ok scenario.nsDoc)] o) as [o Hr].
  { eexists. apply (runs_Get _ _ _ _ (Ok scenario.nsDoc)). apply runs_Ret. }
  destruct (Run_setup_failure _ _ _ _ Hr) as (_ & _ & H).
  destruct (H (mkConfig "https://cluster.example.com") (errorString "no route to host")
              scenario.nsDoc [] eq_refl eq_refl eq_refl) as [_ Ho].
  rewrite Ho in Hr. exact Hr.
Defined.

(** X19.  The type is looked at late.  With the process set up, a
    token that cannot be parsed, or a type that the mapper cannot
    resolve, is found out only after the destination namespace has been
    fetched: every run makes that one call, and when the namespace is
    found the run ends with the error of the parsing, or of the mapper,
    under the message of [Run]. *)
Theorem Run_type_failure pf c cfg rm res name tr o :
  GetConfig pf = Ok cfg → NewForConfig pf cfg = None →
  NewDiscoveryClientForConfig pf cfg = Ok rm →
  runs (Run pf c) tr o →
  (∀ e, getResourceAndName c = (res, name, Some e) →
        ∃ r, tr = [namespaceGet c r]
             ∧ ∀ nsdoc, r = Ok nsdoc →
                 o = Returned (Some (withMessage e errInvalidResourceAndName)))
  ∧ (∀ e, getResourceAndName c = (res, name, None) → MappingFor rm res = Err e →
          ∃ r, tr = [namespaceGet c r]
               ∧ ∀ nsdoc, r = Ok nsdoc → o = Returned (Some (withMessage e errGetMapping))).
Proof.
  intros Hcfg Hdyn Hmap H. unfold Run, NewDynamicClient, NewRestMapper in H.
  rewrite Hcfg, Hdyn, Hmap in H. split.
  - intros e He. rewrite He in H.
    repeat run_step; eexists; (split; [reflexivity|]); intros; by simplify_eq.
  - intros e He Hm. rewrite He, Hm in H.
    repeat run_step; eexists; (split; [reflexivity|]); intros; by simplify_eq.
Qed.

Lemma Run_type_failure_witness :
  ∃ r, (exec kube.api
          (Run (scenario.platform RESTScopeNameNamespace)
               (mkCmd "tenant/dev/teams" "src-ns" "dest-ns" ""))
          scenario.ready).2
       = [namespaceGet (mkCmd "tenant/dev/teams" "src-ns" "dest-ns" "") r].
Proof.
  destruct (Run_type_failure (scenario.platform RESTScopeNameNamespace)
              (mkCmd "tenant/dev/teams" "src-ns" "dest-ns" "")
              (mkConfig "https://cluster.example.com")
              (scenario.mapper RESTScopeNameNamespace) "" "" _ _
              eq_refl eq_refl eq_refl
              (exec_runs kube.api _ _ _ _ _
                 (exec_split kube.api
                    (Run (scenario.platform RESTScopeNameNamespace)
                         (mkCmd "tenant/dev/teams" "src-ns" "dest-ns" ""))
                    scenario.ready))) as [H _].
  destruct (H (errors.New errInvalidResource) ltac:(vm_compute; reflexivity)) as (r & Htr & _).
  exists r. exact Htr.
Defined.

(** X20.  A fetch that fails.  When one of the three fetches that
    open a run, of the destination namespace, of the source claim, of the
    claim in the destination namespace, is answered with an error other
    than not-found, the run ends with that call and returns the error
    under the message "cannot get requested resource". *)
Theorem Run_fetch_failure pf c tr o pre g n nm e post :
  runs (Run pf c) tr o →
  tr = pre ++ EvGet g n nm (Err e) :: post → (length pre < 3)%nat →
  errors.IsNotFound e = false →
  post = [] ∧ noMutation pre ∧ o = Returned (Some (withMessage e errGetResource)).
Proof.
  intros H -> Hl He. unfold Run in H.
  destruct pre as [|a0 [|a1 [|a2 pre]]]; [| | |simpl in Hl; lia]; simpl in H;
    repeat run_step; simplify_eq; try congruence;
    (split; [done|]); (split; [by repeat constructor|done]).
Qed.

Lemma Run_fetch_failure_witness :
  runs (Run (scenario.platform RESTScopeNameNamespace) scenario.cmd)
       ([namespaceGet scenario.cmd (Ok scenario.nsDoc)]
        ++ EvGet scenario.tenants "src-ns" "dev-teams"
             (Err (errorString "connection refused")) :: [])
       (Returned (Some (withMessage (errorString "connection refused") errGetResource))).
Proof.
  assert (∃ o, runs (Run (scenario.platform RESTScopeNameNamespace) scenario.cmd)
                    ([namespaceGet scenario.cmd (Ok scenario.nsDoc)]
                     ++ EvGet scenario.tenants "src-ns" "dev-teams"
                          (Err (errorString "connection refused")) :: []) o) as [o Hr].
  { eexists. apply (runs_Get _ _ _ _ (Ok scenario.nsDoc)).
    apply (runs_Get _ _ _ _ (Err (errorString "connection refused"))). apply runs_Ret. }
  destruct (Run_fetch_failure _ _ _ _ _ _ _ _ _ _ Hr eq_refl ltac:(simpl; lia) eq_refl)
    as (_ & _ & Ho).
  rewrite Ho in Hr. exact Hr.
Defined.

Transparent UpdateCompositeWithNewClaim DeleteSourceClaim.

(** ** What a run leaves in the sequential store *)

Lemma exec_served {A} (p : prog A) s o s' tr :
  exec kube.api p s = (o, s', tr) → served s tr s'.
Proof.
  revert s o s' tr.
  induction p as [a|msg|gvr ns name k IH|gvr ns obj k IH|gvr ns obj k IH|gvr ns name k IH];
    simpl; intros s o s' tr H.
  - inv H. constructor.
  - inv H. constructor.
  - destruct (kube.get gvr ns name s) as [r s1] eqn:E.
    destruct (exec kube.api (k r) s1) as [[o1 s2] t1] eqn:E'.
    inv H. econstructor; eauto.
  - destruct (kube.create gvr ns obj s) as [r s1] eqn:E.
    destruct (exec kube.api (k r) s1) as [[o1 s2] t1] eqn:E'.
    inv H. econstructor; eauto.
  - destruct (kube.update gvr ns obj s) as [r s1] eqn:E.
    destruct (exec kube.api (k r) s1) as [[o1 s2] t1] eqn:E'.
    inv H. econstructor; eauto.
  - destruct (kube.delete gvr ns name s) as [r s1] eqn:E.
    destruct (exec kube.api (k r) s1) as [[o1 s2] t1] eqn:E'.
    inv H. econstructor; eauto.
Qed.

(** An object stays in the store as long as no call deletes it. *)
Lemma served_keeps k s tr s' :
  served s tr s' →
  is_Some (kube.objects s !! k) → Forall (λ e, ¬ deletes k e) tr →
  is_Some (kube.objects s' !! k).
Proof.
  induction 1 as [s|g n nm r s s1 tr s' E _ IH|g n obj r s s1 tr s' E _ IH
                  |g n obj r s s1 tr s' E _ IH|g n nm r s s1 tr s' E _ IH];
    intros Hk Hd; [done|apply Forall_cons in Hd as [Hd0 Hd]; apply IH; [|done]..].
  - apply kube_get_inv in E as [-> _]. done.
  - apply kube_create_inv in E. destruct r as [stored|e].
    + destruct E as (_ & _ & ->). rewrite lookup_insert_is_Some. 
      destruct (decide ((g, n, unstructured.GetName obj) = k)); auto.
    + by subst.
  - apply kube_update_inv in E. destruct r as [stored|e].
    + destruct E as (_ & ->). rewrite lookup_insert_is_Some.
      destruct (decide ((g, n, unstructured.GetName obj) = k)); auto.
    + by subst.
  - simpl in Hd0. unfold kube.delete in E.
    destruct (decide (nm = "")); [by simplify_eq|].
    destruct (kube.objects s !! (g, n, nm)) as [old|]; [|by simplify_eq].
    destruct (kube.hasFinalizers old); simplify_eq; simpl.
    + rewrite lookup_insert_is_Some. auto.
    + by rewrite lookup_delete_ne.
Qed.

Lemma GetName_destinationOf src dest :
  objectShaped src = true →
  unstructured.GetName (destinationOf src dest) = unstructured.GetName src.
Proof.
  intros Hshape. destruct (objectShaped_inv _ Hshape) as [[m Hm] _].
  rewrite (destinationOf_metadata _ _ _ Hm). unfold unstructured.GetName.
  erewrite !getNestedString_metadata by (apply lookup_insert_eq || exact Hm).
  rewrite lookup_insert_ne by done.
  destruct (decide (dest = "")); by rewrite ?lookup_delete_ne, ?lookup_insert_ne.
Qed.

(** The deletes of source retirement are addressed to the claim. *)
Lemma DeleteSourceClaim_deletes ref tr o k :
  runs (DeleteSourceClaim ref) tr o → k ≠ keyOf ref → Forall (λ e, ¬ deletes k e) tr.
Proof.
  intros H Hk. apply Forall_forall. intros e He Hd.
  destruct e as [| | |g n nm r]; try done. simpl in Hd.
  apply list_elem_of_split in He as (pre & post & E).
  destruct (DeleteSourceClaim_before_delete _ _ _ _ _ _ _ _ _ H E) as [Hkey _].
  congruence.
Qed.

(** X21.  No object is lost.  On the sequential store, with its
    objects well formed, an object that is in the store before a run is
    in the store after it, however the run ends, with one exception: the
    source claim, which is the object of the type the mapper resolved the
    token to, under the name the token gave, in the source namespace, may
    be gone, and then the claim of the same name is in the store in the
    destination namespace. *)
Theorem Run_loses_no_object pf c s o s' tr k :
  wellFormed s →
  exec kube.api (Run pf c) s = (o, s', tr) →
  is_Some (kube.objects s !! k) →
  is_Some (kube.objects s' !! k)
  ∨ ∃ cfg rm res mapping name,
      GetConfig pf = Ok cfg
      ∧ NewDiscoveryClientForConfig pf cfg = Ok rm
      ∧ getResourceAndName c = (res, name, None)
      ∧ MappingFor rm res = Ok mapping
      ∧ k = keyOf (claimRef mapping name (Namespace c))
      ∧ is_Some (kube.objects s' !! keyOf (claimRef mapping name (DestNamespace c))).
Proof.
  intros Hwf Hx Hk.
  pose proof (exec_runs _ _ _ _ _ _ Hx) as Hr. pose proof (exec_served _ _ _ _ _ Hx) as Hs.
  destruct (Run_stages _ _ _ _ Hr)
    as [(Hn & _)|(cfg & rm & res & name & mapping & nsdoc & src & e & r & rest & Hcfg & _
                  & Hrm & Htok & Hmap & _ & He & -> & Hrest)].
  { left. by rewrite (kube_reads_only _ _ _ _ _ Hx Hn). }
  inv Hs. match goal with H : kube.get _ _ _ _ = _ |- _ => apply kube_get_inv in H as [-> _] end.
  match goal with H : served _ _ _ |- _ => inv H end.
  match goal with H : kube.get _ _ _ _ = _ |- _ =>
    apply kube_get_inv in H as [-> [Hname Hsrc]] end.
  match goal with H : served _ _ _ |- _ => inv H end.
  match goal with H : kube.get _ _ _ _ = _ |- _ =>
    apply kube_get_inv in H as [-> [_ Hdst]] end.
  destruct (Hdst He) as [_ Hdst'].
  match goal with H : served _ _ _ |- _ => inv H end.
  match goal with H : kube.create _ _ _ _ = _ |- _ =>
    apply kube_create_inv in H; rename H into Hc end.
  match goal with H : served _ _ _ |- _ => rename H into Hs end.
  destruct (Hwf _ _ Hsrc) as [Hshape Hnm]. simpl in Hnm.
  assert (Hne : keyOf (claimRef mapping name (Namespace c))
                ≠ keyOf (claimRef mapping name (DestNamespace c))).
  { intros E. unfold keyOf in E. simpl in E. congruence. }
  assert (Hdel : ∀ k', k' ≠ keyOf (claimRef mapping name (Namespace c)) →
                       Forall (λ e, ¬ deletes k' e) rest).
  { intros k' Hk'.
    destruct Hrest as [(ce & _ & -> & _)|(d & t1 & o1 & t2 & _ & -> & H1 & Ho)];
      [constructor|].
    apply Forall_app. split.
    - eapply Forall_impl; [exact (proj1 (UpdateComposite_calls _ _ _ _ H1))|].
      intros [] ? ?; simpl in *; done.
    - destruct Ho as [(? & _ & -> & _)|[(? & _ & -> & _)|(_ & o2 & H2 & _)]];
        [constructor..|].
      by eapply DeleteSourceClaim_deletes. }
  assert (Hkeep : ∀ k', is_Some (kube.objects s !! k') → is_Some (kube.objects s1 !! k')).
  { intros k' Hk'. destruct r as [stored|ce]; [|by subst].
    destruct Hc as (_ & _ & ->). rewrite lookup_insert_is_Some.
    destruct (decide ((gvrOf (claimRef mapping name (DestNamespace c)), DestNamespace c,
                       unstructured.GetName (destinationOf src (DestNamespace c))) = k'));
      auto. }
  destruct (decide (k = keyOf (claimRef mapping name (Namespace c)))) as [->|Hk'].
  - destruct r as [stored|ce].
    + right. exists cfg, rm, res, mapping, name. do 5 (split; [done|]).
      eapply served_keeps; [exact Hs| |by apply Hdel].
      destruct Hc as (_ & _ & ->).
      rewrite (GetName_destinationOf _ _ Hshape), Hnm.
      unfold keyOf. simpl. by rewrite lookup_insert_eq.
    + left. destruct Hrest as [(ce' & _ & -> & _)|(d & t1 & o1 & t2 & ? & _)]; [|done].
      inv Hs. by apply Hkeep.
  - left. eapply served_keeps; [exact Hs|by apply Hkeep|by apply Hdel].
Qed.

Lemma Run_loses_no_object_witness :
  is_Some (kube.objects
             (exec kube.api (Run (scenario.platform RESTScopeNameNamespace) scenario.cmd)
                scenario.unlabelled).1.2
           !! (scenario.tenants, "src-ns", "dev-teams")).
Proof.
  assert (Hwf : wellFormed scenario.unlabelled).
  { intros k u Hl. apply elem_of_list_to_map_2 in Hl.
    repeat (apply elem_of_cons in Hl as [Hl|Hl];
            [injection Hl as -> ->; vm_compute; split; reflexivity|]).
    by apply elem_of_nil in Hl. }
  destruct (Run_loses_no_object _ _ _ _ _ _ (scenario.tenants, "src-ns", "dev-teams") Hwf
              (exec_split kube.api
                 (Run (scenario.platform RESTScopeNameNamespace) scenario.cmd)
                 scenario.unlabelled)
              ltac:(vm_compute; eauto))
    as [H|(cfg & rm & res & mapping & name & _)]; [exact H|].
  vm_compute. eauto.
Defined.

(** X22.  Into its own namespace.  On the sequential store, a run
    whose destination namespace is the source namespace writes nothing
    and leaves the store as it was: the claim it would create is the
    claim it has just found. *)
Theorem Run_same_namespace pf c s o s' tr :
  Namespace c = DestNamespace c →
  exec kube.api (Run pf c) s = (o, s', tr) →
  noMutation tr ∧ s' = s.
Proof.
  intros Hns Hx.
  pose proof (exec_runs _ _ _ _ _ _ Hx) as Hr. pose proof (exec_served _ _ _ _ _ Hx) as Hs.
  destruct (Run_stages _ _ _ _ Hr)
    as [(Hn & _)|(cfg & rm & res & name & mapping & nsdoc & src & e & r & rest & _ & _
                  & _ & _ & _ & _ & He & -> & _)].
  { split; [done|]. by apply (kube_reads_only _ _ _ _ _ Hx). }
  exfalso.
  inv Hs. match goal with H : kube.get _ _ _ _ = _ |- _ => apply kube_get_inv in H as [-> _] end.
  match goal with H : served _ _ _ |- _ => inv H end.
  match goal with H : kube.get _ _ _ _ = _ |- _ =>
    apply kube_get_inv in H as [-> [_ Hsrc]] end.
  match goal with H : served _ _ _ |- _ => inv H end.
  match goal with H : kube.get _ _ _ _ = _ |- _ =>
    apply kube_get_inv in H as [-> [_ Hdst]] end.
  destruct (Hdst He) as [_ Hdst']. rewrite Hns in Hsrc. simpl in *. congruence.
Qed.

Lemma Run_same_namespace_witness :
  (exec kube.api (Run (scenario.platform RESTScopeNameNamespace)
                      (mkCmd "tenant.k8s.example.com/dev-teams" "src-ns" "src-ns" ""))
        (scenario.cluster [((scenario.namespaces, "", "src-ns"), scenario.nsDoc);
                           scenario.srcEntry; scenario.xrEntry])).1.2
  = scenario.cluster [((scenario.namespaces, "", "src-ns"), scenario.nsDoc);
                      scenario.srcEntry; scenario.xrEntry].
Proof.
  exact (proj2 (Run_same_namespace (scenario.platform RESTScopeNameNamespace)
                  (mkCmd "tenant.k8s.example.com/dev-teams" "src-ns" "src-ns" "")
                  _ _ _ _ eq_refl
                  (exec_split kube.api
                     (Run (scenario.platform RESTScopeNameNamespace)
                          (mkCmd "tenant.k8s.example.com/dev-teams" "src-ns" "src-ns" ""))
                     (scenario.cluster [((scenario.namespaces, "", "src-ns"), scenario.nsDoc);
                                        scenario.srcEntry; scenario.xrEntry])))).
Defined.

(** X23.  What a nil return of a retried step certifies.  The
    composite repair returns nil only when it was given a reference and
    its last two calls are a fetch of the composite and an update, which
    the server accepted, carrying the repaired copy of the composite just
    fetched.  The source retirement returns nil only when its last two
    calls are a fetch of the claim and the delete of the claim, which the
    server accepted. *)
Theorem retried_step_nil :
  (∀ xr xrcu tr,
     runs (UpdateCompositeWithNewClaim xr xrcu) tr (Returned None) →
     ∃ xrRef pre xru doc stored,
       xr = Some xrRef
       ∧ tr = pre ++ [EvGet (gvrOf xrRef) "" (v1.Name xrRef) (Ok xru);
                      EvUpdate (gvrOf xrRef) "" doc (Ok stored)]
       ∧ repaired xrcu xru = Some doc)
  ∧ (∀ ref tr,
       runs (DeleteSourceClaim ref) tr (Returned None) →
       ∃ pre cur,
         tr = pre ++ [EvGet (gvrOf ref) (v1.Namespace ref) (v1.Name ref) (Ok cur);
                      EvDelete (gvrOf ref) (v1.Namespace ref) (v1.Name ref) None]).
Proof.
  split.
  - intros [xrRef|] xrcu tr H; [|by inv H].
    apply UpdateComposite_loop in H.
    destruct (retry_success _ _ _ _ _ (updateCompositeOnce_pass xrRef xrcu) _ _ _ _ H)
      as [(Hz & _)|(pre & xru & doc & stored & -> & Hd)]; [discriminate Hz|].
    by exists xrRef, pre, xru, doc, stored.
  - intros ref tr H. by apply DeleteSourceClaim_nil.
Qed.

Lemma retried_step_nil_witness :
  ∃ pre xru doc stored,
    (exec kube.api
       (UpdateCompositeWithNewClaim (Some scenario.xrRef) (scenario.claimDoc "dest-ns"))
       scenario.ready).2
    = pre ++ [EvGet scenario.xtenants "" "dev-teams-abcde" (Ok xru);
              EvUpdate scenario.xtenants "" doc (Ok stored)]
    ∧ repaired (scenario.claimDoc "dest-ns") xru = Some doc.
Proof.
  pose proof (exec_split kube.api
                (UpdateCompositeWithNewClaim (Some scenario.xrRef)
                   (scenario.claimDoc "dest-ns"))
                scenario.ready) as Hx.
  assert (Ho : (exec kube.api
                  (UpdateCompositeWithNewClaim (Some scenario.xrRef)
                     (scenario.claimDoc "dest-ns"))
                  scenario.ready).1.1 = Returned None) by (vm_compute; reflexivity).
  rewrite Ho in Hx.
  destruct (proj1 retried_step_nil _ _ _ (exec_runs _ _ _ _ _ _ Hx))
    as (xrRef & pre & xru & doc & stored & Hxr & Htr & Hd).
  injection Hxr as <-.
  exists pre, xru, doc, stored. split; [exact Htr|exact Hd].
Defined.
